(** * Schema.ICU IDE core: the pipeline engine and its policy gate

    A shallow embedding of [PolicyEngine] (glob matcher, pipeline, agent and
    action checks, rule management) and of [PipelineEngine] (registration,
    [runPipeline], [executeStep]), followed by the properties the
    specification states about them and by further properties of the same
    code.

    Conventions of the embedding.
    - A JavaScript string is a [string]: a sequence of code units below 256.
    - A field that may be absent ([undefined]) is an [option].
    - A call that may raise is an [Outcome]: [Ok v] or [Throw message];
      what is raised is an [Error] with a message.
    - The outside world (providers, callbacks, the clock) is an environment
      whose answers may depend on everything that happened before; every
      interaction is appended to a trace.  Logging is left out.

    The file has four parts: the model, the vocabulary of the properties,
    concrete policies, engines and pipelines, and the properties. *)

From Stdlib Require Import ZArith Ascii String List Bool.
From stdpp Require Import base option strings list gmap pretty.

Local Open Scope string_scope.
Local Open Scope list_scope.
Local Open Scope Z_scope.

(* ===================================================================== *)
(** * JavaScript strings *)
(* ===================================================================== *)

Module JsString.

(** [s.startsWith(p)]. *)
Fixpoint startsWith (p s : string) : bool :=
  match p, s with
  | EmptyString, _ => true
  | String a p', String b s' => Ascii.eqb a b && startsWith p' s'
  | String _ _, EmptyString => false
  end.

(** [s.replace(/needle/g, rep)] for a literal, non-empty [needle] and a
    replacement without [$]: leftmost matches, never overlapping.  After
    a match the remaining [skip] code units of the needle are dropped. *)
Fixpoint replaceAll_from (needle rep : string) (skip : nat) (s : string) : string :=
  match s with
  | EmptyString => EmptyString
  | String c s' =>
      match skip with
      | S k => replaceAll_from needle rep k s'
      | O =>
          if startsWith needle s
          then rep +:+ replaceAll_from needle rep (Nat.pred (String.length needle)) s'
          else String c (replaceAll_from needle rep O s')
      end
  end.

Definition replaceAll (needle rep s : string) : string :=
  replaceAll_from needle rep O s.

(** [s.includes(c)] for one code unit. *)
Fixpoint includes (c : ascii) (s : string) : bool :=
  match s with
  | EmptyString => false
  | String b s' => Ascii.eqb b c || includes c s'
  end.

(** [toLowerCase] on code units below 256: the letters A to Z and the
    capital letters of Latin-1. *)
Definition lower_ascii (c : ascii) : ascii :=
  let n := nat_of_ascii c in
  if ((Nat.leb 65 n && Nat.leb n 90)
      || (Nat.leb 192 n && Nat.leb n 214)
      || (Nat.leb 216 n && Nat.leb n 222))%bool
  then ascii_of_nat (n + 32) else c.

Fixpoint toLowerCase (s : string) : string :=
  match s with
  | EmptyString => EmptyString
  | String c s' => String (lower_ascii c) (toLowerCase s')
  end.

End JsString.

(* ===================================================================== *)
(** * The fragment of [RegExp] the glob matcher produces *)
(* ===================================================================== *)

Module RegExp.

(** One-character matchers. *)
Inductive atom : Type :=
| Lit (c : ascii)      (* a literal code unit, possibly written escaped *)
| AnyChar              (* [.] : anything but a line terminator *)
| NotSlash.            (* the class [[^/]] *)

Record item : Type := Item { it_atom : atom; it_star : bool }.

Inductive token : Type :=
| TAtom (a : atom)
| TStar
| TCaret
| TDollar.

(** Syntax characters of a pattern. *)
Definition is_syntax (c : ascii) : bool :=
  JsString.includes c "^$\.*+?()[]{}|/".

(** Characters that are not read as themselves outside this fragment. *)
Definition is_meta (c : ascii) : bool :=
  JsString.includes c "^$\.*+?()[]{}|".

(** Lexer.  [None]: the source leaves the fragment (a group, a class
    other than [[^/]], a quantifier other than [*], an escape that is
    not an identity escape), or is not a pattern at all. *)
Fixpoint lex (s : string) : option (list token) :=
  match s with
  | EmptyString => Some []
  | String c r =>
      if Ascii.eqb c "\" then
        match r with
        | String d r' =>
            if is_syntax d then cons (TAtom (Lit d)) <$> lex r' else None
        | EmptyString => None
        end
      else if Ascii.eqb c "[" then
        match r with
        | String d1 (String d2 (String d3 r')) =>
            if Ascii.eqb d1 "^" && Ascii.eqb d2 "/" && Ascii.eqb d3 "]"
            then cons (TAtom NotSlash) <$> lex r'
            else None
        | _ => None
        end
      else if Ascii.eqb c "." then cons (TAtom AnyChar) <$> lex r
      else if Ascii.eqb c "*" then cons TStar <$> lex r
      else if Ascii.eqb c "^" then cons TCaret <$> lex r
      else if Ascii.eqb c "$" then cons TDollar <$> lex r
      else if is_meta c then None
      else cons (TAtom (Lit c)) <$> lex r
  end.

(** Attach each [*] to the atom before it; a [*] with nothing to repeat
    is a syntax error, an assertion inside the body is outside the
    fragment. *)
Fixpoint items (ts : list token) : option (list item) :=
  match ts with
  | [] => Some []
  | TAtom a :: TStar :: r => cons (Item a true) <$> items r
  | TAtom a :: r => cons (Item a false) <$> items r
  | _ => None
  end.

(** A compiled pattern of the form [^body$]. *)
Definition compile (source : string) : option (list item) :=
  match lex source with
  | Some (TCaret :: ts) =>
      match List.rev ts with
      | TDollar :: body => items (List.rev body)
      | _ => None
      end
  | _ => None
  end.

Definition is_line_terminator (c : ascii) : bool :=
  (Ascii.eqb c "010" || Ascii.eqb c "013")%bool.

Definition atom_matches (a : atom) (c : ascii) : bool :=
  match a with
  | Lit d => Ascii.eqb d c
  | AnyChar => negb (is_line_terminator c)
  | NotSlash => negb (Ascii.eqb c "/")
  end.

(** Does the whole of [s] match the sequence [its]?  Backtracking over
    every split a starred item allows. *)
Fixpoint matches (its : list item) (s : string) {struct its} : bool :=
  match its with
  | [] => match s with EmptyString => true | _ => false end
  | Item a false :: r =>
      match s with
      | String c s' => atom_matches a c && matches r s'
      | EmptyString => false
      end
  | Item a true :: r =>
      (fix star (s : string) : bool :=
         matches r s ||
         match s with
         | String c s' => atom_matches a c && star s'
         | EmptyString => false
         end) s
  end.

(** [new RegExp(source).test(s)] for an anchored source of the fragment. *)
Definition test (source s : string) : option bool :=
  its ← compile source; Some (matches its s).

End RegExp.

(* ===================================================================== *)
(** * PolicyEngine *)
(* ===================================================================== *)

Module PolicyEngine.

(** The placeholder the matcher parks [**] under while it rewrites the
    single stars: three section signs (code unit 167). *)
Definition placeholder : string :=
  String "167" (String "167" (String "167" EmptyString)).

(** The chain of replacements of [matchGlob], in source order. *)
Definition regexPattern (pattern : string) : string :=
  let p1 := JsString.replaceAll "." "\." pattern in
  let p2 := JsString.replaceAll "**" placeholder p1 in
  let p3 := JsString.replaceAll "*" "[^/]*" p2 in
  let p4 := JsString.replaceAll placeholder ".*" p3 in
  JsString.replaceAll "?" "." p4.

(** [matchGlob(str, pattern)].  [None] when the generated source leaves
    the modelled fragment of [RegExp] (where the constructor may also
    raise a syntax error). *)
Definition matchGlob (str pattern : string) : option bool :=
  RegExp.test ("^" +:+ regexPattern pattern +:+ "$") str.

(** [matchRegex(str, pattern)]: a search with the host's full [RegExp];
    [host pattern str] is [None] when the constructor raises, which the
    source catches and turns into "no match". *)
Definition matchRegex (host : string -> string -> option bool)
    (str pattern : string) : bool :=
  match host pattern str with
  | Some b => b
  | None => false
  end.

(** ** Contracts *)

Inductive Scope : Type := pipeline | step | action | agent.
Inductive Effect : Type := allow | deny.

(** [target: string | string[]]. *)
Inductive Target : Type :=
| One (name : string)
| Many (names : list string).

Record TimeRestrictions : Type := {
  startHour : option Z;
  endHour : option Z;
  daysOfWeek : option (list Z)
}.

Record Conditions : Type := {
  allowedFiles : option (list string);
  deniedFiles : option (list string);
  allowedCommands : option (list string);
  deniedCommands : option (list string);
  requiresApproval : option bool;
  timeRestrictions : option TimeRestrictions
}.

Definition noConditions : Conditions :=
  {| allowedFiles := None; deniedFiles := None; allowedCommands := None;
     deniedCommands := None; requiresApproval := None;
     timeRestrictions := None |}.

Record PolicyRule : Type := {
  id : string;
  appliesTo : Scope;
  target : Target;
  effect : Effect;
  conditions : option Conditions
}.

Record PolicyConfig : Type := {
  version : string;
  defaultEffect : Effect;
  defaultRequiresApproval : bool;
  rules : list PolicyRule
}.

(** What a check needs of an action: its type, its targets and the
    command of its payload. *)
Record ActionView : Type := {
  type : string;
  targets : option (list string);
  command : option string
}.

(** The reading of [new Date()]: [getHours()] and [getDay()]. *)
Record Date : Type := { getHours : Z; getDay : Z }.

Record Verdict : Type := {
  allowed : bool;
  reason : option string;
  approval : option bool       (* the [requiresApproval] of the verdict *)
}.

Definition allowed_verdict : Verdict :=
  {| allowed := true; reason := None; approval := None |}.

Definition denied (why : string) : Verdict :=
  {| allowed := false; reason := Some why; approval := None |}.

Definition Scope_eqb (a b : Scope) : bool :=
  match a, b with
  | pipeline, pipeline | step, step | action, action | agent, agent => true
  | _, _ => false
  end.

Definition is_deny (e : Effect) : bool :=
  match e with deny => true | allow => false end.

Definition is_allow (e : Effect) : bool :=
  match e with allow => true | deny => false end.

(** [a.includes(x)]. *)
Definition includes (x : string) (a : list string) : bool :=
  existsb (String.eqb x) a.

(** [r.target === name || (Array.isArray(r.target) && r.target.includes(name))]. *)
Definition target_matches (t : Target) (name : string) : bool :=
  match t with
  | One n => String.eqb n name
  | Many ns => includes name ns
  end.

Definition applies (sc : Scope) (name : string) (r : PolicyRule) : bool :=
  Scope_eqb (appliesTo r) sc && target_matches (target r) name.

(** ** checkPipeline and checkStep *)

Definition checkPipeline (config : PolicyConfig) (pipeline_id : string) : Verdict :=
  match List.find (applies pipeline pipeline_id) (rules config) with
  | Some rule =>
      if is_deny (effect rule)
      then denied ("Pipeline " +:+ pipeline_id +:+
                   " is denied by policy rule: " +:+ id rule)
      else allowed_verdict
  | None => allowed_verdict
  end.

Definition checkStep (config : PolicyConfig) (step_agent : string) : Verdict :=
  match List.find (applies agent step_agent) (rules config) with
  | Some rule =>
      if is_deny (effect rule)
      then denied ("Agent " +:+ step_agent +:+
                   " is denied by policy rule: " +:+ id rule)
      else allowed_verdict
  | None => allowed_verdict
  end.

(** ** checkAction *)

(** The inner loop over the patterns of one list: the first pattern the
    target matches, if any. *)
Fixpoint first_glob (tgt : string) (patterns : list string)
    : option (option string) :=
  match patterns with
  | [] => Some None
  | p :: ps =>
      b ← matchGlob tgt p;
      if b : bool then Some (Some p) else first_glob tgt ps
  end.

(** The denied-files loops.  Every pair is still evaluated when the rule
    is not a deny rule, only without consequence. *)
Fixpoint every_glob (tgt : string) (patterns : list string) : option unit :=
  match patterns with
  | [] => Some ()
  | p :: ps => _ ← matchGlob tgt p; every_glob tgt ps
  end.

Fixpoint scan_denied (rule : PolicyRule) (patterns : list string)
    (tgts : list string) : option (option Verdict) :=
  match tgts with
  | [] => Some None
  | t :: ts =>
      if is_deny (effect rule) then
        hit ← first_glob t patterns;
        match hit with
        | Some p =>
            Some (Some (denied ("File " +:+ t +:+ " matches denied pattern "
                                +:+ p +:+ " (rule: " +:+ id rule +:+ ")")))
        | None => scan_denied rule patterns ts
        end
      else
        _ ← every_glob t patterns; scan_denied rule patterns ts
  end.

(** The allowed-files loops.  [fileAllowed] is declared before the loop
    over the targets and carried from one target to the next. *)
Fixpoint scan_allowed (rule : PolicyRule) (patterns : list string)
    (fileAllowed : bool) (tgts : list string) : option (option Verdict) :=
  match tgts with
  | [] => Some None
  | t :: ts =>
      hit ← first_glob t patterns;
      let fileAllowed := if hit is Some _ then true else fileAllowed in
      if negb fileAllowed && is_allow (effect rule)
      then Some (Some (denied ("File " +:+ t +:+
                               " not in allowed patterns (rule: " +:+
                               id rule +:+ ")")))
      else scan_allowed rule patterns fileAllowed ts
  end.

Section Commands.

Variable host : string -> string -> option bool.

Fixpoint scan_denied_commands (rule : PolicyRule) (cmd : string)
    (patterns : list string) : option Verdict :=
  match patterns with
  | [] => None
  | p :: ps =>
      if matchRegex host cmd p && is_deny (effect rule)
      then Some (denied ("Command matches denied pattern " +:+ p +:+
                         " (rule: " +:+ id rule +:+ ")"))
      else scan_denied_commands rule cmd ps
  end.

Definition check_allowed_commands (rule : PolicyRule) (cmd : string)
    (patterns : list string) : option Verdict :=
  let commandAllowed := existsb (matchRegex host cmd) patterns in
  if negb commandAllowed && is_allow (effect rule)
  then Some (denied ("Command not in allowed patterns (rule: " +:+
                     id rule +:+ ")"))
  else None.

(** The time restrictions of a rule.  The hours are compared only when
    both bounds are set; in the reason they are printed in full, as the
    code prints integers below 10^21. *)
Definition check_time (now : Date) (tr : TimeRestrictions) : option Verdict :=
  let window :=
    match startHour tr, endHour tr with
    | Some s, Some e =>
        if (getHours now <? s) || (getHours now >=? e)
        then Some (denied ("Action not allowed at this time (allowed: " +:+
                           pretty s +:+ ":00-" +:+ pretty e +:+ ":00)"))
        else None
    | _, _ => None
    end in
  match window with
  | Some v => Some v
  | None =>
      match daysOfWeek tr with
      | Some days =>
          if negb (existsb (Z.eqb (getDay now)) days)
          then Some (denied "Action not allowed on this day of week")
          else None
      | None => None
      end
  end.

Definition truthy_string (s : option string) : option string :=
  match s with
  | Some EmptyString => None
  | other => other
  end.

(** The body of the loop over the matching rules: either a verdict is
    returned at once ([inl]), or the loop goes on with the approval
    requirement as it now stands ([inr]).  A condition that is absent, or
    that meets an absent operand of the action, is skipped. *)
Definition rule_body (now : Date) (act : ActionView) (rule : PolicyRule)
    (requires : bool) : option (Verdict + bool) :=
  let c := default noConditions (conditions rule) in
  let cmd := truthy_string (command act) in
  d ← match deniedFiles c, targets act with
      | Some patterns, Some tgts => scan_denied rule patterns tgts
      | _, _ => Some None
      end;
  if d is Some v then Some (inl v) else
  a ← match allowedFiles c, targets act with
      | Some patterns, Some tgts => scan_allowed rule patterns false tgts
      | _, _ => Some None
      end;
  if a is Some v then Some (inl v) else
  let dc := match deniedCommands c, cmd with
            | Some patterns, Some s => scan_denied_commands rule s patterns
            | _, _ => None
            end in
  if dc is Some v then Some (inl v) else
  let ac := match allowedCommands c, cmd with
            | Some patterns, Some s => check_allowed_commands rule s patterns
            | _, _ => None
            end in
  if ac is Some v then Some (inl v) else
  let requires := default requires (requiresApproval c) in
  match timeRestrictions c with
  | Some tr =>
      match check_time now tr with
      | Some v => Some (inl v)
      | None => Some (inr requires)
      end
  | None => Some (inr requires)
  end.

Fixpoint over_rules (now : Date) (act : ActionView)
    (matching : list PolicyRule) (requires : bool) : option Verdict :=
  match matching with
  | [] => Some {| allowed := true; reason := None; approval := Some requires |}
  | rule :: rest =>
      r ← rule_body now act rule requires;
      match r with
      | inl v => Some v
      | inr requires' => over_rules now act rest requires'
      end
  end.

(** [checkAction(action, context)] evaluated when the clock reads
    [now].  The context is not consulted.  [None]: a glob pattern of a
    rule leaves the modelled fragment. *)
Definition checkAction (config : PolicyConfig) (now : Date)
    (act : ActionView) : option Verdict :=
  let matchingRules := List.filter (applies action (type act)) (rules config) in
  over_rules now act matchingRules (defaultRequiresApproval config).

End Commands.

(** The policy a gate starts with when none is supplied. *)
Definition getDefaultPolicy : PolicyConfig :=
  {| version := "1.0.0";
     defaultEffect := allow;
     defaultRequiresApproval := true;
     rules :=
       [ {| id := "deny-secrets"; appliesTo := action;
            target := Many ["MODIFY_FILE"; "DELETE_FILE"; "CREATE_FILE"];
            effect := deny;
            conditions := Some {|
              allowedFiles := None;
              deniedFiles := Some ["**/.env"; "**/.env.*"; "**/secrets/**";
                                   "**/credentials/**"; "**/*.key";
                                   "**/*.pem"; "**/id_rsa*"];
              allowedCommands := None; deniedCommands := None;
              requiresApproval := None; timeRestrictions := None |} |};
         {| id := "deny-dangerous-commands"; appliesTo := action;
            target := One "RUN_COMMAND";
            effect := deny;
            conditions := Some {|
              allowedFiles := None; deniedFiles := None;
              allowedCommands := None;
              deniedCommands := Some ["rm -rf /"; "dd if="; "mkfs\.";
                                      "wget.*\|.*sh"; "curl.*\|.*bash";
                                      ":(){ :|:& };:"; "chmod -R 777 /"];
              requiresApproval := None; timeRestrictions := None |} |};
         {| id := "approve-deletions"; appliesTo := action;
            target := One "DELETE_FILE";
            effect := allow;
            conditions := Some {|
              allowedFiles := None; deniedFiles := None;
              allowedCommands := None; deniedCommands := None;
              requiresApproval := Some true; timeRestrictions := None |} |};
         {| id := "approve-commands"; appliesTo := action;
            target := One "RUN_COMMAND";
            effect := allow;
            conditions := Some {|
              allowedFiles := None; deniedFiles := None;
              allowedCommands := None; deniedCommands := None;
              requiresApproval := Some true; timeRestrictions := None |} |} ]
  |}.

End PolicyEngine.

(* ===================================================================== *)
(** * JavaScript values and exceptions *)
(* ===================================================================== *)

Module Js.

Inductive Outcome (A : Type) : Type :=
| Ok (a : A)
| Throw (message : string).
Arguments Ok {A} a.
Arguments Throw {A} message.

Definition bind {A B : Type} (m : Outcome A) (k : A -> Outcome B) : Outcome B :=
  match m with
  | Ok a => k a
  | Throw e => Throw e
  end.

#[local] Set Warnings "-register-all".
Inductive Value : Type :=
| undefined
| null
| boolean (b : bool)
| number (z : Z)
| str (s : string)
| array (elements : list Value)
| object (fields : list (string * Value)).

Definition truthy (v : Value) : bool :=
  match v with
  | undefined | null => false
  | boolean b => b
  | number z => negb (z =? 0)
  | str s => negb (String.eqb s "")
  | array _ | object _ => true
  end.

(** [a || b]. *)
Definition or (a b : Value) : Value := if truthy a then a else b.

Definition of_option (o : option string) : Value :=
  match o with
  | Some s => str s
  | None => undefined
  end.

(** A field of an object literal; the first binding of a key counts. *)
Fixpoint field (k : string) (fields : list (string * Value)) : Value :=
  match fields with
  | [] => undefined
  | (k', v) :: rest => if String.eqb k' k then v else field k rest
  end.

(** [v?.k]. *)
Definition get_opt (v : Value) (k : string) : Value :=
  match v with
  | object fields => field k fields
  | _ => undefined
  end.

(** [v.k]: a TypeError on [undefined] and [null]. *)
Definition get (v : Value) (k : string) : Outcome Value :=
  match v with
  | undefined =>
      Throw ("Cannot read properties of undefined (reading '" +:+ k +:+ "')")
  | null =>
      Throw ("Cannot read properties of null (reading '" +:+ k +:+ "')")
  | _ => Ok (get_opt v k)
  end.

End Js.

#[global] Instance Outcome_ret : MRet Js.Outcome := @Js.Ok.
#[global] Instance Outcome_bind : MBind Js.Outcome :=
  fun A B k m => Js.bind m k.

(* ===================================================================== *)
(** * Contracts of the pipeline engine *)
(* ===================================================================== *)

Module Action.
Record t : Type := {
  type : string;
  targets : list string;
  payload : Js.Value;
  reasoning : Js.Value;
  requiresApproval : bool
}.
End Action.

Module StepResult.
Record t : Type := {
  stepId : option string;
  stepName : option string;
  success : bool;
  data : Js.Value;
  error : option string;
  duration : Z;
  timestamp : string;
  signature : Js.Value;
  actions : option (list Action.t)
}.
End StepResult.

Module Context.
(** The execution context: the merged fields, and the step-output map
    kept under its [stepResults] key. *)
Record t : Type := {
  fields : list (string * Js.Value);
  stepResults : gmap string Js.Value
}.

Definition get (c : t) (k : string) : Js.Value := Js.field k (fields c).

(** [{...defaultContext, ...context, stepResults: {}}]. *)
Definition merge (defaultContext : option (list (string * Js.Value)))
    (context : list (string * Js.Value)) : t :=
  {| fields :=
       List.filter (fun kv => negb (String.eqb (fst kv) "stepResults"))
         (context ++ default [] defaultContext);
     stepResults := ∅ |}.

(** [context.stepResults[id] = data]. *)
Definition store (c : t) (id : string) (data : Js.Value) : t :=
  {| fields := fields c; stepResults := <[id := data]> (stepResults c) |}.
End Context.

Module Step.
Record t : Type := {
  id : option string;
  name : option string;
  agent : option string;
  method : option string;
  inputFrom : option string;
  query : option string;
  contextBuilder :
    option (list StepResult.t -> Context.t -> Js.Outcome Js.Value);
  resultTransform :
    option (Js.Value -> Context.t -> Js.Outcome Js.Value);
  requiresApproval : option bool;
  timeout : option Z;
  continueOnError : option bool
}.
End Step.

Module Pipeline.
Record t : Type := {
  id : option string;
  version : option string;
  name : option string;
  description : option string;
  steps : option (list Step.t);      (* [None]: absent or not an array *)
  defaultContext : option (list (string * Js.Value));
  requiresApproval : option bool
}.
End Pipeline.

Module PipelineResult.
Record t : Type := {
  pipelineId : option string;
  pipelineName : option string;
  success : bool;
  steps : list StepResult.t;
  totalDuration : Z;
  startedAt : string;
  completedAt : string;
  actions : list Action.t;
  error : Js.Value;
  context : Context.t
}.
End PipelineResult.

(** A field read in a template literal or used as a property key. *)
Definition shown (o : option string) : string := default "undefined" o.

(** Truthiness of optional fields. *)
Definition some_string (o : option string) : bool :=
  match o with
  | Some s => negb (String.eqb s "")
  | None => false
  end.

Definition flag (o : option bool) : bool := default false o.

(* ===================================================================== *)
(** * PipelineEngine *)
(* ===================================================================== *)

Module PipelineEngine.

(** ** The outside world *)

Inductive ApprovalRequest : Type :=
| ForPipeline (pipeline description : option string)
| ForStep (step agent : option string) (query : Js.Value).

(** What a capability provider answers. *)
Record AgentResult : Type := {
  success : bool;
  data : Js.Value;
  signature : Js.Value
}.

(** Every interaction with the outside, in the order it happened. *)
Inductive Event : Type :=
| Called (agent method : string) (input context : Js.Value) (timeoutMs : Z)
| ApprovalRequested (request : ApprovalRequest)
| StepCompleted (result : StepResult.t) (current total : Z).

Definition Trace : Type := list Event.

(** The provider call raced against the deadline: it settles (resolves
    or rejects) first, or the timer does. *)
Inductive Race : Type :=
| Settled (o : Js.Outcome AgentResult)
| TimedOut.

Definition Callable : Type := Trace -> Js.Value -> Js.Value -> Z -> Race.

Record Options : Type := {
  defaultTimeout : Z;
  autoApprove : bool;
  onStepComplete :
    option (Trace -> StepResult.t -> Z -> Z -> Js.Outcome unit);
  onApprovalRequired :
    option (Trace -> ApprovalRequest -> Js.Outcome bool)
}.

Record t : Type := {
  client : string -> option (string -> option Callable);
  pipelines : gmap string Pipeline.t;
  policyEngine : option PolicyEngine.PolicyConfig;
  options : Options
}.

(** Built-ins of the host: [Date.now()] after a given history,
    [toISOString] of such a reading, [JSON.stringify]. *)
Record Host : Type := {
  now : Trace -> Z;
  toISOString : Z -> string;
  stringify : Js.Value -> Js.Value
}.

(** ** Registration *)

Definition validateStep (index : nat) (step : Step.t) : Js.Outcome unit :=
  if negb (some_string (Step.id step))
  then Js.Throw ("Step " +:+ pretty index +:+ " missing id")
  else if negb (some_string (Step.agent step))
  then Js.Throw ("Step " +:+ shown (Step.id step) +:+ " missing agent")
  else if negb (some_string (Step.method step))
  then Js.Throw ("Step " +:+ shown (Step.id step) +:+ " missing method")
  else if negb (some_string (Step.inputFrom step))
  then Js.Throw ("Step " +:+ shown (Step.id step) +:+ " missing inputFrom")
  else Js.Ok ().

(** [steps.forEach((step, index) => ...)] from position [index]. *)
Fixpoint validateSteps (index : nat) (steps : list Step.t) : Js.Outcome unit :=
  match steps with
  | [] => Js.Ok ()
  | step :: rest =>
      _ ← validateStep index step; validateSteps (S index) rest
  end.

Definition validatePipelineDefinition (pipeline : Pipeline.t) : Js.Outcome bool :=
  match Pipeline.steps pipeline with
  | None => Js.Throw "pipeline.steps.forEach is not a function"
  | Some steps => _ ← validateSteps 0 steps; Js.Ok true
  end.

Definition registerPipeline (engine : t) (pipelineDefinition : Pipeline.t)
    : Js.Outcome t :=
  if negb (some_string (Pipeline.id pipelineDefinition))
  then Js.Throw "Pipeline must have an id"
  else if negb (bool_decide (is_Some (Pipeline.steps pipelineDefinition)))
  then Js.Throw "Pipeline must have a steps array"
  else
    _ ← validatePipelineDefinition pipelineDefinition;
    Js.Ok {| client := client engine;
             pipelines := <[shown (Pipeline.id pipelineDefinition)
                            := pipelineDefinition]> (pipelines engine);
             policyEngine := policyEngine engine;
             options := options engine |}.

Definition getPipeline (engine : t) (pipelineId : string) : option Pipeline.t :=
  pipelines engine !! pipelineId.

Definition unregisterPipeline (engine : t) (pipelineId : string) : t :=
  {| client := client engine;
     pipelines := delete pipelineId (pipelines engine);
     policyEngine := policyEngine engine;
     options := options engine |}.

(** ** One step *)

Definition last_result (previousResults : list StepResult.t) : option StepResult.t :=
  List.last (List.map Some previousResults) None.

Definition buildStepInput (host : Host) (step : Step.t)
    (previousResults : list StepResult.t) (context : Context.t)
    : Js.Outcome Js.Value :=
  let query := Js.of_option (Step.query step) in
  match Step.inputFrom step with
  | Some "user" =>
      Js.Ok (Js.or (Js.or query (Context.get context "userPrompt")) (Js.str ""))
  | Some "context" => Js.Ok (Js.or query (Js.str ""))
  | Some "previousStep" =>
      match last_result previousResults with
      | None =>
          Js.Throw ("Step " +:+ shown (Step.id step) +:+
                    " requires previous step but none exists")
      | Some lastResult =>
          if Js.truthy query then Js.Ok query else
          code ← Js.get (StepResult.data lastResult) "code";
          if Js.truthy code then Js.Ok code else
          improved ← Js.get (StepResult.data lastResult) "improvedCode";
          if Js.truthy improved then Js.Ok improved else
          Js.Ok (stringify host (StepResult.data lastResult))
      end
  | Some "file" => Js.Ok (Js.or query (Js.str ""))
  | Some "selection" =>
      Js.Ok (Js.or (Js.or (Js.get_opt (Context.get context "selection") "content")
                          query) (Js.str ""))
  | Some "tests" =>
      Js.Ok (Js.or query
               (stringify host (Js.or (Context.get context "testResults")
                                      (Js.object []))))
  | _ => Js.Ok (Js.or query (Js.str ""))
  end.

Definition buildDefaultContext (step : Step.t) (context : Context.t) : Js.Value :=
  let pref k := Js.get_opt (Context.get context "preferences") k in
  let env k := Js.get_opt (Context.get context "environment") k in
  let for_agent a := bool_decide (Step.agent step = Some a) in
  Js.object
    ((if for_agent "codeGenerator"
      then [("language", Js.or (pref "language") (Js.str "JavaScript"))] else [])
     ++
     (if for_agent "terminalAgent"
      then [("os", Js.or (env "os") (Js.str "linux"));
            ("shell", Js.or (env "shell") (Js.str "bash"))] else [])
     ++
     (if for_agent "projectPlanner"
      then [("technology", Js.or (pref "framework") (Js.str "Node.js"));
            ("experience", Js.or (pref "experience") (Js.str "intermediate"))]
      else [])).

Definition extensions : list (string * string) :=
  [("javascript", "js"); ("typescript", "ts"); ("python", "py");
   ("java", "java"); ("c++", "cpp"); ("c#", "cs"); ("ruby", "rb");
   ("go", "go"); ("rust", "rs")].

Fixpoint extension_of (language : string) (table : list (string * string))
    : option string :=
  match table with
  | [] => None
  | (k, v) :: rest => if String.eqb k language then Some v else extension_of language rest
  end.

(** [extensions[language?.toLowerCase()] || 'txt'] on the table's own
    keys: a language named like an inherited member of the object
    ([constructor], [__proto__], ...) is outside this definition. *)
Definition getFileExtension (language : Js.Value) : Js.Outcome string :=
  match language with
  | Js.undefined | Js.null => Js.Ok "txt"
  | Js.str l => Js.Ok (default "txt" (extension_of (JsString.toLowerCase l) extensions))
  | _ => Js.Throw "language?.toLowerCase is not a function"
  end.

Definition command_action (command reasoning : Js.Value) : Action.t :=
  {| Action.type := "RUN_COMMAND"; Action.targets := [];
     Action.payload := Js.object [("command", command)];
     Action.reasoning := reasoning; Action.requiresApproval := true |}.

Fixpoint github_actions (commands : list Js.Value) : Js.Outcome (list Action.t) :=
  match commands with
  | [] => Js.Ok []
  | cmd :: rest =>
      command ← Js.get cmd "command";
      description ← Js.get cmd "description";
      more ← github_actions rest;
      Js.Ok (command_action command
               (Js.or description (Js.str "GitHub CLI command")) :: more)
  end.

Definition extractActions (step : Step.t) (data : Js.Value)
    : Js.Outcome (list Action.t) :=
  let for_agent a := bool_decide (Step.agent step = Some a) in
  created ←
    (if for_agent "codeGenerator" return Js.Outcome (list Action.t) then
       code ← Js.get data "code";
       if Js.truthy code then
         ext ← getFileExtension (Js.get_opt data "language");
         Js.Ok [ {| Action.type := "CREATE_FILE";
                    Action.targets :=
                      ["generated-" +:+ shown (Step.id step) +:+ "." +:+ ext];
                    Action.payload := Js.object [("content", code)];
                    Action.reasoning :=
                      Js.or (Js.get_opt data "reasoning")
                            (Js.str "Generated by code generator");
                    Action.requiresApproval := true |} ]
       else Js.Ok []
     else Js.Ok []);
  diffed ←
    (if for_agent "diffImprover" then
       diff ← Js.get data "diff";
       if Js.truthy diff then
         Js.Ok [ {| Action.type := "APPLY_DIFF";
                    Action.targets := ["current-file"];
                    Action.payload := Js.object [("diff", diff)];
                    Action.reasoning :=
                      Js.or (Js.get_opt data "explanation")
                            (Js.str "Code improvement");
                    Action.requiresApproval := true |} ]
       else Js.Ok []
     else Js.Ok []);
  shell ←
    (if for_agent "terminalAgent" then
       code ← Js.get data "code";
       if Js.truthy code then
         Js.Ok [ command_action code
                   (Js.or (Js.get_opt data "reasoning")
                          (Js.str "Terminal command")) ]
       else Js.Ok []
     else Js.Ok []);
  github ←
    (if for_agent "githubAgent" then
       commands ← Js.get data "githubCommands";
       if Js.truthy commands then
         match commands with
         | Js.array cmds => github_actions cmds
         | _ => Js.Throw "data.githubCommands.forEach is not a function"
         end
       else Js.Ok []
     else Js.Ok []);
  Js.Ok (created ++ diffed ++ shell ++ github).

(** The race of the call against the timer.  A number is an integer
    here and is printed in full, as the code prints it below 10^21 (above,
    JavaScript prints an exponent). *)
Definition executeWithTimeout (race : Race) (timeoutMs : Z)
    : Js.Outcome AgentResult :=
  match race with
  | Settled o => o
  | TimedOut => Js.Throw ("Step timeout after " +:+ pretty timeoutMs +:+ "ms")
  end.

(** [requestApproval]: the callback decides when there is one; without
    one the request is granted. *)
Definition requestApproval (engine : t) (request : ApprovalRequest)
    (tr : Trace) : Js.Outcome bool * Trace :=
  match onApprovalRequired (options engine) with
  | Some callback => (callback tr request, tr ++ [ApprovalRequested request])
  | None => (Js.Ok true, tr)
  end.

(** The step-level policy check: the text of the denial, if any. *)
Definition step_denied (engine : t) (step : Step.t) : option string :=
  match policyEngine engine, Step.agent step with
  | Some config, Some a =>
      let policyCheck := PolicyEngine.checkStep config a in
      if PolicyEngine.allowed policyCheck then None
      else Some ("Step blocked by policy: " +:+
                 shown (PolicyEngine.reason policyCheck))
  | _, _ => None
  end.

(** Everything of [executeStep] that precedes the first interaction:
    the input, the context for the agent, the policy check. *)
Definition prepare (engine : t) (host : Host) (step : Step.t)
    (previousResults : list StepResult.t) (context : Context.t)
    : Js.Outcome (Js.Value * Js.Value) :=
  input ← buildStepInput host step previousResults context;
  agentContext ←
    match Step.contextBuilder step with
    | Some build => build previousResults context
    | None => Js.Ok (buildDefaultContext step context)
    end;
  match step_denied engine step with
  | Some message => Js.Throw message
  | None => Js.Ok (input, agentContext)
  end.

(** Everything that follows the answer of the provider. *)
Definition conclude (host : Host) (step : Step.t) (context : Context.t)
    (agentResult : AgentResult) (duration : Z) (finished : Z)
    : Js.Outcome StepResult.t :=
  transformedData ←
    match Step.resultTransform step with
    | Some transform => transform (data agentResult) context
    | None => Js.Ok (data agentResult)
    end;
  actions ← extractActions step transformedData;
  Js.Ok {| StepResult.stepId := Step.id step;
           StepResult.stepName := Step.name step;
           StepResult.success := success agentResult;
           StepResult.data := transformedData;
           StepResult.error := None;
           StepResult.duration := duration;
           StepResult.timestamp := toISOString host finished;
           StepResult.signature := signature agentResult;
           StepResult.actions := Some actions |}.

Definition truthy_timeout (o : option Z) : option Z :=
  match o with
  | Some 0 => None
  | other => other
  end.

Definition executeStep (engine : t) (host : Host) (step : Step.t)
    (previousResults : list StepResult.t) (context : Context.t)
    (tr : Trace) : Js.Outcome StepResult.t * Trace :=
  let startTime := now host tr in
  match prepare engine host step previousResults context with
  | Js.Throw e => (Js.Throw e, tr)
  | Js.Ok (input, agentContext) =>
      let '(approved, tr1) :=
        if flag (Step.requiresApproval step) && negb (autoApprove (options engine))
        then requestApproval engine
               (ForStep (Step.name step) (Step.agent step) input) tr
        else (Js.Ok true, tr) in
      match approved with
      | Js.Throw e => (Js.Throw e, tr1)
      | Js.Ok false => (Js.Throw "Step execution rejected by user", tr1)
      | Js.Ok true =>
          match client engine (shown (Step.agent step)) with
          | None =>
              (Js.Throw ("Agent not found: " +:+ shown (Step.agent step)), tr1)
          | Some agent =>
              match agent (shown (Step.method step)) with
              | None =>
                  (Js.Throw ("Method not found: " +:+ shown (Step.agent step)
                             +:+ "." +:+ shown (Step.method step)), tr1)
              | Some method =>
                  let timeout :=
                    default (defaultTimeout (options engine))
                            (truthy_timeout (Step.timeout step)) in
                  let tr2 :=
                    tr1 ++ [Called (shown (Step.agent step))
                                   (shown (Step.method step))
                                   input agentContext timeout] in
                  match executeWithTimeout
                          (method tr1 input agentContext timeout) timeout with
                  | Js.Throw e => (Js.Throw e, tr2)
                  | Js.Ok agentResult =>
                      (conclude host step context agentResult
                         (now host tr2 - startTime) (now host tr2), tr2)
                  end
              end
          end
      end
  end.

(** ** The run *)

(** The variables of [runPipeline] the loop over the steps updates. *)
Record Loop : Type := {
  stepResults : list StepResult.t;
  actions : list Action.t;
  executionContext : Context.t;
  pipelineSuccess : bool;
  pipelineError : Js.Value
}.

Inductive Next : Type := go_on | stop.

(** The result the [catch] block builds. *)
Definition caught (host : Host) (step : Step.t) (message : string)
    (tr : Trace) : StepResult.t :=
  {| StepResult.stepId := Step.id step;
     StepResult.stepName := Step.name step;
     StepResult.success := false;
     StepResult.data := Js.null;
     StepResult.error := Some message;
     StepResult.duration := 0;
     StepResult.timestamp := toISOString host (now host tr);
     StepResult.signature := Js.undefined;
     StepResult.actions := None |}.

(** The [catch] block, entered with the variables as the [try] block
    left them. *)
Definition on_catch (host : Host) (step : Step.t) (message : string)
    (st : Loop) (tr : Trace) : Loop * Next :=
  let stepResults' := stepResults st ++ [caught host step message tr] in
  if negb (flag (Step.continueOnError step))
  then ({| stepResults := stepResults';
           actions := actions st;
           executionContext := executionContext st;
           pipelineSuccess := false;
           pipelineError := Js.str message |}, stop)
  else ({| stepResults := stepResults';
           actions := actions st;
           executionContext := executionContext st;
           pipelineSuccess := pipelineSuccess st;
           pipelineError := pipelineError st |}, go_on).

(** The [try] block once [executeStep] has returned [stepResult], up to
    the call of the observer. *)
Definition recorded (step : Step.t) (stepResult : StepResult.t) (st : Loop) : Loop :=
  {| stepResults := stepResults st ++ [stepResult];
     actions := actions st ++ default [] (StepResult.actions stepResult);
     executionContext :=
       Context.store (executionContext st) (shown (Step.id step))
                     (StepResult.data stepResult);
     pipelineSuccess := pipelineSuccess st;
     pipelineError := pipelineError st |}.

Definition notify (engine : t) (stepResult : StepResult.t) (current total : Z)
    (tr : Trace) : Js.Outcome unit * Trace :=
  match onStepComplete (options engine) with
  | Some observer =>
      (observer tr stepResult current total,
       tr ++ [StepCompleted stepResult current total])
  | None => (Js.Ok (), tr)
  end.

(** One turn of the loop, for the step at index [i]. *)
Definition iteration (engine : t) (host : Host) (total i : Z) (step : Step.t)
    (st : Loop) (tr : Trace) : Loop * Next * Trace :=
  match executeStep engine host step (stepResults st) (executionContext st) tr with
  | (Js.Throw e, tr1) => (on_catch host step e st tr1, tr1)
  | (Js.Ok stepResult, tr1) =>
      let st1 := recorded step stepResult st in
      match notify engine stepResult (i + 1) total tr1 with
      | (Js.Throw e, tr2) => (on_catch host step e st1 tr2, tr2)
      | (Js.Ok _, tr2) =>
          if negb (StepResult.success stepResult)
             && negb (flag (Step.continueOnError step))
          then ({| stepResults := stepResults st1;
                   actions := actions st1;
                   executionContext := executionContext st1;
                   pipelineSuccess := false;
                   pipelineError := Js.of_option (StepResult.error stepResult) |},
                stop, tr2)
          else (st1, go_on, tr2)
      end
  end.

Fixpoint run_steps (engine : t) (host : Host) (total i : Z)
    (steps : list Step.t) (st : Loop) (tr : Trace) : Loop * Trace :=
  match steps with
  | [] => (st, tr)
  | step :: rest =>
      match iteration engine host total i step st tr with
      | (st', go_on, tr') => run_steps engine host total (i + 1) rest st' tr'
      | (st', stop, tr') => (st', tr')
      end
  end.

(** The pipeline-level policy check: the text of the denial, if any. *)
Definition pipeline_denied (engine : t) (pipeline : Pipeline.t) : option string :=
  match policyEngine engine, Pipeline.id pipeline with
  | Some config, Some i =>
      let policyCheck := PolicyEngine.checkPipeline config i in
      if PolicyEngine.allowed policyCheck then None
      else Some ("Pipeline blocked by policy: " +:+
                 shown (PolicyEngine.reason policyCheck))
  | _, _ => None
  end.

(** [runPipeline] up to the loop: the look-up, the merged context, the
    pipeline-level policy check and approval.  [Ok]: the pipeline, its
    steps, and the variables as the loop finds them. *)
Definition start (engine : t) (pipelineId : string)
    (context : list (string * Js.Value)) (tr : Trace)
    : Js.Outcome (Pipeline.t * list Step.t * Loop) * Trace :=
  match pipelines engine !! pipelineId with
  | None => (Js.Throw ("Pipeline not found: " +:+ pipelineId), tr)
  | Some pipeline =>
      match Pipeline.steps pipeline with
      | None =>
          (Js.Throw "Cannot read properties of undefined (reading 'length')", tr)
      | Some steps =>
          let st :=
            {| stepResults := []; actions := [];
               executionContext :=
                 Context.merge (Pipeline.defaultContext pipeline) context;
               pipelineSuccess := true;
               pipelineError := Js.null |} in
          match pipeline_denied engine pipeline with
          | Some message => (Js.Throw message, tr)
          | None =>
              let '(approved, tr1) :=
                if flag (Pipeline.requiresApproval pipeline)
                   && negb (autoApprove (options engine))
                then requestApproval engine
                       (ForPipeline (Pipeline.name pipeline)
                                    (Pipeline.description pipeline)) tr
                else (Js.Ok true, tr) in
              match approved with
              | Js.Throw e => (Js.Throw e, tr1)
              | Js.Ok false =>
                  (Js.Throw "Pipeline execution rejected by user", tr1)
              | Js.Ok true => (Js.Ok (pipeline, steps, st), tr1)
              end
          end
      end
  end.

(** The report built after the loop. *)
Definition report (host : Host) (pipeline : Pipeline.t) (tr0 : Trace)
    (st : Loop) (tr : Trace) : PipelineResult.t :=
  {| PipelineResult.pipelineId := Pipeline.id pipeline;
     PipelineResult.pipelineName := Pipeline.name pipeline;
     PipelineResult.success := pipelineSuccess st;
     PipelineResult.steps := stepResults st;
     PipelineResult.totalDuration := now host tr - now host tr0;
     PipelineResult.startedAt := toISOString host (now host tr0);
     PipelineResult.completedAt := toISOString host (now host tr);
     PipelineResult.actions := actions st;
     PipelineResult.error := pipelineError st;
     PipelineResult.context := executionContext st |}.

Definition runPipeline (engine : t) (host : Host) (pipelineId : string)
    (context : list (string * Js.Value)) (tr : Trace)
    : Js.Outcome PipelineResult.t * Trace :=
  match start engine pipelineId context tr with
  | (Js.Throw e, tr1) => (Js.Throw e, tr1)
  | (Js.Ok (pipeline, steps, st), tr1) =>
      let '(st', tr2) :=
        run_steps engine host (Z.of_nat (length steps)) 0 steps st tr1 in
      (Js.Ok (report host pipeline tr st' tr2), tr2)
  end.

End PipelineEngine.

(* ===================================================================== *)
(** * The vocabulary of the properties *)
(* ===================================================================== *)

Section PolicyVocabulary.

Import PolicyEngine.

(** [r] is the first rule, in registration order, whose scope and target
    match the subject. *)
Definition first_applicable (sc : Scope) (name : string)
    (rs : list PolicyRule) (r : PolicyRule) : Prop :=
  exists before after,
    rs = before ++ r :: after /\
    Forall (fun r' => applies sc name r' = false) before /\
    applies sc name r = true.

(** The verdict a rule gives when it is the one consulted. *)
Definition verdict_of (subject : string) (name : string) (r : PolicyRule) : Verdict :=
  match effect r with
  | deny => denied (subject +:+ " " +:+ name +:+
                    " is denied by policy rule: " +:+ id r)
  | allow => allowed_verdict
  end.

Definition time_restricted (r : PolicyRule) : bool :=
  bool_decide (is_Some (timeRestrictions (default noConditions (conditions r)))).

End PolicyVocabulary.

Section EngineVocabulary.

Import PipelineEngine.

(** What validation asks of a step and of a definition. *)
Definition step_complete (s : Step.t) : Prop :=
  some_string (Step.id s) = true /\ some_string (Step.agent s) = true /\
  some_string (Step.method s) = true /\ some_string (Step.inputFrom s) = true.

Definition accepted (p : Pipeline.t) : Prop :=
  some_string (Pipeline.id p) = true /\
  exists steps, Pipeline.steps p = Some steps /\ Forall step_complete steps.

(** The registry holds validated definitions, each under its own id. *)
Definition registry_ok (engine : t) : Prop :=
  forall k p, pipelines engine !! k = Some p ->
              accepted p /\ Pipeline.id p = Some k.

Definition registered (engine : t) (def : Pipeline.t) : t :=
  {| client := client engine;
     pipelines := <[shown (Pipeline.id def) := def]> (pipelines engine);
     policyEngine := policyEngine engine;
     options := options engine |}.

(** Stop or go on, as the flag of the step says after a failure. *)
Definition after_failure (step : Step.t) : Next :=
  if flag (Step.continueOnError step) then go_on else stop.


(** The trace of a notification. *)
Definition notified (engine : t) (r : StepResult.t) (current total : Z) (tr : Trace) : Trace :=
  match onStepComplete (options engine) with
  | Some _ => tr ++ [StepCompleted r current total]
  | None => tr
  end.

(** The pipeline variables when a failure stops the run. *)
Definition stopped (st : Loop) (error : Js.Value) : Loop :=
  {| stepResults := stepResults st; actions := actions st;
     executionContext := executionContext st;
     pipelineSuccess := false; pipelineError := error |}.

(** The variables with one more result and nothing else changed. *)
Definition appended (st : Loop) (r : StepResult.t) : Loop :=
  {| stepResults := stepResults st ++ [r]; actions := actions st;
     executionContext := executionContext st;
     pipelineSuccess := pipelineSuccess st;
     pipelineError := pipelineError st |}.

(** The run has not failed so far. *)
Definition running (st : Loop) : Prop :=
  pipelineSuccess st = true /\ pipelineError st = Js.null.

(** The run was stopped by the failure of [step]: its failed result is
    the last one recorded and its error is the terminal error. *)
Definition stopped_by (step : Step.t) (st : Loop) : Prop :=
  pipelineSuccess st = false /\
  flag (Step.continueOnError step) = false /\
  exists r, last (stepResults st) = Some r /\
            StepResult.stepId r = Step.id step /\
            StepResult.success r = false /\
            pipelineError st = Js.of_option (StepResult.error r).

(** The outcome of [executeStep] is a failure: an exception, or a result
    with [success = false]. *)
Definition failed (o : Js.Outcome StepResult.t) : bool :=
  match o with
  | Js.Throw _ => true
  | Js.Ok r => negb (StepResult.success r)
  end.

(** The pipeline-level approval is asked for. *)
Definition approval_due (engine : t) (p : Pipeline.t) : bool :=
  flag (Pipeline.requiresApproval p) && negb (autoApprove (options engine)).

Definition pipeline_request (p : Pipeline.t) : ApprovalRequest :=
  ForPipeline (Pipeline.name p) (Pipeline.description p).


End EngineVocabulary.

(* ===================================================================== *)
(** * Concrete policies, providers, engines and pipelines *)
(* ===================================================================== *)

Section Policies.

Import PolicyEngine.

(** A whitelist of source files for file creation. *)
Definition only_src : PolicyConfig :=
  {| version := "1.0.0"; defaultEffect := allow;
     defaultRequiresApproval := true;
     rules :=
       [ {| id := "allow-only-src"; appliesTo := action;
            target := Many ["CREATE_FILE"; "MODIFY_FILE"];
            effect := allow;
            conditions := Some {|
              allowedFiles := Some ["src/**"];
              deniedFiles := None; allowedCommands := None;
              deniedCommands := None; requiresApproval := None;
              timeRestrictions := None |} |} ] |}.

Definition monday_3am : Date := {| getHours := 3; getDay := 1 |}.

Definition create (files : list string) : ActionView :=
  {| type := "CREATE_FILE"; targets := Some files; command := None |}.

(** Two rules for one pipeline and two for one agent, the permission
    first. *)
Definition allow_deploy : PolicyRule :=
  {| id := "allow-deploy"; appliesTo := pipeline;
     target := One "deploy"; effect := allow; conditions := None |}.

Definition deny_deploy : PolicyRule :=
  {| id := "deny-deploy"; appliesTo := pipeline;
     target := Many ["deploy"; "release"]; effect := deny;
     conditions := None |}.

Definition allow_terminal : PolicyRule :=
  {| id := "allow-terminal"; appliesTo := agent;
     target := One "terminalAgent"; effect := allow; conditions := None |}.

Definition deny_terminal : PolicyRule :=
  {| id := "deny-terminal"; appliesTo := agent;
     target := One "terminalAgent"; effect := deny; conditions := None |}.

Definition allow_then_deny : PolicyConfig :=
  {| version := "1.0.0"; defaultEffect := allow;
     defaultRequiresApproval := true;
     rules := [allow_deploy; deny_deploy; allow_terminal; deny_terminal] |}.

(** Deletions are allowed during office hours only. *)
Definition office_hours : PolicyConfig :=
  {| version := "1.0.0"; defaultEffect := allow;
     defaultRequiresApproval := false;
     rules :=
       [ {| id := "office-hours"; appliesTo := action;
            target := One "DELETE_FILE"; effect := allow;
            conditions := Some {|
              allowedFiles := None; deniedFiles := None;
              allowedCommands := None; deniedCommands := None;
              requiresApproval := None;
              timeRestrictions := Some {|
                startHour := Some 9; endHour := Some 17;
                daysOfWeek := Some [1; 2; 3; 4; 5] |} |} |} ] |}.

Definition delete_tmp : ActionView :=
  {| type := "DELETE_FILE"; targets := Some ["tmp/build.log"]; command := None |}.

Definition tuesday_10h : Date := {| getHours := 10; getDay := 2 |}.
Definition tuesday_20h : Date := {| getHours := 20; getDay := 2 |}.
Definition sunday_10h : Date := {| getHours := 10; getDay := 0 |}.

End Policies.

(** A host without regular expressions, for checks that use none. *)
Definition no_regexp (pattern s : string) : option bool := None.

Definition plain_step (id agent : string) (continue : option bool) : Step.t :=
  {| Step.id := Some id; Step.name := Some id; Step.agent := Some agent;
     Step.method := Some "query"; Step.inputFrom := Some "user";
     Step.query := None; Step.contextBuilder := None;
     Step.resultTransform := None; Step.requiresApproval := None;
     Step.timeout := None; Step.continueOnError := continue |}.

Definition pipeline_of (id : string) (steps : list Step.t) (approval : option bool)
    : Pipeline.t :=
  {| Pipeline.id := Some id; Pipeline.version := Some "1.0.0";
     Pipeline.name := Some id; Pipeline.description := None;
     Pipeline.steps := Some steps; Pipeline.defaultContext := None;
     Pipeline.requiresApproval := approval |}.

Definition default_options : PipelineEngine.Options :=
  {| PipelineEngine.defaultTimeout := 60000;
     PipelineEngine.autoApprove := false;
     PipelineEngine.onStepComplete := None;
     PipelineEngine.onApprovalRequired := None |}.

(** An observer that only watches. *)
Definition watching_options : PipelineEngine.Options :=
  {| PipelineEngine.defaultTimeout := 60000;
     PipelineEngine.autoApprove := false;
     PipelineEngine.onStepComplete := Some (fun _ _ _ _ => Js.Ok ());
     PipelineEngine.onApprovalRequired := None |}.

(** A host whose clock counts the interactions so far. *)
Definition counting_host : PipelineEngine.Host :=
  {| PipelineEngine.now := fun tr => Z.of_nat (length tr);
     PipelineEngine.toISOString := fun ms => "t" +:+ pretty ms;
     PipelineEngine.stringify := fun _ => Js.str "{}" |}.

Definition answer (ok : bool) (text : string) : PipelineEngine.Callable :=
  fun _ _ _ _ =>
    PipelineEngine.Settled
      (Js.Ok {| PipelineEngine.success := ok;
                PipelineEngine.data := Js.object [("text", Js.str text)];
                PipelineEngine.signature := Js.undefined |}).

Definition raise (message : string) : PipelineEngine.Callable :=
  fun _ _ _ _ => PipelineEngine.Settled (Js.Throw message).

(** Three agents with one method each: [base] answers, [weak] answers
    with [success = false], [faulty] raises. *)
Definition three_agents (a : string) : option (string -> option PipelineEngine.Callable) :=
  if String.eqb a "base" then
    Some (fun m => if String.eqb m "query" then Some (answer true "done") else None)
  else if String.eqb a "weak" then
    Some (fun m => if String.eqb m "query" then Some (answer false "partial") else None)
  else if String.eqb a "faulty" then
    Some (fun m => if String.eqb m "query" then Some (raise "provider down") else None)
  else None.

Definition engine_with (registry : list Pipeline.t)
    (policy : option PolicyEngine.PolicyConfig)
    (opts : PipelineEngine.Options) : PipelineEngine.t :=
  {| PipelineEngine.client := three_agents;
     PipelineEngine.pipelines :=
       list_to_map ((fun p => (shown (Pipeline.id p), p)) <$> registry);
     PipelineEngine.policyEngine := policy;
     PipelineEngine.options := opts |}.

(** An engine without agents, pipelines or policy. *)
Definition bare_engine : PipelineEngine.t :=
  {| PipelineEngine.client := fun _ => None;
     PipelineEngine.pipelines := ∅;
     PipelineEngine.policyEngine := None;
     PipelineEngine.options := default_options |}.

(** Two steps under one id. *)
Definition twins : Pipeline.t :=
  pipeline_of "twins" [plain_step "a" "base" None; plain_step "a" "base" None] None.

Definition deploy : Pipeline.t :=
  pipeline_of "deploy" [plain_step "build" "base" None] None.

Definition release : Pipeline.t :=
  pipeline_of "release" [plain_step "tag" "base" None] (Some true).

(** A policy that freezes releases. *)
Definition deny_release : PolicyEngine.PolicyConfig :=
  {| PolicyEngine.version := "1.0.0";
     PolicyEngine.defaultEffect := PolicyEngine.allow;
     PolicyEngine.defaultRequiresApproval := true;
     PolicyEngine.rules :=
       [ {| PolicyEngine.id := "freeze";
            PolicyEngine.appliesTo := PolicyEngine.pipeline;
            PolicyEngine.target := PolicyEngine.One "release";
            PolicyEngine.effect := PolicyEngine.deny;
            PolicyEngine.conditions := None |} ] |}.

(** An engine whose policy forbids [release]. *)
Definition guarded_engine : PipelineEngine.t :=
  engine_with [deploy; release] (Some deny_release) default_options.


(** One step, forgiven when it fails; once asked of the agent that
    raises, once of the agent that answers [success = false]. *)
Definition solo_faulty : Pipeline.t :=
  pipeline_of "solo" [plain_step "a" "faulty" (Some true)] None.

Definition solo_weak : Pipeline.t :=
  pipeline_of "solo" [plain_step "a" "weak" (Some true)] None.

Definition run_solo (p : Pipeline.t)
    : Js.Outcome PipelineResult.t * PipelineEngine.Trace :=
  PipelineEngine.runPipeline (engine_with [p] None watching_options)
    counting_host "solo" [] [].

(** What a report says of step [a]: whether it stored an output for it,
    and the error messages of its results. *)
Definition stored_for_a (o : Js.Outcome PipelineResult.t) : option Js.Value :=
  match o with
  | Js.Ok result => Context.stepResults (PipelineResult.context result) !! "a"
  | Js.Throw _ => None
  end.

Definition errors_of (o : Js.Outcome PipelineResult.t) : list (option string) :=
  match o with
  | Js.Ok result => StepResult.error <$> PipelineResult.steps result
  | Js.Throw _ => []
  end.

Definition observed (tr : PipelineEngine.Trace) : bool :=
  existsb (fun ev => match ev with
                     | PipelineEngine.StepCompleted _ _ _ => true
                     | _ => false
                     end) tr.

(** Three steps, the second asked of the agent that raises. *)
Definition stepA : Step.t := plain_step "A" "base" None.
Definition stepB : Step.t := plain_step "B" "faulty" None.
Definition stepC : Step.t := plain_step "C" "base" None.

Definition abc : Pipeline.t := pipeline_of "abc" [stepA; stepB; stepC] None.

Definition abc_engine : PipelineEngine.t := engine_with [abc] None watching_options.

Definition fresh : PipelineEngine.Loop :=
  {| PipelineEngine.stepResults := []; PipelineEngine.actions := [];
     PipelineEngine.executionContext := Context.merge None [];
     PipelineEngine.pipelineSuccess := true;
     PipelineEngine.pipelineError := Js.null |}.

(** Three steps, the last two failing and forgiven. *)
Definition tolerant : Pipeline.t :=
  pipeline_of "tolerant"
    [plain_step "A" "base" None; plain_step "B" "weak" (Some true);
     plain_step "C" "faulty" (Some true)] None.

Definition tolerant_engine : PipelineEngine.t :=
  engine_with [tolerant] None watching_options.

Definition tolerant_run : Js.Outcome PipelineResult.t * PipelineEngine.Trace :=
  PipelineEngine.runPipeline tolerant_engine counting_host "tolerant" [] [].

Definition tolerant_report : PipelineResult.t :=
  match fst tolerant_run with
  | Js.Ok result => result
  | Js.Throw _ => PipelineEngine.report counting_host tolerant [] fresh []
  end.

(** An observer that raises, on a pipeline whose only step succeeds. *)
Definition raising_observer_engine : PipelineEngine.t :=
  engine_with [deploy] None
    {| PipelineEngine.defaultTimeout := 60000;
       PipelineEngine.autoApprove := false;
       PipelineEngine.onStepComplete :=
         Some (fun _ _ _ _ => Js.Throw "observer failed");
       PipelineEngine.onApprovalRequired := None |}.

Definition successes_of (o : Js.Outcome PipelineResult.t) : list (option string * bool) :=
  match o with
  | Js.Ok result =>
      (fun r => (StepResult.stepId r, StepResult.success r))
        <$> PipelineResult.steps result
  | Js.Throw _ => []
  end.

(** Three steps, the second asked of the agent that answers
    [success = false], and not forgiven. *)
Definition abc_weak : Pipeline.t :=
  pipeline_of "abc"
    [plain_step "A" "base" None; plain_step "B" "weak" None;
     plain_step "C" "base" None] None.

Definition outcome_of (o : Js.Outcome PipelineResult.t)
    : option (bool * Js.Value * list (option string)) :=
  match o with
  | Js.Ok result =>
      Some (PipelineResult.success result, PipelineResult.error result,
            StepResult.stepId <$> PipelineResult.steps result)
  | Js.Throw _ => None
  end.

(** A policy that forbids the agent [base]. *)
Definition deny_base : PolicyEngine.PolicyConfig :=
  {| PolicyEngine.version := "1.0.0";
     PolicyEngine.defaultEffect := PolicyEngine.allow;
     PolicyEngine.defaultRequiresApproval := true;
     PolicyEngine.rules :=
       [ {| PolicyEngine.id := "no-base";
            PolicyEngine.appliesTo := PolicyEngine.agent;
            PolicyEngine.target := PolicyEngine.Many ["base"];
            PolicyEngine.effect := PolicyEngine.deny;
            PolicyEngine.conditions := None |} ] |}.

(** The same file modification at the root of the project and below it. *)
Definition modify (file : string) : PolicyEngine.ActionView :=
  {| PolicyEngine.type := "MODIFY_FILE";
     PolicyEngine.targets := Some [file];
     PolicyEngine.command := None |}.

(* ===================================================================== *)
(** * Rule management and further vocabulary *)
(* ===================================================================== *)

Module RuleManagement.

Import PolicyEngine.

Definition with_rules (config : PolicyConfig) (rs : list PolicyRule) : PolicyConfig :=
  {| version := version config; defaultEffect := defaultEffect config;
     defaultRequiresApproval := defaultRequiresApproval config;
     rules := rs |}.

(** [addRule(rule)]: the rule is pushed at the end. *)
Definition addRule (config : PolicyConfig) (rule : PolicyRule)
    : Js.Outcome PolicyConfig :=
  if String.eqb (id rule) ""
  then Js.Throw "Rule must have an id"
  else Js.Ok (with_rules config (rules config ++ [rule])).

(** [rules.findIndex(r => r.id === ruleId)]. *)
Fixpoint findIndex (ruleId : string) (rs : list PolicyRule) : option nat :=
  match rs with
  | [] => None
  | r :: rest =>
      if String.eqb (id r) ruleId then Some O
      else S <$> findIndex ruleId rest
  end.

(** [rules.splice(index, 1)]. *)
Fixpoint splice1 (index : nat) (rs : list PolicyRule) : list PolicyRule :=
  match rs, index with
  | [], _ => []
  | _ :: rest, O => rest
  | r :: rest, S k => r :: splice1 k rest
  end.

(** [removeRule(ruleId)]: the configuration it leaves and what it
    returns. *)
Definition removeRule (config : PolicyConfig) (ruleId : string)
    : PolicyConfig * bool :=
  match findIndex ruleId (rules config) with
  | Some index => (with_rules config (splice1 index (rules config)), true)
  | None => (config, false)
  end.

Definition getRules (config : PolicyConfig) : list PolicyRule := rules config.

End RuleManagement.

Section ActionVocabulary.

Import PolicyEngine.

(** The conditions of a rule, none when it declares none. *)
Definition conditions_of (r : PolicyRule) : Conditions :=
  default noConditions (conditions r).

(** The rules an action check goes through. *)
Definition matching_rules (config : PolicyConfig) (act : ActionView)
    : list PolicyRule :=
  List.filter (applies action (type act)) (rules config).

(** The approval requirement after the overrides of [matching], in
    order: a later override replaces an earlier one. *)
Definition approval_after (matching : list PolicyRule) (start : bool) : bool :=
  fold_left (fun acc r => default acc (requiresApproval (conditions_of r)))
            matching start.

(** The shape of a verdict: a denial has a reason and no approval
    requirement. *)
Definition is_denial (v : Verdict) : Prop :=
  exists why, v = denied why.

(** The clock reading is outside the window of a time restriction. *)
Definition outside_window (now : Date) (tr : TimeRestrictions) : Prop :=
  (exists s e, startHour tr = Some s /\ endHour tr = Some e /\
               (getHours now < s \/ e <= getHours now)) \/
  (exists days, daysOfWeek tr = Some days /\ ~ In (getDay now) days).

(** A rule that cannot deny: an [allow] rule without whitelists, or a
    [deny] rule without blacklists, and without time restriction. *)
Definition permissive (r : PolicyRule) : Prop :=
  timeRestrictions (conditions_of r) = None /\
  match effect r with
  | allow => allowedFiles (conditions_of r) = None /\
             allowedCommands (conditions_of r) = None
  | deny => deniedFiles (conditions_of r) = None /\
            deniedCommands (conditions_of r) = None
  end.

(** A rule that never lets the loop of an action check pass. *)
Definition blocks (host : string -> string -> option bool) (now : Date)
    (act : ActionView) (rule : PolicyRule) : Prop :=
  forall requires requires',
    rule_body host now act rule requires <> Some (inr requires').

End ActionVocabulary.

(** ** Further concrete policies and actions *)

(** [s] occurs in [t]. *)
Fixpoint occurs_in (s t : string) : bool :=
  JsString.startsWith s t ||
  match t with
  | EmptyString => false
  | String _ t' => occurs_in s t'
  end.

(** A host that searches a pattern as a literal: what [RegExp] does for
    a pattern without syntax characters. *)
Definition literal_host (pattern s : string) : option bool :=
  Some (occurs_in pattern s).

Definition run_command (cmd : string) : PolicyEngine.ActionView :=
  {| PolicyEngine.type := "RUN_COMMAND";
     PolicyEngine.targets := Some [];
     PolicyEngine.command := Some cmd |}.

(** Two overrides of the approval requirement for one action type, and
    a default that denies. *)
Definition two_overrides : PolicyEngine.PolicyConfig :=
  {| PolicyEngine.version := "1.0.0";
     PolicyEngine.defaultEffect := PolicyEngine.deny;
     PolicyEngine.defaultRequiresApproval := true;
     PolicyEngine.rules :=
       [ {| PolicyEngine.id := "ask"; PolicyEngine.appliesTo := PolicyEngine.action;
            PolicyEngine.target := PolicyEngine.One "SHOW_MESSAGE";
            PolicyEngine.effect := PolicyEngine.allow;
            PolicyEngine.conditions := Some {|
              PolicyEngine.allowedFiles := None; PolicyEngine.deniedFiles := None;
              PolicyEngine.allowedCommands := None;
              PolicyEngine.deniedCommands := None;
              PolicyEngine.requiresApproval := Some true;
              PolicyEngine.timeRestrictions := None |} |};
         {| PolicyEngine.id := "plain"; PolicyEngine.appliesTo := PolicyEngine.action;
            PolicyEngine.target := PolicyEngine.One "SHOW_MESSAGE";
            PolicyEngine.effect := PolicyEngine.allow;
            PolicyEngine.conditions := None |};
         {| PolicyEngine.id := "silent"; PolicyEngine.appliesTo := PolicyEngine.action;
            PolicyEngine.target := PolicyEngine.Many ["SHOW_MESSAGE"];
            PolicyEngine.effect := PolicyEngine.deny;
            PolicyEngine.conditions := Some {|
              PolicyEngine.allowedFiles := Some ["docs/**"];
              PolicyEngine.deniedFiles := None;
              PolicyEngine.allowedCommands := None;
              PolicyEngine.deniedCommands := None;
              PolicyEngine.requiresApproval := Some false;
              PolicyEngine.timeRestrictions := None |} |} ] |}.

Definition show_message : PolicyEngine.ActionView :=
  {| PolicyEngine.type := "SHOW_MESSAGE";
     PolicyEngine.targets := Some ["README.md"];
     PolicyEngine.command := None |}.

Definition commit_changes : PolicyEngine.ActionView :=
  {| PolicyEngine.type := "COMMIT_CHANGES";
     PolicyEngine.targets := None;
     PolicyEngine.command := None |}.

(** A rule that permits every modification. *)
Definition allow_modify : PolicyEngine.PolicyRule :=
  {| PolicyEngine.id := "allow-modify";
     PolicyEngine.appliesTo := PolicyEngine.action;
     PolicyEngine.target := PolicyEngine.One "MODIFY_FILE";
     PolicyEngine.effect := PolicyEngine.allow;
     PolicyEngine.conditions := None |}.

(* ===================================================================== *)
(** * Reading a glob pattern *)
(* ===================================================================== *)

Module Glob.

(** The pieces [matchGlob] distinguishes in a pattern. *)
Inductive piece : Type :=
| DoubleStar
| Star
| Question
| Char (c : ascii).

(** Left to right; two stars in a row are one [DoubleStar], so three
    stars are a [DoubleStar] and a [Star]. *)
Fixpoint parse (pattern : string) : list piece :=
  match pattern with
  | EmptyString => []
  | String c r =>
      if Ascii.eqb c "*" then
        match r with
        | String d r' =>
            if Ascii.eqb d "*" then DoubleStar :: parse r' else Star :: parse r
        | EmptyString => [Star]
        end
      else if Ascii.eqb c "?" then Question :: parse r
      else Char c :: parse r
  end.

(** The candidates a list of pieces accepts: [Char c] is [c] itself,
    [Question] one code unit that is no line terminator, [Star] any run
    without a slash, [DoubleStar] any run without a line terminator. *)
Fixpoint accepts (ps : list piece) (s : string) {struct ps} : bool :=
  match ps with
  | [] => match s with EmptyString => true | _ => false end
  | Char c :: r =>
      match s with
      | String d s' => Ascii.eqb c d && accepts r s'
      | EmptyString => false
      end
  | Question :: r =>
      match s with
      | String d s' => negb (RegExp.is_line_terminator d) && accepts r s'
      | EmptyString => false
      end
  | Star :: r =>
      (fix run (s : string) : bool :=
         accepts r s ||
         match s with
         | String d s' => negb (Ascii.eqb d "/") && run s'
         | EmptyString => false
         end) s
  | DoubleStar :: r =>
      (fix run (s : string) : bool :=
         accepts r s ||
         match s with
         | String d s' => negb (RegExp.is_line_terminator d) && run s'
         | EmptyString => false
         end) s
  end.

(** The code units a pattern may hold for the generated expression to
    stay in the fragment: the three wildcard characters, and whatever
    the expression reads as itself, the section sign apart. *)
Definition plain_char (c : ascii) : bool :=
  Ascii.eqb c "." || Ascii.eqb c "*" || Ascii.eqb c "?"
  || (negb (RegExp.is_meta c) && negb (Ascii.eqb c "167")).

Fixpoint plain (pattern : string) : bool :=
  match pattern with
  | EmptyString => true
  | String c r => plain_char c && plain r
  end.

(** A pattern without wildcards. *)
Definition literal_char (c : ascii) : bool :=
  plain_char c && negb (Ascii.eqb c "*") && negb (Ascii.eqb c "?").

Fixpoint literal (pattern : string) : bool :=
  match pattern with
  | EmptyString => true
  | String c r => literal_char c && literal r
  end.

(** What the pieces become in the generated expression. *)
Definition render (p : piece) : string :=
  match p with
  | DoubleStar => ".*"
  | Star => "[^/]*"
  | Question => "."
  | Char c => if Ascii.eqb c "." then "\." else String c EmptyString
  end.

Fixpoint source (ps : list piece) : string :=
  match ps with
  | [] => EmptyString
  | p :: r => render p +:+ source r
  end.

Definition item_of (p : piece) : RegExp.item :=
  match p with
  | DoubleStar => RegExp.Item RegExp.AnyChar true
  | Star => RegExp.Item RegExp.NotSlash true
  | Question => RegExp.Item RegExp.AnyChar false
  | Char c => RegExp.Item (RegExp.Lit c) false
  end.

Definition tokens_of (p : piece) : list RegExp.token :=
  match p with
  | DoubleStar => [RegExp.TAtom RegExp.AnyChar; RegExp.TStar]
  | Star => [RegExp.TAtom RegExp.NotSlash; RegExp.TStar]
  | Question => [RegExp.TAtom RegExp.AnyChar]
  | Char c => [RegExp.TAtom (RegExp.Lit c)]
  end.

Definition plain_piece (p : piece) : bool :=
  match p with
  | Char c => Ascii.eqb c "." || (negb (RegExp.is_meta c) && negb (Ascii.eqb c "167"))
  | _ => true
  end.

(** No line terminator, no slash. *)
Fixpoint one_line (s : string) : bool :=
  match s with
  | EmptyString => true
  | String c r => negb (RegExp.is_line_terminator c) && one_line r
  end.

End Glob.

(** The pieces of a pattern without wildcards: its code units. *)
Fixpoint letters (s : string) : list Glob.piece :=
  match s with
  | EmptyString => []
  | String c r => Glob.Char c :: letters r
  end.

(* ===================================================================== *)
(** * The vocabulary of the properties of a run *)
(* ===================================================================== *)

Section RunVocabulary.

Import PipelineEngine.

(** The step-level approval is asked for. *)
Definition step_approval_due (engine : t) (step : Step.t) : bool :=
  flag (Step.requiresApproval step) && negb (autoApprove (options engine)).

Definition step_request (step : Step.t) (input : Js.Value) : ApprovalRequest :=
  ForStep (Step.name step) (Step.agent step) input.

(** The call of the provider for a step. *)
Definition call_of (step : Step.t) (input agentContext : Js.Value)
    (timeoutMs : Z) : Event :=
  Called (shown (Step.agent step)) (shown (Step.method step))
         input agentContext timeoutMs.

(** The interactions one [executeStep] can have, after the history
    [tr]: none; a request for approval; a request that the callback
    grants and then the call; or the call alone, when no approval is
    due or there is nobody to ask. *)
Inductive step_events (engine : t) (host : Host) (step : Step.t)
    (previousResults : list StepResult.t) (context : Context.t) (tr : Trace)
  : Trace -> Prop :=
| no_interaction :
    step_events engine host step previousResults context tr []
| asked input agentContext callback :
    prepare engine host step previousResults context
    = Js.Ok (input, agentContext) ->
    step_approval_due engine step = true ->
    onApprovalRequired (options engine) = Some callback ->
    step_events engine host step previousResults context tr
      [ApprovalRequested (step_request step input)]
| asked_and_called input agentContext callback timeoutMs :
    prepare engine host step previousResults context
    = Js.Ok (input, agentContext) ->
    step_approval_due engine step = true ->
    onApprovalRequired (options engine) = Some callback ->
    callback tr (step_request step input) = Js.Ok true ->
    step_events engine host step previousResults context tr
      [ApprovalRequested (step_request step input);
       call_of step input agentContext timeoutMs]
| called_unasked input agentContext timeoutMs :
    prepare engine host step previousResults context
    = Js.Ok (input, agentContext) ->
    step_approval_due engine step = false \/
    onApprovalRequired (options engine) = None ->
    step_events engine host step previousResults context tr
      [call_of step input agentContext timeoutMs].

Definition is_call (e : Event) : bool :=
  match e with Called _ _ _ _ _ => true | _ => false end.

Definition is_request (e : Event) : bool :=
  match e with ApprovalRequested _ => true | _ => false end.

(** A call of the provider goes to an agent the policy permits. *)
Definition permitted_call (config : PolicyEngine.PolicyConfig) (e : Event) : Prop :=
  match e with
  | Called a _ _ _ _ =>
      PolicyEngine.allowed (PolicyEngine.checkStep config a) = true
  | _ => True
  end.

(** In [added], which follows the history [h], every call of the
    provider comes right after a request the callback has granted. *)
Definition guarded (callback : Trace -> ApprovalRequest -> Js.Outcome bool)
    (h added : Trace) : Prop :=
  forall before e after,
    added = before ++ e :: after -> is_call e = true ->
    exists earlier request,
      before = earlier ++ [ApprovalRequested request] /\
      callback (h ++ earlier) request = Js.Ok true.

(** The engine with [autoApprove] set. *)
Definition auto_approving (engine : t) : t :=
  {| client := client engine;
     pipelines := pipelines engine;
     policyEngine := policyEngine engine;
     options :=
       {| defaultTimeout := defaultTimeout (options engine);
          autoApprove := true;
          onStepComplete := onStepComplete (options engine);
          onApprovalRequired := onApprovalRequired (options engine) |} |}.

(** The actions a result carries. *)
Definition actions_of (r : StepResult.t) : list Action.t :=
  default [] (StepResult.actions r).

Definition action_types : list string :=
  ["CREATE_FILE"; "APPLY_DIFF"; "RUN_COMMAND"].

(** The agents whose answers are searched for actions. *)
Definition acting_agents : list string :=
  ["codeGenerator"; "diffImprover"; "terminalAgent"; "githubAgent"].

End RunVocabulary.

(** A code generator that answers with a Python file, and a pipeline
    that asks it once, with approval. *)
Definition generated : PipelineEngine.Callable :=
  fun _ _ _ _ =>
    PipelineEngine.Settled
      (Js.Ok {| PipelineEngine.success := true;
                PipelineEngine.data :=
                  Js.object [("code", Js.str "print(1)");
                             ("language", Js.str "Python")];
                PipelineEngine.signature := Js.undefined |}).

Definition coder_agents (a : string)
    : option (string -> option PipelineEngine.Callable) :=
  if String.eqb a "codeGenerator" then
    Some (fun m => if String.eqb m "generate" then Some generated else None)
  else None.

Definition write_step : Step.t :=
  {| Step.id := Some "write"; Step.name := Some "Write the code";
     Step.agent := Some "codeGenerator"; Step.method := Some "generate";
     Step.inputFrom := Some "user"; Step.query := None;
     Step.contextBuilder := None; Step.resultTransform := None;
     Step.requiresApproval := Some true; Step.timeout := None;
     Step.continueOnError := None |}.

Definition coding : Pipeline.t := pipeline_of "coding" [write_step] None.

Definition granting_options : PipelineEngine.Options :=
  {| PipelineEngine.defaultTimeout := 60000;
     PipelineEngine.autoApprove := false;
     PipelineEngine.onStepComplete := Some (fun _ _ _ _ => Js.Ok ());
     PipelineEngine.onApprovalRequired := Some (fun _ _ => Js.Ok true) |}.

Definition coder_engine (policy : option PolicyEngine.PolicyConfig)
    (opts : PipelineEngine.Options) : PipelineEngine.t :=
  {| PipelineEngine.client := coder_agents;
     PipelineEngine.pipelines := {[ "coding" := coding ]};
     PipelineEngine.policyEngine := policy;
     PipelineEngine.options := opts |}.

Definition coding_run (policy : option PolicyEngine.PolicyConfig)
    (opts : PipelineEngine.Options)
    : Js.Outcome PipelineResult.t * PipelineEngine.Trace :=
  PipelineEngine.runPipeline (coder_engine policy opts) counting_host
    "coding" [("userPrompt", Js.str "print one")] [].

(** What holds of every action a step yields: it requires approval, it
    is of one of three types, and the agent of the step is one of those
    whose answers are searched. *)
Definition sound_action (step : Step.t) (a : Action.t) : Prop :=
  Action.requiresApproval a = true /\
  In (Action.type a) action_types /\
  In (shown (Step.agent step)) acting_agents.

Definition approved_type (a : Action.t) : Prop :=
  Action.requiresApproval a = true /\ In (Action.type a) action_types.

Definition coding_report : PipelineResult.t :=
  match fst (coding_run None granting_options) with
  | Js.Ok result => result
  | Js.Throw _ => PipelineEngine.report counting_host coding [] fresh []
  end.

(** A key is bound in an object literal. *)
Definition has_field (k : string) (fields : list (string * Js.Value)) : bool :=
  existsb (fun kv => String.eqb (fst kv) k) fields.

(** A result that [executeStep] returned for [step], with what it
    carries. *)
Definition result_of (steps : list Step.t) (r : StepResult.t) : Prop :=
  exists step,
    In step steps /\ StepResult.stepId r = Step.id step /\
    Forall (sound_action step) (actions_of r).

(** The invariants of the loop of a run: the collected actions are those
    of the results so far, each returned for a step of the pipeline. *)
Definition actions_inv (steps : list Step.t) (st : PipelineEngine.Loop) : Prop :=
  PipelineEngine.actions st
  = flat_map actions_of (PipelineEngine.stepResults st) /\
  Forall (result_of steps) (PipelineEngine.stepResults st).

(** The fields of the context do not change, and every stored output is
    the data of a result that was returned. *)
Definition context_inv (fields : list (string * Js.Value))
    (st : PipelineEngine.Loop) : Prop :=
  Context.fields (PipelineEngine.executionContext st) = fields /\
  forall k v,
    Context.stepResults (PipelineEngine.executionContext st) !! k = Some v ->
    exists r, In r (PipelineEngine.stepResults st) /\
              shown (StepResult.stepId r) = k /\
              StepResult.data r = v /\ StepResult.error r = None.

(** Two engines that differ in their registries at most. *)
Definition same_setup (e1 e2 : PipelineEngine.t) : Prop :=
  PipelineEngine.client e1 = PipelineEngine.client e2 /\
  PipelineEngine.policyEngine e1 = PipelineEngine.policyEngine e2 /\
  PipelineEngine.options e1 = PipelineEngine.options e2.

(** A forgiven step asked of the agent that raises, then a step that
    takes its input from the step before it. *)
Definition relay_step : Step.t :=
  {| Step.id := Some "relay"; Step.name := Some "relay";
     Step.agent := Some "base"; Step.method := Some "query";
     Step.inputFrom := Some "previousStep"; Step.query := None;
     Step.contextBuilder := None; Step.resultTransform := None;
     Step.requiresApproval := None; Step.timeout := None;
     Step.continueOnError := None |}.

Definition relay : Pipeline.t :=
  pipeline_of "relay" [plain_step "first" "faulty" (Some true); relay_step] None.

Definition relay_engine : PipelineEngine.t :=
  engine_with [relay] None default_options.

(** The loop variables after the first step of [relay]. *)
Definition after_fault : PipelineEngine.Loop :=
  fst (fst (PipelineEngine.iteration relay_engine counting_host 2 0
              (plain_step "first" "faulty" (Some true)) fresh [])).

(** A definition whose second step names no agent. *)
Definition half_done : Pipeline.t :=
  pipeline_of "half-done"
    [plain_step "one" "base" None;
     {| Step.id := Some "two"; Step.name := None; Step.agent := None;
        Step.method := Some "query"; Step.inputFrom := Some "user";
        Step.query := None; Step.contextBuilder := None;
        Step.resultTransform := None; Step.requiresApproval := None;
        Step.timeout := None; Step.continueOnError := None |};
     plain_step "three" "base" None] None.

(** The paths the denied patterns of the default policy are written
    for, below a directory [dir]: each constructor is one pattern. *)
Inductive secret_path : string -> Prop :=
| env_file dir :
    Glob.one_line dir = true ->
    secret_path (dir +:+ "/.env")
| env_variant dir name :
    Glob.one_line dir = true -> JsString.includes "/" name = false ->
    secret_path (dir +:+ "/.env." +:+ name)
| in_secrets dir rest :
    Glob.one_line dir = true -> Glob.one_line rest = true ->
    secret_path (dir +:+ "/secrets/" +:+ rest)
| in_credentials dir rest :
    Glob.one_line dir = true -> Glob.one_line rest = true ->
    secret_path (dir +:+ "/credentials/" +:+ rest)
| key_file dir name :
    Glob.one_line dir = true -> JsString.includes "/" name = false ->
    secret_path (dir +:+ "/" +:+ name +:+ ".key")
| pem_file dir name :
    Glob.one_line dir = true -> JsString.includes "/" name = false ->
    secret_path (dir +:+ "/" +:+ name +:+ ".pem")
| rsa_key dir name :
    Glob.one_line dir = true -> JsString.includes "/" name = false ->
    secret_path (dir +:+ "/id_rsa" +:+ name).

Definition file_action_types : list string :=
  ["MODIFY_FILE"; "DELETE_FILE"; "CREATE_FILE"].

(** The denied patterns of the default policy. *)
Definition default_denied_files : list string :=
  ["**/.env"; "**/.env.*"; "**/secrets/**"; "**/credentials/**";
   "**/*.key"; "**/*.pem"; "**/id_rsa*"].

(** The deadline of a step: its own [timeout] unless it is absent or
    zero, then the engine's default. *)
Definition deadline (engine : PipelineEngine.t) (step : Step.t) : Z :=
  match Step.timeout step with
  | Some 0 | None => PipelineEngine.defaultTimeout (PipelineEngine.options engine)
  | Some ms => ms
  end.


(** A whitelist of expressions for commands. *)
Definition only_git : PolicyEngine.PolicyConfig :=
  {| PolicyEngine.version := "1.0.0";
     PolicyEngine.defaultEffect := PolicyEngine.allow;
     PolicyEngine.defaultRequiresApproval := false;
     PolicyEngine.rules :=
       [ {| PolicyEngine.id := "only-git";
            PolicyEngine.appliesTo := PolicyEngine.action;
            PolicyEngine.target := PolicyEngine.One "RUN_COMMAND";
            PolicyEngine.effect := PolicyEngine.allow;
            PolicyEngine.conditions := Some {|
              PolicyEngine.allowedFiles := None;
              PolicyEngine.deniedFiles := None;
              PolicyEngine.allowedCommands := Some ["git status"; "git diff"];
              PolicyEngine.deniedCommands := None;
              PolicyEngine.requiresApproval := None;
              PolicyEngine.timeRestrictions := None |} |} ] |}.

(* ===================================================================== *)
(** * The failures of a run *)
(* ===================================================================== *)

Section FailureVocabulary.

Import PipelineEngine.




(** A turn fails when its step raises or returns [success = false], or
    when the observer raises on the result of the step. *)
Definition turn_failed (engine : t) (host : Host) (total i : Z)
    (step : Step.t) (st : Loop) (tr : Trace) : bool :=
  match executeStep engine host step (stepResults st) (executionContext st) tr with
  | (Js.Throw _, _) => true
  | (Js.Ok r, tr1) =>
      negb (StepResult.success r) ||
      match notify engine r (i + 1) total tr1 with
      | (Js.Throw _, _) => true
      | (Js.Ok _, _) => false
      end
  end.

(** The turns the loop takes, each with its step and whether it
    failed. *)
Fixpoint turns (engine : t) (host : Host) (total i : Z)
    (steps : list Step.t) (st : Loop) (tr : Trace) : list (Step.t * bool) :=
  match steps with
  | [] => []
  | step :: rest =>
      (step, turn_failed engine host total i step st tr) ::
      match iteration engine host total i step st tr with
      | (st', go_on, tr') => turns engine host total (i + 1) rest st' tr'
      | (_, stop, _) => []
      end
  end.

(** A failed turn of a step without [continueOnError]. *)
Definition unforgiven (turn : Step.t * bool) : bool :=
  snd turn && negb (flag (Step.continueOnError (fst turn))).

End FailureVocabulary.



(** The policy with another default effect. *)
Definition with_defaultEffect (config : PolicyEngine.PolicyConfig)
    (e : PolicyEngine.Effect) : PolicyEngine.PolicyConfig :=
  {| PolicyEngine.version := PolicyEngine.version config;
     PolicyEngine.defaultEffect := e;
     PolicyEngine.defaultRequiresApproval :=
       PolicyEngine.defaultRequiresApproval config;
     PolicyEngine.rules := PolicyEngine.rules config |}.

(** The history after the approval of a step, when it is due, and what
    the callback answered. *)
Definition step_approval (engine : PipelineEngine.t) (step : Step.t)
    (input : Js.Value) (tr : PipelineEngine.Trace)
    : Js.Outcome bool * PipelineEngine.Trace :=
  if step_approval_due engine step
  then PipelineEngine.requestApproval engine (step_request step input) tr
  else (Js.Ok true, tr).

(** The provider calls of a history, in order. *)
Definition calls_of (tr : PipelineEngine.Trace) : PipelineEngine.Trace :=
  List.filter is_call tr.




(* ===================================================================== *)
(** * Properties of the glob matcher *)
(* ===================================================================== *)

Section GlobFacts.

Import PolicyEngine.

(** A leading [**/] is rewritten on its own: the rest of the pattern is
    translated as it would be alone. *)
Lemma regexPattern_doublestar_slash (pattern : string) :
  regexPattern ("**/" +:+ pattern) = ".*/" +:+ regexPattern pattern.
Proof. reflexivity. Qed.

Lemma replaceAll_cons (needle rep : string) (c : ascii) (s : string) :
  JsString.replaceAll needle rep (String c s) =
  if JsString.startsWith needle (String c s)
  then rep +:+ JsString.replaceAll_from needle rep
                 (Nat.pred (String.length needle)) s
  else String c (JsString.replaceAll needle rep s).
Proof. reflexivity. Qed.

(** A pass whose replacement does not begin with a star leaves a star
    in front only where it found one that is not its needle's. *)
Lemma pass_head (needle rep s r : string) (d : ascii) (rep' : string) :
  rep = String d rep' -> d <> "*"%char ->
  JsString.replaceAll needle rep s = String "*" r ->
  exists r', s = String "*" r' /\
             JsString.startsWith needle (String "*" r') = false.
Proof.
  intros -> Hd. destruct s as [|c s']; [discriminate|].
  rewrite replaceAll_cons.
  destruct (JsString.startsWith needle (String c s')) eqn:E.
  - cbn. intros [= Hc _]. contradiction.
  - intros [= -> _]. eauto.
Qed.

(** No generated source begins with a star. *)
Lemma regexPattern_head (pattern r : string) :
  regexPattern pattern <> String "*" r.
Proof.
  unfold regexPattern. intros H.
  eapply pass_head in H as (r1 & H & _); [|reflexivity|discriminate].
  eapply pass_head in H as (r2 & H & _); [|reflexivity|discriminate].
  eapply pass_head in H as (r3 & _ & H); [|reflexivity|discriminate].
  discriminate H.
Qed.

(** Only a star is lexed as the star token. *)
Lemma lex_head_star (s : string) (ts : list RegExp.token) :
  RegExp.lex s = Some (RegExp.TStar :: ts) -> exists r, s = String "*" r.
Proof.
  destruct s as [|c r]; [discriminate|]. cbn [RegExp.lex].
  destruct (Ascii.eqb c "\").
  { destruct r as [|d r']; [discriminate|].
    destruct (RegExp.is_syntax d); [|discriminate].
    destruct (RegExp.lex r'); discriminate. }
  destruct (Ascii.eqb c "[").
  { destruct r as [|d1 [|d2 [|d3 r']]]; try discriminate.
    destruct (_ && _); [|discriminate].
    destruct (RegExp.lex r'); discriminate. }
  destruct (Ascii.eqb c "."); [destruct (RegExp.lex r); discriminate|].
  destruct (Ascii.eqb c "*") eqn:E.
  { apply Ascii.eqb_eq in E as ->. eauto. }
  destruct (Ascii.eqb c "^"); [destruct (RegExp.lex r); discriminate|].
  destruct (Ascii.eqb c "$"); [destruct (RegExp.lex r); discriminate|].
  destruct (RegExp.is_meta c); [discriminate|].
  destruct (RegExp.lex r); discriminate.
Qed.

(** The two equations of the matcher. *)
Lemma matches_star (a : RegExp.atom) (r : list RegExp.item) (s : string) :
  RegExp.matches (RegExp.Item a true :: r) s =
  RegExp.matches r s ||
  match s with
  | String c s' =>
      RegExp.atom_matches a c && RegExp.matches (RegExp.Item a true :: r) s'
  | EmptyString => false
  end.
Proof. destruct s; reflexivity. Qed.

Lemma matches_once (a : RegExp.atom) (r : list RegExp.item) (s : string) :
  RegExp.matches (RegExp.Item a false :: r) s =
  match s with
  | String c s' => RegExp.atom_matches a c && RegExp.matches r s'
  | EmptyString => false
  end.
Proof. reflexivity. Qed.

(** A candidate without a slash is not matched by anything that asks
    for [.*] and then a slash. *)
Lemma matches_needs_slash (rest : list RegExp.item) (s : string) :
  JsString.includes "/" s = false ->
  RegExp.matches
    (RegExp.Item RegExp.AnyChar true
       :: RegExp.Item (RegExp.Lit "/") false :: rest) s = false.
Proof.
  induction s as [|c s' IH]; intros Hs.
  - reflexivity.
  - cbn in Hs. apply orb_false_iff in Hs as [Hc Hs'].
    rewrite matches_star, matches_once, (IH Hs').
    cbn [RegExp.atom_matches]. rewrite Ascii.eqb_sym, Hc.
    cbn. apply andb_false_r.
Qed.

Lemma lex_doublestar_slash (r : string) :
  RegExp.lex ("^" +:+ (".*/" +:+ r) +:+ "$") =
  (fun ts => RegExp.TCaret :: RegExp.TAtom RegExp.AnyChar :: RegExp.TStar
             :: RegExp.TAtom (RegExp.Lit "/") :: ts)
    <$> RegExp.lex (r +:+ "$").
Proof.
  change ("^" +:+ (".*/" +:+ r) +:+ "$")
    with (String "^" (String "." (String "*" (String "/" (r +:+ "$"))))).
  cbn [RegExp.lex]. cbn [Ascii.eqb Bool.eqb RegExp.is_meta JsString.includes orb].
  destruct (RegExp.lex (r +:+ "$")); reflexivity.
Qed.

(** The compiled form of a source that begins with [.*/]. *)
Lemma compile_doublestar_slash (r : string) (its : list RegExp.item) :
  (forall r', r <> String "*" r') ->
  RegExp.compile ("^" +:+ (".*/" +:+ r) +:+ "$") = Some its ->
  exists rest,
    its = RegExp.Item RegExp.AnyChar true
            :: RegExp.Item (RegExp.Lit "/") false :: rest.
Proof.
  intros Hr. unfold RegExp.compile. rewrite lex_doublestar_slash.
  destruct (RegExp.lex (r +:+ "$")) as [ts|] eqn:L; [|done].
  cbn [fmap option_fmap option_map].
  cbn [rev]. destruct (rev ts) as [|t body0] eqn:R; [by cbn|].
  cbn [app]. destruct t; try by cbn.
  rewrite !rev_app_distr. cbn [rev app].
  assert (Hts : ts = rev body0 ++ [RegExp.TDollar]).
  { rewrite <- (rev_involutive ts), R. reflexivity. }
  destruct (rev body0) as [|t0 body1] eqn:R0.
  - cbn. intros [= <-]. eauto.
  - destruct t0.
    + cbn.
      match goal with
      | |- (_ <$> (_ <$> ?m)) = _ -> _ => destruct m; [|done]
      end.
      cbn. intros [= <-]. eauto.
    + exfalso. subst ts. cbn [app] in L.
      apply lex_head_star in L as [r' L].
      destruct r as [|c r0]; [discriminate L|].
      injection L as -> _. eapply Hr. reflexivity.
    + by cbn.
    + by cbn.
Qed.

End GlobFacts.

(** The expectations of the repository's own test of the matcher. *)
Example repository_glob_tests :
  PolicyEngine.matchGlob "project/.env" "**/.env" = Some true /\
  PolicyEngine.matchGlob "src/.env" "**/.env" = Some true /\
  PolicyEngine.matchGlob "config/secrets/key.pem" "**/*.pem" = Some true /\
  PolicyEngine.matchGlob "src/file.js" "**/*.pem" = Some false /\
  PolicyEngine.matchGlob "project/secrets/api.key" "**/secrets/**" = Some true /\
  PolicyEngine.matchGlob "src/app.js" "**/secrets/**" = Some false.
Proof. repeat split; vm_compute; reflexivity. Qed.

(** A candidate that stops at the first line feed is not matched by [**]
    nor by [?], while a single star takes it. *)
Example glob_line_terminator :
  PolicyEngine.matchGlob (String "010" "") "**" = Some false /\
  PolicyEngine.matchGlob (String "010" "") "?" = Some false /\
  PolicyEngine.matchGlob (String "010" "") "*" = Some true.
Proof. repeat split; reflexivity. Qed.

Example glob_outside_fragment :
  PolicyEngine.matchGlob "a/b/c.pem" "**/(*.p?m" = None.
Proof. reflexivity. Qed.

(** C8. The four test vectors of the glob matcher: [project/.env] matches
    [**/.env], [src/file.js] does not match [**/*.pem],
    [project/secrets/api.key] matches [**/secrets/**] and [src/app.js]
    does not. *)
Theorem matchGlob_test_vectors :
  PolicyEngine.matchGlob "project/.env" "**/.env" = Some true /\
  PolicyEngine.matchGlob "src/file.js" "**/*.pem" = Some false /\
  PolicyEngine.matchGlob "project/secrets/api.key" "**/secrets/**" = Some true /\
  PolicyEngine.matchGlob "src/app.js" "**/secrets/**" = Some false.
Proof. repeat split; vm_compute; reflexivity. Qed.

(** C3. What the code does where the claim expects a match: a pattern
    that begins with [**/] matches no candidate without a slash, whatever
    follows, because the slash after [**] stays a literal of the generated
    expression; so [.env] is not matched by [**/.env]. *)
Theorem matchGlob_leading_doublestar_requires_slash (s pattern : string) :
  JsString.includes "/" s = false ->
  PolicyEngine.matchGlob s ("**/" +:+ pattern) <> Some true.
Proof.
  intros Hs. unfold PolicyEngine.matchGlob, RegExp.test.
  rewrite regexPattern_doublestar_slash.
  destruct (RegExp.compile _) as [its|] eqn:C; [|discriminate].
  apply compile_doublestar_slash in C as [rest ->];
    [|apply regexPattern_head].
  cbn [mbind option_bind]. rewrite matches_needs_slash by assumption.
  discriminate.
Qed.

Lemma matchGlob_leading_doublestar_requires_slash_witness :
  JsString.includes "/" ".env" = false /\
  PolicyEngine.matchGlob ".env" ("**/" +:+ ".env") <> Some true.
Proof.
  split; [reflexivity|].
  apply (matchGlob_leading_doublestar_requires_slash ".env" ".env").
  reflexivity.
Defined.

Example matchGlob_root_env :
  PolicyEngine.matchGlob ".env" "**/.env" = Some false /\
  PolicyEngine.matchGlob "secrets/api.key" "**/secrets/**" = Some false /\
  PolicyEngine.matchGlob "src/app.js" "src/**/*.js" = Some false.
Proof. repeat split; reflexivity. Qed.

(** The expectations of the repository's own tests of the action check
    that involve files: a modification of [secrets/api.key] is denied (by
    the pattern for keys), the creation of [src/newfile.js] is allowed. *)
Example repository_action_tests :
  PolicyEngine.checkAction no_regexp PolicyEngine.getDefaultPolicy monday_3am
    (modify "secrets/api.key")
  = Some (PolicyEngine.denied
            "File secrets/api.key matches denied pattern **/*.key (rule: deny-secrets)") /\
  PolicyEngine.checkAction no_regexp PolicyEngine.getDefaultPolicy monday_3am
    (create ["src/newfile.js"])
  = Some {| PolicyEngine.allowed := true; PolicyEngine.reason := None;
            PolicyEngine.approval := Some true |}.
Proof. split; vm_compute; reflexivity. Qed.

(** Under the default policy the secrets in a subdirectory are denied
    and the same files at the root of the project are not. *)
Example default_policy_at_the_root :
  PolicyEngine.checkAction no_regexp PolicyEngine.getDefaultPolicy monday_3am
    (modify "config/.env")
  = Some (PolicyEngine.denied
            "File config/.env matches denied pattern **/.env (rule: deny-secrets)") /\
  PolicyEngine.checkAction no_regexp PolicyEngine.getDefaultPolicy monday_3am
    (modify ".env")
  = Some {| PolicyEngine.allowed := true; PolicyEngine.reason := None;
            PolicyEngine.approval := Some true |} /\
  PolicyEngine.checkAction no_regexp PolicyEngine.getDefaultPolicy monday_3am
    (modify "secrets/token.json")
  = Some {| PolicyEngine.allowed := true; PolicyEngine.reason := None;
            PolicyEngine.approval := Some true |}.
Proof. repeat split; vm_compute; reflexivity. Qed.

(* ===================================================================== *)
(** * Properties of the policy checks *)
(* ===================================================================== *)

Section PolicyFacts.

Import PolicyEngine.

Variable host : string -> string -> option bool.

(** The whitelist looks at the first target only: once a target has
    matched, [fileAllowed] stays set for the targets after it. *)
Lemma scan_allowed_after_match (rule : PolicyRule) (patterns tgts : list string) :
  Forall (fun t => is_Some (first_glob t patterns)) tgts ->
  scan_allowed rule patterns true tgts = Some None.
Proof.
  induction 1 as [|t ts [hit Ht] _ IH]; [reflexivity|].
  cbn [scan_allowed]. rewrite Ht. cbn [mbind option_bind].
  destruct hit; cbn [negb andb]; exact IH.
Qed.

Lemma scan_allowed_first_target (rule : PolicyRule) (patterns : list string)
    (t p : string) (ts : list string) :
  first_glob t patterns = Some (Some p) ->
  Forall (fun t => is_Some (first_glob t patterns)) ts ->
  scan_allowed rule patterns false (t :: ts) = Some None.
Proof.
  intros Ht Hts. cbn [scan_allowed]. rewrite Ht. cbn [mbind option_bind negb andb].
  apply scan_allowed_after_match, Hts.
Qed.

Lemma find_first_applicable (sc : Scope) (name : string)
    (rs : list PolicyRule) (r : PolicyRule) :
  List.find (applies sc name) rs = Some r <-> first_applicable sc name rs r.
Proof.
  split.
  - induction rs as [|r0 rs IH]; [discriminate|].
    cbn [List.find]. destruct (applies sc name r0) eqn:E.
    + intros [= ->]. exists [], rs. repeat split; [constructor|assumption].
    + intros H. destruct (IH H) as (before & after & -> & Hb & Hr).
      exists (r0 :: before), after. repeat split; [constructor|]; assumption.
  - intros (before & after & -> & Hb & Hr).
    induction Hb as [|r0 before H0 _ IH]; cbn [app List.find].
    + rewrite Hr. reflexivity.
    + rewrite H0. exact IH.
Qed.

Lemma find_none_applicable (sc : Scope) (name : string) (rs : list PolicyRule) :
  List.find (applies sc name) rs = None <->
  Forall (fun r => applies sc name r = false) rs.
Proof.
  induction rs as [|r0 rs IH]; cbn [List.find].
  - split; [constructor|reflexivity].
  - destruct (applies sc name r0) eqn:E.
    + split; [discriminate|]. intros H. inversion H; congruence.
    + rewrite IH. split; [by constructor|]. intros H. by inversion H.
Qed.

Lemma rule_body_without_clock (now1 now2 : Date) (act : ActionView)
    (rule : PolicyRule) (requires : bool) :
  time_restricted rule = false ->
  rule_body host now1 act rule requires = rule_body host now2 act rule requires.
Proof.
  unfold time_restricted, rule_body. intros H.
  destruct (timeRestrictions (default noConditions (conditions rule))) eqn:E.
  - exfalso. rewrite bool_decide_eq_false in H. apply H. eauto.
  - reflexivity.
Qed.

Lemma over_rules_without_clock (now1 now2 : Date) (act : ActionView)
    (matching : list PolicyRule) (requires : bool) :
  Forall (fun r => time_restricted r = false) matching ->
  over_rules host now1 act matching requires
  = over_rules host now2 act matching requires.
Proof.
  intros H. revert requires.
  induction H as [|rule rest Hr _ IH]; intros requires; [reflexivity|].
  cbn [over_rules]. rewrite (rule_body_without_clock now1 now2) by exact Hr.
  destruct (rule_body host now2 act rule requires) as [[v|requires']|];
    cbn [mbind option_bind]; [reflexivity|apply IH|reflexivity].
Qed.

End PolicyFacts.

(** C1. The failing input: under a whitelist rule for [src/**], an action
    whose first target is inside the whitelist and whose second target is
    outside it is allowed, while the same targets in the other order are
    denied with the rule cited. *)
Theorem checkAction_whitelist_skips_later_targets
    (host : string -> string -> option bool) :
  PolicyEngine.matchGlob "etc/passwd" "src/**" = Some false /\
  PolicyEngine.checkAction host only_src monday_3am
    (create ["src/a.js"; "etc/passwd"])
  = Some {| PolicyEngine.allowed := true; PolicyEngine.reason := None;
            PolicyEngine.approval := Some true |} /\
  PolicyEngine.checkAction host only_src monday_3am
    (create ["etc/passwd"; "src/a.js"])
  = Some (PolicyEngine.denied
            "File etc/passwd not in allowed patterns (rule: allow-only-src)").
Proof. repeat split; vm_compute; reflexivity. Qed.

(** C2, as the claim states it, fails: with a permission registered before
    a prohibition for the same pipeline (and for the same agent), a
    matching rule whose effect is [deny] exists and yet both checks
    allow. *)
Lemma allow_rule_shadows_later_deny :
  List.find (fun r => PolicyEngine.applies PolicyEngine.pipeline "deploy" r
                      && PolicyEngine.is_deny (PolicyEngine.effect r))
            (PolicyEngine.rules allow_then_deny)
  = Some deny_deploy /\
  PolicyEngine.checkPipeline allow_then_deny "deploy"
  = PolicyEngine.allowed_verdict /\
  List.find (fun r => PolicyEngine.applies PolicyEngine.agent "terminalAgent" r
                      && PolicyEngine.is_deny (PolicyEngine.effect r))
            (PolicyEngine.rules allow_then_deny)
  = Some deny_terminal /\
  PolicyEngine.checkStep allow_then_deny "terminalAgent"
  = PolicyEngine.allowed_verdict.
Proof. repeat split; vm_compute; reflexivity. Qed.

(** C2, amended.  Pipeline and agent checks consult one rule only, the
    first in registration order whose scope and target match the subject:
    the check denies, citing that rule's id, exactly when that rule's effect
    is [deny]; it allows when that rule's effect is [allow], whatever comes
    later, and when no rule matches. *)
Theorem first_matching_rule_decides
    (config : PolicyEngine.PolicyConfig) (name : string) :
  (forall r,
      first_applicable PolicyEngine.pipeline name (PolicyEngine.rules config) r ->
      PolicyEngine.checkPipeline config name = verdict_of "Pipeline" name r) /\
  (Forall (fun r => PolicyEngine.applies PolicyEngine.pipeline name r = false)
          (PolicyEngine.rules config) ->
   PolicyEngine.checkPipeline config name = PolicyEngine.allowed_verdict) /\
  (forall r,
      first_applicable PolicyEngine.agent name (PolicyEngine.rules config) r ->
      PolicyEngine.checkStep config name = verdict_of "Agent" name r) /\
  (Forall (fun r => PolicyEngine.applies PolicyEngine.agent name r = false)
          (PolicyEngine.rules config) ->
   PolicyEngine.checkStep config name = PolicyEngine.allowed_verdict).
Proof.
  unfold PolicyEngine.checkPipeline, PolicyEngine.checkStep, verdict_of.
  repeat split.
  - intros r Hr. apply find_first_applicable in Hr. rewrite Hr.
    destruct (PolicyEngine.effect r); reflexivity.
  - intros H. apply find_none_applicable in H. rewrite H. reflexivity.
  - intros r Hr. apply find_first_applicable in Hr. rewrite Hr.
    destruct (PolicyEngine.effect r); reflexivity.
  - intros H. apply find_none_applicable in H. rewrite H. reflexivity.
Qed.

(** The amended C2 at the permission that shadows the prohibition, at a
    pipeline only the prohibition names, and at a pipeline no rule names. *)
Lemma first_matching_rule_decides_witness :
  first_applicable PolicyEngine.pipeline "deploy"
    (PolicyEngine.rules allow_then_deny) allow_deploy /\
  PolicyEngine.checkPipeline allow_then_deny "deploy" = PolicyEngine.allowed_verdict /\
  first_applicable PolicyEngine.pipeline "release"
    (PolicyEngine.rules allow_then_deny) deny_deploy /\
  PolicyEngine.checkPipeline allow_then_deny "release"
  = PolicyEngine.denied "Pipeline release is denied by policy rule: deny-deploy" /\
  PolicyEngine.checkPipeline allow_then_deny "audit" = PolicyEngine.allowed_verdict.
Proof.
  assert (Hd : first_applicable PolicyEngine.pipeline "deploy"
                 (PolicyEngine.rules allow_then_deny) allow_deploy).
  { exists [], [deny_deploy; allow_terminal; deny_terminal].
    repeat split. constructor. }
  assert (Hr : first_applicable PolicyEngine.pipeline "release"
                 (PolicyEngine.rules allow_then_deny) deny_deploy).
  { exists [allow_deploy], [allow_terminal; deny_terminal].
    repeat split. repeat constructor. }
  split; [exact Hd|]. split.
  { exact (proj1 (first_matching_rule_decides allow_then_deny "deploy")
             allow_deploy Hd). }
  split; [exact Hr|]. split.
  { exact (proj1 (first_matching_rule_decides allow_then_deny "release")
             deny_deploy Hr). }
  apply (proj1 (proj2 (first_matching_rule_decides allow_then_deny "audit"))).
  repeat constructor.
Defined.

(** C9, as the claim states it, fails: the same rule set and the same
    action, evaluated at 10:00 and at 20:00 of a Tuesday and at 10:00 of a
    Sunday, give three different outcomes. *)
Lemma same_check_differs_with_clock :
  PolicyEngine.checkAction no_regexp office_hours tuesday_10h delete_tmp
  = Some {| PolicyEngine.allowed := true; PolicyEngine.reason := None;
            PolicyEngine.approval := Some false |} /\
  PolicyEngine.checkAction no_regexp office_hours tuesday_20h delete_tmp
  = Some (PolicyEngine.denied
            "Action not allowed at this time (allowed: 9:00-17:00)") /\
  PolicyEngine.checkAction no_regexp office_hours sunday_10h delete_tmp
  = Some (PolicyEngine.denied "Action not allowed on this day of week").
Proof. repeat split; vm_compute; reflexivity. Qed.

(** C9, amended.  The outcome of an action check is a function of the rule
    set, the action and the reading of the clock; the context is never
    consulted, and the clock only by matching rules that carry a time
    restriction.  Two evaluations with the same rule set and action agree
    when they read the same hour and day, and also, whatever they read,
    when no matching rule is time-restricted.  (Pipeline and agent checks
    are functions of the rule set and the subject's name alone.) *)
Theorem checkAction_same_clock_same_verdict
    (host : string -> string -> option bool)
    (config : PolicyEngine.PolicyConfig) (act : PolicyEngine.ActionView)
    (now1 now2 : PolicyEngine.Date) :
  (PolicyEngine.getHours now1 = PolicyEngine.getHours now2 /\
   PolicyEngine.getDay now1 = PolicyEngine.getDay now2) \/
  Forall (fun r => time_restricted r = false)
         (List.filter (PolicyEngine.applies PolicyEngine.action
                         (PolicyEngine.type act))
                      (PolicyEngine.rules config)) ->
  PolicyEngine.checkAction host config now1 act
  = PolicyEngine.checkAction host config now2 act.
Proof.
  intros [[Hh Hd]|H].
  - destruct now1, now2; cbn in Hh, Hd; subst; reflexivity.
  - unfold PolicyEngine.checkAction. apply over_rules_without_clock, H.
Qed.

Lemma checkAction_same_clock_same_verdict_witness :
  Forall (fun r => time_restricted r = false)
         (List.filter (PolicyEngine.applies PolicyEngine.action
                         (PolicyEngine.type (create ["src/a.js"])))
                      (PolicyEngine.rules only_src)) /\
  PolicyEngine.checkAction no_regexp only_src tuesday_10h (create ["src/a.js"])
  = PolicyEngine.checkAction no_regexp only_src sunday_10h (create ["src/a.js"]).
Proof.
  assert (H : Forall (fun r => time_restricted r = false)
         (List.filter (PolicyEngine.applies PolicyEngine.action
                         (PolicyEngine.type (create ["src/a.js"])))
                      (PolicyEngine.rules only_src))).
  { repeat constructor. }
  split; [exact H|].
  apply (checkAction_same_clock_same_verdict no_regexp only_src
           (create ["src/a.js"]) tuesday_10h sunday_10h).
  right. exact H.
Defined.

(* ===================================================================== *)
(** * Properties of registration *)
(* ===================================================================== *)

Section Registration.

Import PipelineEngine.

Lemma validateStep_ok (index : nat) (s : Step.t) :
  validateStep index s = Js.Ok () <-> step_complete s.
Proof.
  unfold validateStep, step_complete.
  destruct (some_string (Step.id s)), (some_string (Step.agent s)),
    (some_string (Step.method s)), (some_string (Step.inputFrom s));
    cbn; split; try discriminate; try tauto; intros (? & ? & ? & ?);
    discriminate.
Qed.

Lemma validateSteps_ok (index : nat) (steps : list Step.t) :
  validateSteps index steps = Js.Ok () <-> Forall step_complete steps.
Proof.
  revert index. induction steps as [|s rest IH]; intros index; cbn [validateSteps].
  - split; [constructor|reflexivity].
  - destruct (validateStep index s) as [[]|e] eqn:E.
    + apply validateStep_ok in E. cbn. rewrite IH.
      split; [by constructor|]. intros H. by inversion H.
    + cbn. split; [discriminate|]. intros H. inversion H as [|? ? Hs _]; subst.
      apply (validateStep_ok index) in Hs. congruence.
Qed.

Lemma registerPipeline_accepted (engine : t) (def : Pipeline.t) :
  accepted def -> registerPipeline engine def = Js.Ok (registered engine def).
Proof.
  intros (Hid & steps & Hsteps & Hall). unfold registerPipeline.
  rewrite Hid, Hsteps. cbn [negb].
  rewrite bool_decide_eq_true_2 by eauto. cbn [negb].
  unfold validatePipelineDefinition. rewrite Hsteps.
  apply (validateSteps_ok 0) in Hall. rewrite Hall. reflexivity.
Qed.

Lemma registerPipeline_inv (engine engine' : t) (def : Pipeline.t) :
  registerPipeline engine def = Js.Ok engine' ->
  accepted def /\ engine' = registered engine def.
Proof.
  unfold registerPipeline, accepted.
  destruct (some_string (Pipeline.id def)); [|discriminate]. cbn [negb].
  destruct (Pipeline.steps def) as [steps|] eqn:Hsteps.
  2:{ rewrite bool_decide_eq_false_2; [discriminate|]. intros [? ?]. discriminate. }
  rewrite bool_decide_eq_true_2 by eauto. cbn [negb].
  unfold validatePipelineDefinition. rewrite Hsteps.
  destruct (validateSteps 0 steps) as [[]|e] eqn:E; [|discriminate].
  cbn. intros [= <-]. apply validateSteps_ok in E. eauto.
Qed.

Lemma truthy_id_shown (o : option string) :
  some_string o = true -> o = Some (shown o).
Proof. destruct o; [reflexivity|discriminate]. Qed.

End Registration.

(** C10, as the claim states it, fails: a definition whose two steps share
    the id [a] is accepted and stored. *)
Lemma duplicate_step_ids_are_registered :
  PipelineEngine.registerPipeline bare_engine twins
  = Js.Ok (registered bare_engine twins) /\
  PipelineEngine.getPipeline (registered bare_engine twins) "twins" = Some twins /\
  (Step.id <$> default [] (Pipeline.steps twins)) = [Some "a"; Some "a"].
Proof. repeat split. Qed.

(** C10, amended.  Registration validates that the definition has an id
    and a steps array and that every step has an id, an agent, a method and
    an input source, and raises otherwise; it does not compare step ids
    with one another.  So every definition in the registry satisfies these
    checks and is stored under its own id, and registration keeps it so. *)
Theorem registerPipeline_keeps_registry_validated
    (engine engine' : PipelineEngine.t) (def : Pipeline.t) :
  registry_ok engine ->
  PipelineEngine.registerPipeline engine def = Js.Ok engine' ->
  accepted def /\
  PipelineEngine.getPipeline engine' (shown (Pipeline.id def)) = Some def /\
  registry_ok engine'.
Proof.
  intros Hreg H. apply registerPipeline_inv in H as [Hacc ->].
  split; [exact Hacc|]. split.
  - unfold PipelineEngine.getPipeline, registered; cbn. apply lookup_insert_eq.
  - intros k p. unfold registered; cbn.
    destruct (decide (shown (Pipeline.id def) = k)) as [<-|Hne].
    + rewrite lookup_insert_eq. intros [= <-]. split; [exact Hacc|].
      apply truthy_id_shown, Hacc.
    + rewrite lookup_insert_ne by exact Hne. apply Hreg.
Qed.

Lemma registry_ok_bare : registry_ok bare_engine.
Proof. intros k p H. cbn in H. rewrite lookup_empty in H. discriminate H. Defined.

Lemma registerPipeline_keeps_registry_validated_witness :
  registry_ok bare_engine /\
  PipelineEngine.registerPipeline bare_engine twins
  = Js.Ok (registered bare_engine twins) /\
  accepted twins /\
  PipelineEngine.getPipeline (registered bare_engine twins)
    (shown (Pipeline.id twins)) = Some twins /\
  registry_ok (registered bare_engine twins).
Proof.
  split; [exact registry_ok_bare|]. split; [reflexivity|].
  apply (registerPipeline_keeps_registry_validated bare_engine
           (registered bare_engine twins) twins registry_ok_bare).
  reflexivity.
Defined.

(* ===================================================================== *)
(** * Properties of the run *)
(* ===================================================================== *)

Section Turn.

Import PipelineEngine.

Variable engine : t.
Variable host : Host.

Lemma notify_trace (r : StepResult.t) (current total : Z) (tr : Trace) :
  snd (notify engine r current total tr) = notified engine r current total tr.
Proof. unfold notify, notified. destruct (onStepComplete _); reflexivity. Qed.


Lemma on_catch_eq (step : Step.t) (e : string) (st : Loop) (tr : Trace) :
  on_catch host step e st tr =
  (if flag (Step.continueOnError step)
   then appended st (caught host step e tr)
   else stopped (appended st (caught host step e tr)) (Js.str e),
   after_failure step).
Proof.
  unfold on_catch, after_failure.
  destruct (flag (Step.continueOnError step)); reflexivity.
Qed.

(** A turn whose step raises. *)
Lemma iteration_thrown (total i : Z) (step : Step.t) (st : Loop)
    (tr tr1 : Trace) (e : string) :
  executeStep engine host step (stepResults st) (executionContext st) tr
  = (Js.Throw e, tr1) ->
  iteration engine host total i step st tr
  = (on_catch host step e st tr1, tr1).
Proof. intros H. unfold iteration. rewrite H. reflexivity. Qed.

(** A turn whose step returns and whose observer returns. *)
Lemma iteration_returned (total i : Z) (step : Step.t) (st : Loop)
    (tr tr1 tr2 : Trace) (r : StepResult.t) :
  executeStep engine host step (stepResults st) (executionContext st) tr
  = (Js.Ok r, tr1) ->
  notify engine r (i + 1) total tr1 = (Js.Ok (), tr2) ->
  iteration engine host total i step st tr
  = (if negb (StepResult.success r) && negb (flag (Step.continueOnError step))
     then (stopped (recorded step r st) (Js.of_option (StepResult.error r)), stop)
     else (recorded step r st, go_on), tr2).
Proof.
  intros H N. unfold iteration. rewrite H, N.
  destruct (negb (StepResult.success r) && negb (flag (Step.continueOnError step)));
    reflexivity.
Qed.

(** A turn whose step returns and whose observer raises: the [catch]
    block runs on the variables the [try] block has already updated. *)
Lemma iteration_observer_thrown (total i : Z) (step : Step.t) (st : Loop)
    (tr tr1 tr2 : Trace) (r : StepResult.t) (e : string) :
  executeStep engine host step (stepResults st) (executionContext st) tr
  = (Js.Ok r, tr1) ->
  notify engine r (i + 1) total tr1 = (Js.Throw e, tr2) ->
  iteration engine host total i step st tr
  = (on_catch host step e (recorded step r st) tr2, tr2).
Proof. intros H N. unfold iteration. rewrite H, N. reflexivity. Qed.

(** ** What [executeStep] returns *)

Lemma conclude_returns (step : Step.t) (context : Context.t)
    (agentResult : AgentResult) (duration finished : Z) (r : StepResult.t) :
  conclude host step context agentResult duration finished = Js.Ok r ->
  StepResult.stepId r = Step.id step /\
  StepResult.stepName r = Step.name step /\
  StepResult.success r = success agentResult /\
  StepResult.error r = None /\
  StepResult.duration r = duration /\
  StepResult.timestamp r = toISOString host finished /\
  is_Some (StepResult.actions r).
Proof.
  unfold conclude.
  destruct (match Step.resultTransform step with
            | Some transform => transform (data agentResult) context
            | None => Js.Ok (data agentResult)
            end) as [d|e]; [|discriminate].
  cbn [mbind Outcome_bind Js.bind].
  destruct (extractActions step d) as [acts|e]; [|discriminate].
  cbn [mbind Outcome_bind Js.bind]. intros [= <-]. cbn. repeat split. eauto.
Qed.

(** A result that [executeStep] returns names its step, carries no error
    message and comes with a list of actions; it is the answer of a
    provider that was called. *)
Lemma executeStep_returns (step : Step.t) (previousResults : list StepResult.t)
    (context : Context.t) (tr tr1 : Trace) (r : StepResult.t) :
  executeStep engine host step previousResults context tr = (Js.Ok r, tr1) ->
  StepResult.stepId r = Step.id step /\
  StepResult.stepName r = Step.name step /\
  StepResult.error r = None /\
  is_Some (StepResult.actions r) /\
  StepResult.duration r = now host tr1 - now host tr /\
  StepResult.timestamp r = toISOString host (now host tr1).
Proof.
  unfold executeStep.
  destruct (prepare _ _ _ _ _) as [[input agentContext]|e]; [|discriminate].
  destruct (if flag (Step.requiresApproval step) && negb (autoApprove (options engine))
            then _ else _) as [[[]|e] tr0]; try discriminate.
  destruct (client engine _) as [ag|]; [|discriminate].
  destruct (ag _) as [method|]; [|discriminate].
  destruct (executeWithTimeout _ _) as [agentResult|e]; [|discriminate].
  intros [= H <-]. apply conclude_returns in H. tauto.
Qed.

(** ** What a turn leaves behind *)

Lemma on_catch_outcome (step : Step.t) (e : string) (st st' : Loop)
    (tr : Trace) (next : Next) :
  running st ->
  on_catch host step e st tr = (st', next) ->
  (next = go_on /\ running st') \/ (next = stop /\ stopped_by step st').
Proof.
  intros [Hs He]. rewrite on_catch_eq. unfold after_failure, stopped_by.
  destruct (flag (Step.continueOnError step)); intros [= <- <-].
  - left. split; [reflexivity|]. split; assumption.
  - right. split; [reflexivity|]. repeat split.
    eexists. cbn. rewrite last_snoc. repeat split.
Qed.

Lemma iteration_outcome (total i : Z) (step : Step.t) (st st' : Loop)
    (tr tr' : Trace) (next : Next) :
  running st ->
  iteration engine host total i step st tr = (st', next, tr') ->
  (next = go_on /\ running st') \/ (next = stop /\ stopped_by step st').
Proof.
  intros Hrun. unfold iteration.
  destruct (executeStep _ _ _ _ _ _) as [[r|e] tr1] eqn:Ex.
  - destruct (notify _ _ _ _ _) as [[u|e] tr2].
    + destruct (StepResult.success r) eqn:Hr,
               (flag (Step.continueOnError step)) eqn:Hc;
        cbn [negb andb]; intros [= <- <- <-];
        try (left; split; [reflexivity|exact Hrun]).
      right. split; [reflexivity|]. unfold stopped_by. cbn.
      repeat split; [exact Hc|]. exists r. rewrite last_snoc.
      repeat split; [|exact Hr]. eapply executeStep_returns, Ex.
    + destruct (on_catch host step e (recorded step r st) tr2) as [st1 n1] eqn:C.
      intros [= <- <- <-]. eapply on_catch_outcome; [|exact C]. exact Hrun.
  - destruct (on_catch host step e st tr1) as [st1 n1] eqn:C.
    intros [= <- <- <-]. eapply on_catch_outcome; [|exact C]. exact Hrun.
Qed.

(** The loop ends still running, or stopped by one of its steps. *)
Lemma run_steps_outcome (total : Z) (steps : list Step.t) :
  forall (i : Z) (st st' : Loop) (tr tr' : Trace),
    running st ->
    run_steps engine host total i steps st tr = (st', tr') ->
    running st' \/ exists step, In step steps /\ stopped_by step st'.
Proof.
  induction steps as [|step rest IH]; intros i st st' tr tr' Hrun; cbn [run_steps].
  - intros [= <- <-]. left. exact Hrun.
  - destruct (iteration engine host total i step st tr) as [[st1 next] tr1] eqn:It.
    destruct (iteration_outcome _ _ _ _ _ _ _ _ Hrun It) as [[-> Hrun1]|[-> Hstop]].
    + intros H. destruct (IH _ _ _ _ _ Hrun1 H) as [Hr|(s & Hin & Hs)].
      * left. exact Hr.
      * right. exists s. split; [right; exact Hin|exact Hs].
    + intros [= <- <-]. right. exists step. split; [left; reflexivity|exact Hstop].
Qed.


(** A turn only adds results, one of them under the id of its step. *)
Lemma iteration_appends (total i : Z) (step : Step.t) (st st' : Loop)
    (tr tr' : Trace) (next : Next) :
  iteration engine host total i step st tr = (st', next, tr') ->
  exists added r,
    stepResults st' = stepResults st ++ added /\
    In r added /\ StepResult.stepId r = Step.id step.
Proof.
  unfold iteration.
  destruct (executeStep _ _ _ _ _ _) as [[r|e] tr1] eqn:Ex.
  - destruct (executeStep_returns _ _ _ _ _ _ Ex) as (Hid & _).
    destruct (notify _ _ _ _ _) as [[u|e] tr2].
    + destruct (negb (StepResult.success r) && _); intros [= <- <- <-];
        exists [r], r; cbn; auto.
    + rewrite on_catch_eq.
      destruct (flag (Step.continueOnError step)); intros [= <- <- <-];
        exists [r; caught host step e tr2], r; cbn;
        rewrite <- app_assoc; auto.
  - rewrite on_catch_eq.
    destruct (flag (Step.continueOnError step)); intros [= <- <- <-];
      exists [caught host step e tr1], (caught host step e tr1); cbn; auto.
Qed.

Lemma run_steps_appends (total : Z) (steps : list Step.t) :
  forall (i : Z) (st st' : Loop) (tr tr' : Trace),
    run_steps engine host total i steps st tr = (st', tr') ->
    exists added, stepResults st' = stepResults st ++ added.
Proof.
  induction steps as [|step rest IH]; intros i st st' tr tr'; cbn [run_steps].
  - intros [= <- <-]. exists []. by rewrite app_nil_r.
  - destruct (iteration engine host total i step st tr) as [[st1 next] tr1] eqn:It.
    destruct (iteration_appends _ _ _ _ _ _ _ _ It) as (added & _ & Hres & _).
    destruct next.
    + intros H. destruct (IH _ _ _ _ _ H) as [more Hmore].
      exists (added ++ more). by rewrite Hmore, Hres, app_assoc.
    + intros [= <- <-]. by exists added.
Qed.

(** A run that ends without having failed has taken the turn of every
    step. *)
Lemma run_steps_covers (total : Z) (steps : list Step.t) :
  forall (i : Z) (st st' : Loop) (tr tr' : Trace),
    running st ->
    run_steps engine host total i steps st tr = (st', tr') ->
    pipelineSuccess st' = true ->
    forall step, In step steps ->
      exists r, In r (stepResults st') /\
                StepResult.stepId r = Step.id step.
Proof.
  induction steps as [|s rest IH]; intros i st st' tr tr' Hrun; cbn [run_steps].
  - intros _ _ step [].
  - destruct (iteration engine host total i s st tr) as [[st1 next] tr1] eqn:It.
    destruct (iteration_outcome _ _ _ _ _ _ _ _ Hrun It)
      as [[-> Hrun1]|[-> Hstop]].
    + intros H Hsucc step [<-|Hin].
      * destruct (iteration_appends _ _ _ _ _ _ _ _ It) as (added & r & Hres & Hr & Hid).
        destruct (run_steps_appends _ _ _ _ _ _ _ H) as [more Hmore].
        exists r. split; [|exact Hid].
        rewrite Hmore, Hres. apply in_or_app. left. apply in_or_app. by right.
      * eapply IH; eauto.
    + intros [= <- <-] Hsucc. destruct Hstop as [Hf _]. congruence.
Qed.

(** ** Leaving [runPipeline] *)






Lemma start_state (pipelineId : string) (context : list (string * Js.Value))
    (tr tr0 : Trace) (p : Pipeline.t) (steps : list Step.t) (st0 : Loop) :
  start engine pipelineId context tr = (Js.Ok (p, steps, st0), tr0) ->
  pipelines engine !! pipelineId = Some p /\
  Pipeline.steps p = Some steps /\
  stepResults st0 = [] /\ actions st0 = [] /\
  executionContext st0 = Context.merge (Pipeline.defaultContext p) context /\
  running st0.
Proof.
  unfold start.
  destruct (pipelines engine !! pipelineId) as [p'|]; [|discriminate].
  destruct (Pipeline.steps p') as [steps'|] eqn:Hs; [|discriminate].
  destruct (pipeline_denied engine p'); [discriminate|].
  destruct (if flag (Pipeline.requiresApproval p') && _ then _ else _)
    as [[[]|e] tr1]; try discriminate.
  intros [= <- <- <- <-]. repeat split. exact Hs.
Qed.

End Turn.

Section Failures.

Import PipelineEngine.

Variable engine : t.
Variable host : Host.








(** Whether the loop goes on after a turn. *)
Lemma iteration_next (total i : Z) (step : Step.t) (st st' : Loop)
    (tr tr' : Trace) (next : Next) :
  iteration engine host total i step st tr = (st', next, tr') ->
  next = (if unforgiven (step, turn_failed engine host total i step st tr)
          then stop else go_on) /\
  (next = go_on ->
   pipelineSuccess st' = pipelineSuccess st /\
   pipelineError st' = pipelineError st) /\
  (next = stop -> pipelineSuccess st' = false).
Proof.
  unfold iteration, turn_failed, unforgiven. cbn [fst snd].
  destruct (executeStep _ _ _ _ _ _) as [[r|e] tr1] eqn:Ex.
  - destruct (notify _ _ _ _ _) as [[u|e] tr2].
    + rewrite orb_false_r.
      destruct (negb (StepResult.success r) && _); intros [= <- <- _]; cbn;
        repeat split; auto; discriminate.
    + rewrite orb_true_r, on_catch_eq. unfold after_failure. cbn [andb].
      destruct (flag (Step.continueOnError step)); intros [= <- <- _]; cbn;
        repeat split; auto; discriminate.
  - rewrite on_catch_eq. unfold after_failure. cbn [andb].
    destruct (flag (Step.continueOnError step)); intros [= <- <- _]; cbn;
      repeat split; auto; discriminate.
Qed.

(** The outcome of the loop, read off its turns. *)
Lemma run_steps_turns (total : Z) (steps : list Step.t) :
  forall (i : Z) (st st' : Loop) (tr tr' : Trace),
    running st ->
    run_steps engine host total i steps st tr = (st', tr') ->
    pipelineSuccess st'
    = negb (existsb unforgiven (turns engine host total i steps st tr)) /\
    (pipelineSuccess st' = true ->
     pipelineError st' = Js.null /\
     map fst (turns engine host total i steps st tr) = steps) /\
    (pipelineSuccess st' = false ->
     exists step,
       last (turns engine host total i steps st tr) = Some (step, true) /\
       flag (Step.continueOnError step) = false).
Proof.
  induction steps as [|step rest IH]; intros i st st' tr tr' [Hs He];
    cbn [run_steps turns].
  - intros [= <- _]. cbn. rewrite Hs. repeat split; [exact He|discriminate].
  - destruct (iteration engine host total i step st tr) as [[st1 next] tr1] eqn:It.
    destruct (iteration_next _ _ _ _ _ _ _ _ It) as (Hn & Hgo & Hstop).
    cbn [existsb map fst].
    destruct (unforgiven (step, turn_failed engine host total i step st tr))
      eqn:U; subst next.
    + intros [= <- _]. rewrite (Hstop eq_refl). cbn.
      split; [reflexivity|]. split; [discriminate|]. intros _.
      unfold unforgiven in U. cbn [fst snd] in U.
      apply andb_true_iff in U as [-> Hf]. apply negb_true_iff in Hf.
      exists step. by split.
    + destruct (Hgo eq_refl) as [Hs1 He1]. intros H.
      assert (Hrun1 : running st1) by (split; congruence).
      destruct (IH _ _ _ _ _ Hrun1 H) as (IH1 & IH2 & IH3).
      cbn [orb]. split; [exact IH1|]. split.
      * intros Ht. destruct (IH2 Ht) as [-> ->]. by split.
      * intros Hf. destruct (IH3 Hf) as (s & Hl & Hflag).
        exists s. split; [|exact Hflag].
        destruct (turns engine host total (i + 1) rest st1 tr1) as [|t ts];
          [discriminate Hl|]. exact Hl.
Qed.


End Failures.

Section Raised.

Import PipelineEngine.

Variable engine : t.
Variable host : Host.

(** What [executeStep] can raise before any interaction: the input
    cannot be built, the context builder raises, or the policy denies
    the agent. *)
Lemma prepare_throws (step : Step.t) (previousResults : list StepResult.t)
    (context : Context.t) (e : string) :
  prepare engine host step previousResults context = Js.Throw e ->
  buildStepInput host step previousResults context = Js.Throw e \/
  (exists build, Step.contextBuilder step = Some build /\
                 build previousResults context = Js.Throw e) \/
  step_denied engine step = Some e.
Proof.
  unfold prepare.
  destruct (buildStepInput _ _ _ _) as [input|e0];
    cbn [mbind Outcome_bind Js.bind]; [|intros [= ->]; by left].
  destruct (Step.contextBuilder step) as [build|].
  - destruct (build previousResults context) as [c|e0] eqn:B;
      cbn [mbind Outcome_bind Js.bind]; [|intros [= ->]; right; left; eauto].
    destruct (step_denied engine step); [intros [= ->]; auto|discriminate].
  - cbn [mbind Outcome_bind Js.bind].
    destruct (step_denied engine step); [intros [= ->]; auto|discriminate].
Qed.

(** Every way [executeStep] has of raising. *)
Lemma executeStep_throws (step : Step.t) (previousResults : list StepResult.t)
    (context : Context.t) (tr tr1 : Trace) (e : string) :
  executeStep engine host step previousResults context tr = (Js.Throw e, tr1) ->
  prepare engine host step previousResults context = Js.Throw e \/
  exists input agentContext,
    prepare engine host step previousResults context
    = Js.Ok (input, agentContext) /\
    ((exists tr0, step_approval engine step input tr = (Js.Throw e, tr0)) \/
     (fst (step_approval engine step input tr) = Js.Ok false /\
      e = "Step execution rejected by user") \/
     (client engine (shown (Step.agent step)) = None /\
      e = "Agent not found: " +:+ shown (Step.agent step)) \/
     (exists agent,
         client engine (shown (Step.agent step)) = Some agent /\
         agent (shown (Step.method step)) = None /\
         e = "Method not found: " +:+ shown (Step.agent step)
             +:+ "." +:+ shown (Step.method step)) \/
     e = "Step timeout after " +:+ pretty (deadline engine step) +:+ "ms" \/
     (exists agent method tr0,
         client engine (shown (Step.agent step)) = Some agent /\
         agent (shown (Step.method step)) = Some method /\
         method tr0 input agentContext (deadline engine step)
         = Settled (Js.Throw e)) \/
     (exists agentResult duration finished,
         conclude host step context agentResult duration finished
         = Js.Throw e)).
Proof.
  unfold executeStep.
  destruct (prepare engine host step previousResults context)
    as [[input agentContext]|e0] eqn:P; [|intros [= ->]; by left].
  right. exists input, agentContext. split; [reflexivity|]. revert H.
  fold (step_approval_due engine step). fold (step_request step input).
  fold (step_approval engine step input tr).
  assert (Hd : default (defaultTimeout (options engine))
                       (truthy_timeout (Step.timeout step))
               = deadline engine step).
  { unfold deadline, truthy_timeout. by destruct (Step.timeout step) as [[]|]. }
  rewrite Hd.
  destruct (step_approval engine step input tr) as [[[]|e0] tr0];
    [|intros [= <- _]; right; left; by split|intros [= -> _]; left; eauto].
  destruct (client engine _) as [ag|] eqn:C;
    [|intros [= <- _]; do 2 right; left; by split].
  destruct (ag _) as [method|] eqn:M;
    [|intros [= <- _]; do 3 right; left; exists ag; by repeat split].
  destruct (method tr0 input agentContext (deadline engine step))
    as [[agentResult|e0]|] eqn:Call; cbn [executeWithTimeout].
  - intros [= H _]. do 6 right. eauto.
  - intros [= -> _]. do 5 right. left. exists ag, method, tr0. by repeat split.
  - intros [= <- _]. do 4 right. by left.
Qed.

End Raised.




(** A denial at the level of a step, by contrast, is reported. *)
Example step_denial_is_reported :
  errors_of (fst (PipelineEngine.runPipeline
                    (engine_with [deploy] (Some deny_base) default_options)
                    counting_host "deploy" [] []))
  = [Some "Step blocked by policy: Agent base is denied by policy rule: no-base"].
Proof. vm_compute. reflexivity. Qed.



(** C5, as the claim states it, fails: for the same step and flag, the
    step that raises leaves no output in the context and the observer is
    not invoked, while the step that returns [success = false] has its
    output stored and the observer invoked; and only the step that raised
    has an error message in its result. *)
Lemma thrown_and_returned_failures_differ :
  stored_for_a (fst (run_solo solo_faulty)) = None /\
  observed (snd (run_solo solo_faulty)) = false /\
  errors_of (fst (run_solo solo_faulty)) = [Some "provider down"] /\
  stored_for_a (fst (run_solo solo_weak))
  = Some (Js.object [("text", Js.str "partial")]) /\
  observed (snd (run_solo solo_weak)) = true /\
  errors_of (fst (run_solo solo_weak)) = [None].
Proof. repeat split; vm_compute; reflexivity. Qed.

(** C5, amended.  A step that raises is caught and turned into a result
    carrying the step's id and name, [success = false], null data, the
    message of the exception, a duration of zero and a timestamp; the
    result is appended, and the run stops or goes on by the step's
    [continueOnError] flag exactly as it does for a returned failure.
    Unlike a returned failure, it stores nothing in the context's
    step-output map, appends no action and does not reach the observer.
    A returned failure is appended as returned (with no error message),
    its data is stored under the step id, its actions are appended and
    the observer is invoked. *)
Theorem caught_step_is_recorded_only
    (engine : PipelineEngine.t) (host : PipelineEngine.Host) (total i : Z)
    (step : Step.t) (st : PipelineEngine.Loop) (tr : PipelineEngine.Trace) :
  (forall e tr1,
      PipelineEngine.executeStep engine host step
        (PipelineEngine.stepResults st) (PipelineEngine.executionContext st) tr
      = (Js.Throw e, tr1) ->
      exists st',
        PipelineEngine.iteration engine host total i step st tr
        = (st', after_failure step, tr1) /\
        PipelineEngine.stepResults st' =
          PipelineEngine.stepResults st ++
          [ {| StepResult.stepId := Step.id step;
               StepResult.stepName := Step.name step;
               StepResult.success := false;
               StepResult.data := Js.null;
               StepResult.error := Some e;
               StepResult.duration := 0;
               StepResult.timestamp :=
                 PipelineEngine.toISOString host (PipelineEngine.now host tr1);
               StepResult.signature := Js.undefined;
               StepResult.actions := None |} ] /\
        PipelineEngine.executionContext st' = PipelineEngine.executionContext st /\
        PipelineEngine.actions st' = PipelineEngine.actions st) /\
  (forall r tr1,
      PipelineEngine.executeStep engine host step
        (PipelineEngine.stepResults st) (PipelineEngine.executionContext st) tr
      = (Js.Ok r, tr1) ->
      StepResult.success r = false ->
      fst (PipelineEngine.notify engine r (i + 1) total tr1) = Js.Ok () ->
      exists st',
        PipelineEngine.iteration engine host total i step st tr
        = (st', after_failure step, notified engine r (i + 1) total tr1) /\
        PipelineEngine.stepResults st' = PipelineEngine.stepResults st ++ [r] /\
        StepResult.stepId r = Step.id step /\
        StepResult.stepName r = Step.name step /\
        StepResult.error r = None /\
        PipelineEngine.executionContext st' =
          Context.store (PipelineEngine.executionContext st)
            (shown (Step.id step)) (StepResult.data r) /\
        PipelineEngine.actions st' =
          PipelineEngine.actions st ++ default [] (StepResult.actions r)).
Proof.
  split.
  - intros e tr1 Ex. rewrite (iteration_thrown engine host _ _ _ _ _ _ _ Ex).
    rewrite on_catch_eq. unfold after_failure.
    destruct (flag (Step.continueOnError step)); eexists; repeat split.
  - intros r tr1 Ex Hr Hn.
    destruct (executeStep_returns engine host _ _ _ _ _ _ Ex) as (Hid & Hname & Herr & _).
    assert (N : PipelineEngine.notify engine r (i + 1) total tr1
                = (Js.Ok (), notified engine r (i + 1) total tr1)).
    { rewrite <- notify_trace. destruct (PipelineEngine.notify _ _ _ _ _) as [o t].
      cbn in *. by subst. }
    rewrite (iteration_returned engine host _ _ _ _ _ _ _ _ Ex N).
    rewrite Hr. unfold after_failure. cbn [negb andb].
    destruct (flag (Step.continueOnError step)); eexists; repeat split;
      assumption.
Qed.

(** The amended C5 at the step that raises. *)
Lemma caught_step_is_recorded_only_witness :
  PipelineEngine.executeStep abc_engine counting_host stepB [] (Context.merge None []) []
  = (Js.Throw "provider down",
     [PipelineEngine.Called "faulty" "query" (Js.str "") (Js.object []) 60000]) /\
  exists st',
    PipelineEngine.iteration abc_engine counting_host 3 1 stepB fresh []
    = (st', PipelineEngine.stop,
       [PipelineEngine.Called "faulty" "query" (Js.str "") (Js.object []) 60000]) /\
    (StepResult.error <$> PipelineEngine.stepResults st') = [Some "provider down"] /\
    PipelineEngine.executionContext st' = Context.merge None [] /\
    PipelineEngine.actions st' = [].
Proof.
  split; [reflexivity|].
  destruct (proj1 (caught_step_is_recorded_only abc_engine counting_host 3 1
                     stepB fresh [])
              "provider down"
              [PipelineEngine.Called "faulty" "query" (Js.str "") (Js.object []) 60000]
              eq_refl)
    as (st' & Hit & Hres & Hctx & Hact).
  exists st'. split; [exact Hit|]. split; [rewrite Hres; reflexivity|].
  split; assumption.
Defined.






(** The two ways of failing at [B]: the exception leaves its message as
    the terminal error; the returned failure carries no message, and the
    terminal error is then [undefined]. *)
Example terminal_error_of_each_failure :
  outcome_of (fst (PipelineEngine.runPipeline abc_engine counting_host "abc" [] []))
  = Some (false, Js.str "provider down", [Some "A"; Some "B"]) /\
  outcome_of (fst (PipelineEngine.runPipeline
                     (engine_with [abc_weak] None watching_options)
                     counting_host "abc" [] []))
  = Some (false, Js.undefined, [Some "A"; Some "B"]).
Proof. split; vm_compute; reflexivity. Qed.

(** Registration without an id, and a run of an unknown id. *)
Example registration_and_lookup_errors :
  PipelineEngine.registerPipeline bare_engine
    {| Pipeline.id := None; Pipeline.version := None; Pipeline.name := None;
       Pipeline.description := None; Pipeline.steps := Some [];
       Pipeline.defaultContext := None; Pipeline.requiresApproval := None |}
  = Js.Throw "Pipeline must have an id" /\
  PipelineEngine.runPipeline bare_engine counting_host "non-existent" [] []
  = (Js.Throw "Pipeline not found: non-existent", []).
Proof. split; reflexivity. Qed.

(** Why the observer is taken to return normally: when it raises, the
    [catch] block runs after the result of the step was recorded, and the
    step is listed twice, once succeeded and once failed. *)
Example raising_observer_lists_the_step_twice :
  successes_of
    (fst (PipelineEngine.runPipeline raising_observer_engine counting_host
            "deploy" [] []))
  = [(Some "build", true); (Some "build", false)].
Proof. vm_compute. reflexivity. Qed.

(** The outcome of a run, read off the results it lists: [success =
    false] only when the last result is a failed one under the id of a
    step whose [continueOnError] flag is falsy, its error being the
    terminal error; and when every failed result belongs to a step with
    the flag set, the report has [success = true] and a null terminal
    error, and every step of the pipeline has a result in it. *)
Lemma failed_run_ends_with_a_failed_result
    (engine : PipelineEngine.t) (host : PipelineEngine.Host)
    (pipelineId : string) (context : list (string * Js.Value))
    (tr tr' : PipelineEngine.Trace) (result : PipelineResult.t) :
  PipelineEngine.runPipeline engine host pipelineId context tr
  = (Js.Ok result, tr') ->
  exists p steps,
    PipelineEngine.pipelines engine !! pipelineId = Some p /\
    Pipeline.steps p = Some steps /\
    (PipelineResult.success result = false ->
     exists step r,
       In step steps /\ flag (Step.continueOnError step) = false /\
       last (PipelineResult.steps result) = Some r /\
       StepResult.stepId r = Step.id step /\
       StepResult.success r = false /\
       PipelineResult.error result = Js.of_option (StepResult.error r)) /\
    (PipelineResult.success result = true ->
     PipelineResult.error result = Js.null /\
     forall step, In step steps ->
       exists r, In r (PipelineResult.steps result) /\
                 StepResult.stepId r = Step.id step) /\
    ((forall step r,
         In step steps -> In r (PipelineResult.steps result) ->
         StepResult.stepId r = Step.id step ->
         StepResult.success r = false ->
         flag (Step.continueOnError step) = true) ->
     PipelineResult.success result = true /\
     PipelineResult.error result = Js.null).
Proof.
  intros H. unfold PipelineEngine.runPipeline in H.
  destruct (PipelineEngine.start engine pipelineId context tr)
    as [[[[p steps] st0]|e] tr0] eqn:Hstart; [|discriminate].
  destruct (PipelineEngine.run_steps _ _ _ _ _ _ _) as [st' tr2] eqn:Hrun.
  injection H as <- <-.
  destruct (start_state engine _ _ _ _ _ _ _ Hstart) as (Hp & Hs & _ & _ & _ & Hrun0).
  exists p, steps. split; [exact Hp|]. split; [exact Hs|]. cbn.
  pose proof (run_steps_outcome engine host _ _ _ _ _ _ _ Hrun0 Hrun) as Hout.
  assert (Hfail : PipelineEngine.pipelineSuccess st' = false ->
     exists step r,
       In step steps /\ flag (Step.continueOnError step) = false /\
       last (PipelineEngine.stepResults st') = Some r /\
       StepResult.stepId r = Step.id step /\
       StepResult.success r = false /\
       PipelineEngine.pipelineError st' = Js.of_option (StepResult.error r)).
  { intros Hf. destruct Hout as [[Hsucc _]|(step & Hin & _ & Hc & r & Hl & Hid & Hr & He)];
      [congruence|]. exists step, r. auto 10. }
  split; [exact Hfail|]. split.
  - intros Hsucc. split.
    + destruct Hout as [[_ He]|(step & _ & Hf & _)]; [exact He|congruence].
    + eapply run_steps_covers; eauto.
  - intros Hall.
    destruct (PipelineEngine.pipelineSuccess st') eqn:Hsucc.
    + split; [reflexivity|].
      destruct Hout as [[_ He]|(step & _ & Hf & _)]; [exact He|congruence].
    + destruct (Hfail eq_refl) as (step & r & Hin & Hc & Hl & Hid & Hr & _).
      apply last_Some in Hl as [l' Hl].
      assert (Hinr : In r (PipelineEngine.stepResults st')).
      { rewrite Hl. apply in_or_app. right. by left. }
      specialize (Hall step r Hin Hinr Hid Hr). congruence.
Qed.

Lemma failed_run_ends_with_a_failed_result_at_tolerant :
  PipelineEngine.runPipeline tolerant_engine counting_host "tolerant" [] []
  = (Js.Ok tolerant_report, snd tolerant_run) /\
  (StepResult.success <$> PipelineResult.steps tolerant_report)
  = [true; false; false] /\
  PipelineResult.success tolerant_report = true /\
  PipelineResult.error tolerant_report = Js.null.
Proof.
  split; [vm_compute; reflexivity|]. split; [vm_compute; reflexivity|].
  destruct (failed_run_ends_with_a_failed_result tolerant_engine counting_host
              "tolerant" [] [] (snd tolerant_run) tolerant_report eq_refl)
    as (p & steps & Hp & Hs & _ & _ & Hall).
  apply Hall. clear Hall.
  vm_compute in Hp. injection Hp as <-. cbn in Hs. injection Hs as <-.
  intros step r Hin Hr Hid Hfail. vm_compute in Hr.
  destruct Hin as [<-|[<-|[<-|[]]]]; [|reflexivity|reflexivity].
  destruct Hr as [<-|[<-|[<-|[]]]]; discriminate.
Defined.

(** C7, as the claim states it, fails: the only step of [deploy] is
    executed and does not fail, and yet the report has [success = false]
    and a terminal error, because the observer raised after the step had
    returned; the step is listed twice, once succeeded and once failed. *)
Lemma observer_failure_fails_the_run :
  Pipeline.steps deploy = Some [plain_step "build" "base" None] /\
  failed (fst (PipelineEngine.executeStep raising_observer_engine counting_host
                 (plain_step "build" "base" None) [] (Context.merge None []) []))
  = false /\
  successes_of
    (fst (PipelineEngine.runPipeline raising_observer_engine counting_host
            "deploy" [] []))
  = [(Some "build", true); (Some "build", false)] /\
  outcome_of
    (fst (PipelineEngine.runPipeline raising_observer_engine counting_host
            "deploy" [] []))
  = Some (false, Js.str "observer failed", [Some "build"; Some "build"]).
Proof. repeat split; vm_compute; reflexivity. Qed.

(** C7, amended.  A turn of the loop fails when its step raises or
    returns [success = false], or when the observer raises on the result
    of the step.  The report of a run has [success = false] exactly when
    some turn failed whose step has a falsy [continueOnError]; that turn
    is then the last one taken.  So when every turn that failed belongs
    to a step with the flag set, the report has [success = true] and a
    null terminal error, whatever failures it lists, and every step of
    the pipeline had its turn. *)
Theorem run_fails_only_on_unforgiven_turn
    (engine : PipelineEngine.t) (host : PipelineEngine.Host)
    (pipelineId : string) (context : list (string * Js.Value))
    (tr tr' : PipelineEngine.Trace) (result : PipelineResult.t) :
  PipelineEngine.runPipeline engine host pipelineId context tr
  = (Js.Ok result, tr') ->
  exists p steps st0 tr0,
    PipelineEngine.start engine pipelineId context tr
    = (Js.Ok (p, steps, st0), tr0) /\
    Pipeline.steps p = Some steps /\
    let taken := turns engine host (Z.of_nat (length steps)) 0 steps st0 tr0 in
    PipelineResult.success result = negb (existsb unforgiven taken) /\
    (PipelineResult.success result = false ->
     exists step,
       last taken = Some (step, true) /\
       flag (Step.continueOnError step) = false) /\
    ((forall step, In (step, true) taken ->
                   flag (Step.continueOnError step) = true) ->
     PipelineResult.success result = true /\
     PipelineResult.error result = Js.null /\
     map fst taken = steps).
Proof.
  intros H. unfold PipelineEngine.runPipeline in H.
  destruct (PipelineEngine.start engine pipelineId context tr)
    as [[[[p steps] st0]|e] tr0] eqn:Hstart; [|discriminate].
  destruct (PipelineEngine.run_steps _ _ _ _ _ _ _) as [st' tr2] eqn:Hloop.
  injection H as <- <-.
  destruct (start_state engine _ _ _ _ _ _ _ Hstart)
    as (_ & Hs & _ & _ & _ & Hrun0).
  exists p, steps, st0, tr0. split; [reflexivity|]. split; [exact Hs|].
  destruct (run_steps_turns engine host _ _ _ _ _ _ _ Hrun0 Hloop)
    as (Hsucc & Htrue & Hfalse).
  cbn [PipelineEngine.report PipelineResult.success PipelineResult.error].
  cbn zeta. split; [exact Hsucc|]. split; [exact Hfalse|].
  intros Hall.
  assert (Hnone : existsb unforgiven
                    (turns engine host (Z.of_nat (length steps)) 0 steps st0 tr0)
                  = false).
  { apply not_true_is_false. intros Hex.
    apply existsb_exists in Hex as ([step f] & Hin & Hu).
    unfold unforgiven in Hu. cbn [fst snd] in Hu.
    apply andb_true_iff in Hu as [-> Hf]. apply negb_true_iff in Hf.
    rewrite (Hall step Hin) in Hf. discriminate. }
  rewrite Hnone in Hsucc. cbn [negb] in Hsucc.
  split; [exact Hsucc|]. exact (Htrue Hsucc).
Qed.

Lemma run_fails_only_on_unforgiven_turn_witness :
  turns tolerant_engine counting_host 3 0
    (default [] (Pipeline.steps tolerant)) fresh []
  = [(plain_step "A" "base" None, false);
     (plain_step "B" "weak" (Some true), true);
     (plain_step "C" "faulty" (Some true), true)] /\
  PipelineResult.success tolerant_report = true /\
  PipelineResult.error tolerant_report = Js.null.
Proof.
  split; [vm_compute; reflexivity|].
  destruct (run_fails_only_on_unforgiven_turn tolerant_engine counting_host
              "tolerant" [] [] (snd tolerant_run) tolerant_report)
    as (p & steps & st0 & tr0 & Hstart & Hs & _ & _ & Hall).
  { vm_compute. reflexivity. }
  vm_compute in Hstart. injection Hstart as <- <- <- <-.
  destruct Hall as (Hsucc & Herr & _); [|by split].
  intros step Hin. vm_compute in Hin.
  destruct Hin as [[=]|[[= <-]|[[= <-]|[]]]]; reflexivity.
Defined.

(* ===================================================================== *)
(** * Further properties of the action check *)
(* ===================================================================== *)

Section ActionFacts.

Import PolicyEngine.

Variable host : string -> string -> option bool.

Lemma first_glob_none (t : string) (patterns : list string) :
  first_glob t patterns = Some None ->
  forall p, In p patterns -> matchGlob t p = Some false.
Proof.
  induction patterns as [|q ps IH]; cbn [first_glob]; [intros _ p []|].
  destruct (matchGlob t q) as [[]|] eqn:E; cbn [mbind option_bind]; try discriminate.
  intros H p [<-|Hin]; [exact E|apply IH; assumption].
Qed.

Lemma scan_denied_shape (rule : PolicyRule) (patterns tgts : list string)
    (v : Verdict) :
  scan_denied rule patterns tgts = Some (Some v) -> is_denial v.
Proof.
  induction tgts as [|t ts IH]; cbn [scan_denied]; [discriminate|].
  destruct (is_deny (effect rule)).
  - destruct (first_glob t patterns) as [[p|]|]; cbn [mbind option_bind];
      [|exact IH|discriminate].
    intros [= <-]. eexists. reflexivity.
  - destruct (every_glob t patterns); cbn [mbind option_bind];
      [exact IH|discriminate].
Qed.

Lemma scan_allowed_shape (rule : PolicyRule) (patterns tgts : list string)
    (fileAllowed : bool) (v : Verdict) :
  scan_allowed rule patterns fileAllowed tgts = Some (Some v) -> is_denial v.
Proof.
  revert fileAllowed.
  induction tgts as [|t ts IH]; intros fileAllowed; cbn [scan_allowed];
    [discriminate|].
  destruct (first_glob t patterns) as [hit|]; cbn [mbind option_bind];
    [|discriminate].
  destruct (negb _ && _); [|apply IH].
  intros [= <-]. eexists. reflexivity.
Qed.

Lemma scan_denied_commands_shape (rule : PolicyRule) (cmd : string)
    (patterns : list string) (v : Verdict) :
  scan_denied_commands host rule cmd patterns = Some v -> is_denial v.
Proof.
  induction patterns as [|p ps IH]; cbn [scan_denied_commands]; [discriminate|].
  destruct (matchRegex host cmd p && is_deny (effect rule)); [|exact IH].
  intros [= <-]. eexists. reflexivity.
Qed.

Lemma check_allowed_commands_shape (rule : PolicyRule) (cmd : string)
    (patterns : list string) (v : Verdict) :
  check_allowed_commands host rule cmd patterns = Some v -> is_denial v.
Proof.
  unfold check_allowed_commands. destruct (negb _ && _); [|discriminate].
  intros [= <-]. eexists. reflexivity.
Qed.

Lemma check_time_shape (now : Date) (tr : TimeRestrictions) (v : Verdict) :
  check_time now tr = Some v -> is_denial v.
Proof.
  unfold check_time.
  destruct (startHour tr) as [s|], (endHour tr) as [e|];
    try destruct ((getHours now <? s) || (getHours now >=? e));
    try (intros [= <-]; eexists; reflexivity);
    destruct (daysOfWeek tr) as [days|]; try discriminate;
    destruct (negb _); try discriminate;
    intros [= <-]; eexists; reflexivity.
Qed.

(** The two ways the body of the loop ends for one rule. *)
Lemma rule_body_cases (now : Date) (act : ActionView) (rule : PolicyRule)
    (requires : bool) (out : Verdict + bool) :
  rule_body host now act rule requires = Some out ->
  match out with
  | inl v => is_denial v
  | inr requires' =>
      requires' = default requires (requiresApproval (conditions_of rule))
  end.
Proof.
  unfold rule_body. fold (conditions_of rule).
  set (c := conditions_of rule).
  destruct (match deniedFiles c, targets act with
            | Some patterns, Some tgts => scan_denied rule patterns tgts
            | _, _ => Some None
            end) as [[v|]|] eqn:D; cbn [mbind option_bind]; [| |discriminate].
  { intros [= <-]. destruct (deniedFiles c), (targets act); try discriminate.
    eapply scan_denied_shape, D. }
  destruct (match allowedFiles c, targets act with
            | Some patterns, Some tgts => scan_allowed rule patterns false tgts
            | _, _ => Some None
            end) as [[v|]|] eqn:A; cbn [mbind option_bind]; [| |discriminate].
  { intros [= <-]. destruct (allowedFiles c), (targets act); try discriminate.
    eapply scan_allowed_shape, A. }
  destruct (match deniedCommands c, truthy_string (command act) with
            | Some patterns, Some s => scan_denied_commands host rule s patterns
            | _, _ => None
            end) as [v|] eqn:DC.
  { intros [= <-].
    destruct (deniedCommands c), (truthy_string (command act)); try discriminate.
    eapply scan_denied_commands_shape, DC. }
  destruct (match allowedCommands c, truthy_string (command act) with
            | Some patterns, Some s => check_allowed_commands host rule s patterns
            | _, _ => None
            end) as [v|] eqn:AC.
  { intros [= <-].
    destruct (allowedCommands c), (truthy_string (command act)); try discriminate.
    eapply check_allowed_commands_shape, AC. }
  destruct (timeRestrictions c) as [tr|]; [|intros [= <-]; reflexivity].
  destruct (check_time now tr) as [v|] eqn:T; intros [= <-];
    [eapply check_time_shape, T|reflexivity].
Qed.

(** The loop over the matching rules ends with a denial or with the
    permission that carries the approval requirement of the last
    override. *)
Lemma over_rules_cases (now : Date) (act : ActionView)
    (matching : list PolicyRule) (requires : bool) (v : Verdict) :
  over_rules host now act matching requires = Some v ->
  is_denial v \/
  v = {| allowed := true; reason := None;
         approval := Some (approval_after matching requires) |}.
Proof.
  revert requires.
  induction matching as [|rule rest IH]; intros requires; cbn [over_rules].
  - intros [= <-]. right. reflexivity.
  - destruct (rule_body host now act rule requires) as [out|] eqn:B;
      cbn [mbind option_bind]; [|discriminate].
    pose proof (rule_body_cases _ _ _ _ _ B) as H. destruct out as [v'|requires'].
    + intros [= <-]. left. exact H.
    + subst requires'. intros Hv. apply IH in Hv. exact Hv.
Qed.

Lemma over_rules_blocked (now : Date) (act : ActionView)
    (matching : list PolicyRule) (rule : PolicyRule) (requires : bool)
    (v : Verdict) :
  In rule matching -> blocks host now act rule ->
  over_rules host now act matching requires = Some v ->
  is_denial v.
Proof.
  intros Hin Hb. revert requires.
  induction matching as [|r rest IH]; [destruct Hin|].
  intros requires. cbn [over_rules].
  destruct (rule_body host now act r requires) as [[v'|requires']|] eqn:B;
    cbn [mbind option_bind]; [| |discriminate].
  - intros [= <-]. exact (rule_body_cases _ _ _ _ _ B).
  - destruct Hin as [->|Hin]; [exfalso; eapply Hb, B|]. apply IH, Hin.
Qed.

Lemma scan_denied_hit (rule : PolicyRule) (patterns tgts : list string)
    (t p : string) :
  is_deny (effect rule) = true -> In t tgts -> In p patterns ->
  matchGlob t p = Some true ->
  scan_denied rule patterns tgts <> Some None.
Proof.
  intros Hd Ht Hp Hm.
  induction tgts as [|t' ts IH]; [destruct Ht|].
  cbn [scan_denied]. rewrite Hd.
  destruct (first_glob t' patterns) as [[p'|]|] eqn:F; cbn [mbind option_bind];
    [discriminate| |discriminate].
  destruct Ht as [->|Ht]; [|apply IH, Ht].
  rewrite (first_glob_none _ _ F p Hp) in Hm. discriminate.
Qed.

Lemma blocks_denied_file (now : Date) (act : ActionView) (rule : PolicyRule)
    (patterns tgts : list string) (t p : string) :
  effect rule = deny ->
  deniedFiles (conditions_of rule) = Some patterns ->
  targets act = Some tgts ->
  In t tgts -> In p patterns -> matchGlob t p = Some true ->
  blocks host now act rule.
Proof.
  intros He Hc Ht Hin Hp Hm requires requires'.
  unfold rule_body. fold (conditions_of rule). rewrite Hc, Ht.
  assert (Hd : is_deny (effect rule) = true) by (rewrite He; reflexivity).
  pose proof (scan_denied_hit rule patterns tgts t p Hd Hin Hp Hm) as Hs.
  destruct (scan_denied rule patterns tgts) as [[v|]|]; cbn [mbind option_bind];
    [discriminate|contradiction|discriminate].
Qed.

Lemma scan_denied_commands_hit (rule : PolicyRule) (cmd : string)
    (patterns : list string) (p : string) :
  is_deny (effect rule) = true -> In p patterns ->
  host p cmd = Some true ->
  scan_denied_commands host rule cmd patterns <> None.
Proof.
  intros Hd Hp Hm.
  induction patterns as [|q ps IH]; [destruct Hp|].
  cbn [scan_denied_commands]. rewrite Hd, andb_true_r.
  destruct (matchRegex host cmd q) eqn:M; [discriminate|].
  destruct Hp as [->|Hp]; [|apply IH, Hp].
  unfold matchRegex in M. rewrite Hm in M. discriminate.
Qed.

Lemma blocks_denied_command (now : Date) (act : ActionView) (rule : PolicyRule)
    (patterns : list string) (cmd p : string) :
  effect rule = deny ->
  deniedCommands (conditions_of rule) = Some patterns ->
  command act = Some cmd -> cmd <> "" ->
  In p patterns -> host p cmd = Some true ->
  blocks host now act rule.
Proof.
  intros He Hc Hcmd Hne Hp Hm requires requires' B.
  pose proof (rule_body_cases _ _ _ _ _ B) as _.
  revert B. unfold rule_body. fold (conditions_of rule).
  destruct (match deniedFiles (conditions_of rule), targets act with
            | Some patterns, Some tgts => scan_denied rule patterns tgts
            | _, _ => Some None
            end) as [[v|]|]; cbn [mbind option_bind]; try discriminate.
  destruct (match allowedFiles (conditions_of rule), targets act with
            | Some patterns, Some tgts => scan_allowed rule patterns false tgts
            | _, _ => Some None
            end) as [[v|]|]; cbn [mbind option_bind]; try discriminate.
  rewrite Hc, Hcmd.
  assert (Ht : truthy_string (Some cmd) = Some cmd).
  { destruct cmd; [contradiction|reflexivity]. }
  rewrite Ht.
  assert (Hd : is_deny (effect rule) = true) by (rewrite He; reflexivity).
  pose proof (scan_denied_commands_hit rule cmd patterns p Hd Hp Hm) as Hs.
  destruct (scan_denied_commands host rule cmd patterns); [discriminate|contradiction].
Qed.

Lemma check_time_outside (now : Date) (tr : TimeRestrictions) :
  outside_window now tr -> check_time now tr <> None.
Proof.
  unfold check_time.
  intros [(s & e & -> & -> & Hout)|(days & Hd & Hnot)].
  - assert (H : (getHours now <? s) || (getHours now >=? e) = true).
    { apply orb_true_iff. destruct Hout; [left; lia|right; lia]. }
    rewrite H. discriminate.
  - destruct (startHour tr) as [s|], (endHour tr) as [e|];
      try destruct ((getHours now <? s) || (getHours now >=? e));
      try discriminate; rewrite Hd;
      (assert (Hex : existsb (Z.eqb (getDay now)) days = false);
       [apply not_true_is_false; intros Hex; apply existsb_exists in Hex as (d & Hin & Heq);
        apply Z.eqb_eq in Heq; subst d; contradiction
       |rewrite Hex; discriminate]).
Qed.

Lemma blocks_outside_window (now : Date) (act : ActionView) (rule : PolicyRule)
    (tr : TimeRestrictions) :
  timeRestrictions (conditions_of rule) = Some tr ->
  outside_window now tr ->
  blocks host now act rule.
Proof.
  intros Hc Hout requires requires'.
  unfold rule_body. fold (conditions_of rule).
  destruct (match deniedFiles (conditions_of rule), targets act with
            | Some patterns, Some tgts => scan_denied rule patterns tgts
            | _, _ => Some None
            end) as [[v|]|]; cbn [mbind option_bind]; try discriminate.
  destruct (match allowedFiles (conditions_of rule), targets act with
            | Some patterns, Some tgts => scan_allowed rule patterns false tgts
            | _, _ => Some None
            end) as [[v|]|]; cbn [mbind option_bind]; try discriminate.
  destruct (match deniedCommands _, _ with
            | Some patterns, Some s => scan_denied_commands host rule s patterns
            | _, _ => None
            end); [discriminate|].
  destruct (match allowedCommands _, _ with
            | Some patterns, Some s => check_allowed_commands host rule s patterns
            | _, _ => None
            end); [discriminate|].
  rewrite Hc. pose proof (check_time_outside now tr Hout) as Ht.
  destruct (check_time now tr); [discriminate|contradiction].
Qed.

Lemma in_matching_rules (config : PolicyConfig) (act : ActionView) (rule : PolicyRule) :
  In rule (rules config) -> applies action (type act) rule = true ->
  In rule (matching_rules config act).
Proof. intros Hin Ha. apply filter_In. split; assumption. Qed.

(** A permissive rule lets the loop pass, when its patterns can be
    evaluated at all. *)
Lemma rule_body_permissive (now : Date) (act : ActionView) (rule : PolicyRule)
    (requires : bool) (v : Verdict) :
  permissive rule ->
  rule_body host now act rule requires <> Some (inl v).
Proof.
  intros [Ht He]. unfold rule_body. fold (conditions_of rule). rewrite Ht.
  destruct (effect rule) eqn:E.
  - destruct He as [-> ->].
    destruct (match deniedFiles (conditions_of rule), targets act with
              | Some patterns, Some tgts => scan_denied rule patterns tgts
              | _, _ => Some None
              end) as [[v'|]|] eqn:D; cbn [mbind option_bind]; try discriminate.
    { exfalso. destruct (deniedFiles (conditions_of rule)) as [ps|],
        (targets act) as [ts|]; try discriminate.
      clear - D E. induction ts as [|t ts IH]; [discriminate|].
      cbn [scan_denied] in D. rewrite E in D. cbn [is_deny] in D.
      destruct (every_glob t ps); cbn [mbind option_bind] in D;
        [apply IH, D|discriminate]. }
    assert (Hdc : match deniedCommands (conditions_of rule),
                        truthy_string (command act) with
                  | Some patterns, Some s =>
                      scan_denied_commands host rule s patterns
                  | _, _ => None
                  end = None).
    { destruct (deniedCommands (conditions_of rule)) as [ps|],
        (truthy_string (command act)) as [s|]; try reflexivity.
      clear - E. induction ps as [|p ps IH]; [reflexivity|].
      cbn [scan_denied_commands]. rewrite E. cbn [is_deny].
      rewrite andb_false_r. exact IH. }
    rewrite Hdc. destruct (targets act); discriminate.
  - destruct He as [Hdf Hdc]. rewrite Hdf, Hdc. cbn [mbind option_bind].
    destruct (match allowedFiles (conditions_of rule), targets act with
              | Some patterns, Some tgts => scan_allowed rule patterns false tgts
              | _, _ => Some None
              end) as [[v'|]|] eqn:A; cbn [mbind option_bind]; try discriminate.
    { exfalso. destruct (allowedFiles (conditions_of rule)) as [ps|],
        (targets act) as [ts|]; try discriminate.
      clear - A E. revert A. generalize false.
      induction ts as [|t ts IH]; intros b A; [discriminate|].
      cbn [scan_allowed] in A. rewrite E in A. cbn [is_allow] in A.
      destruct (first_glob t ps); cbn [mbind option_bind] in A;
        [|discriminate].
      rewrite andb_false_r in A. eapply IH, A. }
    + destruct (match allowedCommands (conditions_of rule),
                      truthy_string (command act) with
                | Some patterns, Some s =>
                    check_allowed_commands host rule s patterns
                | _, _ => None
                end) as [v'|] eqn:AC; [|discriminate].
      exfalso. destruct (allowedCommands (conditions_of rule)) as [ps|],
        (truthy_string (command act)) as [s|]; try discriminate.
      unfold check_allowed_commands in AC. rewrite E in AC. cbn [is_allow] in AC.
      rewrite andb_false_r in AC. discriminate.
Qed.

Lemma over_rules_permissive (now : Date) (act : ActionView)
    (matching : list PolicyRule) (requires : bool) (v : Verdict) :
  Forall permissive matching ->
  over_rules host now act matching requires = Some v ->
  v = {| allowed := true; reason := None;
         approval := Some (approval_after matching requires) |}.
Proof.
  intros Hall. revert requires.
  induction Hall as [|rule rest Hp _ IH]; intros requires; cbn [over_rules].
  - intros [= <-]. reflexivity.
  - destruct (rule_body host now act rule requires) as [[v'|requires']|] eqn:B;
      cbn [mbind option_bind]; [| |discriminate].
    + exfalso. eapply rule_body_permissive; eauto.
    + pose proof (rule_body_cases _ _ _ _ _ B) as ->. apply IH.
Qed.

End ActionFacts.

(** Closing a side condition at a concrete input. *)
Ltac settle :=
  first [ reflexivity | vm_compute; reflexivity | discriminate
        | cbn; auto 10 ].

(** X1.  A denied-file pattern of a [deny] rule cannot be outvoted: when
    some rule that applies to the action's type has effect [deny] and
    one of its denied patterns matches one of the targets, every verdict
    the check returns is a denial with a reason, whatever the other
    rules are and wherever the rule stands. *)
Theorem denied_file_is_denied
    (host : string -> string -> option bool)
    (config : PolicyEngine.PolicyConfig) (now : PolicyEngine.Date)
    (act : PolicyEngine.ActionView) (rule : PolicyEngine.PolicyRule)
    (patterns tgts : list string) (t p : string) (v : PolicyEngine.Verdict) :
  In rule (PolicyEngine.rules config) ->
  PolicyEngine.applies PolicyEngine.action (PolicyEngine.type act) rule = true ->
  PolicyEngine.effect rule = PolicyEngine.deny ->
  PolicyEngine.deniedFiles (conditions_of rule) = Some patterns ->
  PolicyEngine.targets act = Some tgts ->
  In t tgts -> In p patterns ->
  PolicyEngine.matchGlob t p = Some true ->
  PolicyEngine.checkAction host config now act = Some v ->
  PolicyEngine.allowed v = false /\ is_Some (PolicyEngine.reason v).
Proof.
  intros Hin Ha He Hc Ht Htin Hp Hm Hv.
  assert (Hd : is_denial v).
  { eapply over_rules_blocked; [apply in_matching_rules; eassumption| |exact Hv].
    eapply blocks_denied_file; eassumption. }
  destruct Hd as [why ->]. split; [reflexivity|]. cbn. eauto.
Qed.

Lemma denied_file_is_denied_witness :
  PolicyEngine.checkAction no_regexp PolicyEngine.getDefaultPolicy monday_3am
    (modify "config/server.pem")
  = Some (PolicyEngine.denied
       "File config/server.pem matches denied pattern **/*.pem (rule: deny-secrets)") /\
  PolicyEngine.allowed
    (PolicyEngine.denied
       "File config/server.pem matches denied pattern **/*.pem (rule: deny-secrets)")
  = false.
Proof.
  split; [vm_compute; reflexivity|].
  refine (proj1 (denied_file_is_denied no_regexp PolicyEngine.getDefaultPolicy
                   monday_3am (modify "config/server.pem")
                   (nth 0 (PolicyEngine.rules PolicyEngine.getDefaultPolicy)
                        allow_deploy)
                   ["**/.env"; "**/.env.*"; "**/secrets/**"; "**/credentials/**";
                    "**/*.key"; "**/*.pem"; "**/id_rsa*"]
                   ["config/server.pem"] "config/server.pem" "**/*.pem" _
                   _ _ _ _ _ _ _ _ _));
    settle.
Defined.

(** X2.  A denied-command pattern of a [deny] rule cannot be outvoted
    either: when the host's [RegExp] finds one of the rule's denied
    patterns in the (non-empty) command of the action, every verdict the
    check returns is a denial. *)
Theorem denied_command_is_denied
    (host : string -> string -> option bool)
    (config : PolicyEngine.PolicyConfig) (now : PolicyEngine.Date)
    (act : PolicyEngine.ActionView) (rule : PolicyEngine.PolicyRule)
    (patterns : list string) (cmd p : string) (v : PolicyEngine.Verdict) :
  In rule (PolicyEngine.rules config) ->
  PolicyEngine.applies PolicyEngine.action (PolicyEngine.type act) rule = true ->
  PolicyEngine.effect rule = PolicyEngine.deny ->
  PolicyEngine.deniedCommands (conditions_of rule) = Some patterns ->
  PolicyEngine.command act = Some cmd -> cmd <> "" ->
  In p patterns -> host p cmd = Some true ->
  PolicyEngine.checkAction host config now act = Some v ->
  PolicyEngine.allowed v = false /\ is_Some (PolicyEngine.reason v).
Proof.
  intros Hin Ha He Hc Hcmd Hne Hp Hm Hv.
  assert (Hd : is_denial v).
  { eapply over_rules_blocked; [apply in_matching_rules; eassumption| |exact Hv].
    eapply blocks_denied_command; eassumption. }
  destruct Hd as [why ->]. split; [reflexivity|]. cbn. eauto.
Qed.

Lemma denied_command_is_denied_witness :
  PolicyEngine.checkAction literal_host PolicyEngine.getDefaultPolicy monday_3am
    (run_command "sudo rm -rf / --no-preserve-root")
  = Some (PolicyEngine.denied
       "Command matches denied pattern rm -rf / (rule: deny-dangerous-commands)") /\
  PolicyEngine.allowed
    (PolicyEngine.denied
       "Command matches denied pattern rm -rf / (rule: deny-dangerous-commands)")
  = false.
Proof.
  split; [vm_compute; reflexivity|].
  refine (proj1 (denied_command_is_denied literal_host PolicyEngine.getDefaultPolicy
                   monday_3am (run_command "sudo rm -rf / --no-preserve-root")
                   (nth 1 (PolicyEngine.rules PolicyEngine.getDefaultPolicy)
                        allow_deploy)
                   ["rm -rf /"; "dd if="; "mkfs\."; "wget.*\|.*sh";
                    "curl.*\|.*bash"; ":(){ :|:& };:"; "chmod -R 777 /"]
                   "sudo rm -rf / --no-preserve-root" "rm -rf /" _
                   _ _ _ _ _ _ _ _ _));
    settle.
Defined.

(** X3.  A time restriction denies whatever the effect of its rule: when
    a rule that applies to the action's type carries a time restriction
    with both [startHour] and [endHour] set and the clock reads an hour
    before the one or at or after the other, or with [daysOfWeek] set and
    the clock reads a day that is not listed, every verdict the check
    returns is a denial. *)
Theorem outside_window_is_denied
    (host : string -> string -> option bool)
    (config : PolicyEngine.PolicyConfig) (now : PolicyEngine.Date)
    (act : PolicyEngine.ActionView) (rule : PolicyEngine.PolicyRule)
    (tr : PolicyEngine.TimeRestrictions) (v : PolicyEngine.Verdict) :
  In rule (PolicyEngine.rules config) ->
  PolicyEngine.applies PolicyEngine.action (PolicyEngine.type act) rule = true ->
  PolicyEngine.timeRestrictions (conditions_of rule) = Some tr ->
  outside_window now tr ->
  PolicyEngine.checkAction host config now act = Some v ->
  PolicyEngine.allowed v = false /\ is_Some (PolicyEngine.reason v).
Proof.
  intros Hin Ha Hc Hout Hv.
  assert (Hd : is_denial v).
  { eapply over_rules_blocked; [apply in_matching_rules; eassumption| |exact Hv].
    eapply blocks_outside_window; eassumption. }
  destruct Hd as [why ->]. split; [reflexivity|]. cbn. eauto.
Qed.

Lemma outside_window_is_denied_witness :
  outside_window sunday_10h
    {| PolicyEngine.startHour := Some 9; PolicyEngine.endHour := Some 17;
       PolicyEngine.daysOfWeek := Some [1; 2; 3; 4; 5] |} /\
  PolicyEngine.checkAction no_regexp office_hours sunday_10h delete_tmp
  = Some (PolicyEngine.denied "Action not allowed on this day of week") /\
  PolicyEngine.allowed (PolicyEngine.denied "Action not allowed on this day of week")
  = false.
Proof.
  assert (Hout : outside_window sunday_10h
    {| PolicyEngine.startHour := Some 9; PolicyEngine.endHour := Some 17;
       PolicyEngine.daysOfWeek := Some [1; 2; 3; 4; 5] |}).
  { right. exists [1; 2; 3; 4; 5]. split; [reflexivity|].
    cbn. intros [H|[H|[H|[H|[H|[]]]]]]; discriminate H. }
  split; [exact Hout|]. split; [vm_compute; reflexivity|].
  refine (proj1 (outside_window_is_denied no_regexp office_hours sunday_10h
                   delete_tmp
                   (nth 0 (PolicyEngine.rules office_hours) allow_deploy)
                   _ _ _ _ _ Hout _));
    settle.
Defined.

(** X4.  The approval requirement of a permission is the last override:
    when the check allows, the verdict has no reason and its
    [requiresApproval] is the value of the last rule, in registration
    order, that applies to the action's type and specifies one, and the
    configured default when no such rule does. *)
Theorem allowed_action_takes_last_override
    (host : string -> string -> option bool)
    (config : PolicyEngine.PolicyConfig) (now : PolicyEngine.Date)
    (act : PolicyEngine.ActionView) (v : PolicyEngine.Verdict) :
  PolicyEngine.checkAction host config now act = Some v ->
  PolicyEngine.allowed v = true ->
  PolicyEngine.reason v = None /\
  PolicyEngine.approval v =
    Some (approval_after (matching_rules config act)
                         (PolicyEngine.defaultRequiresApproval config)).
Proof.
  intros Hv Ha. apply over_rules_cases in Hv as [[why ->]| ->].
  - discriminate Ha.
  - split; reflexivity.
Qed.

Lemma allowed_action_takes_last_override_witness :
  PolicyEngine.checkAction no_regexp two_overrides monday_3am show_message
  = Some {| PolicyEngine.allowed := true; PolicyEngine.reason := None;
            PolicyEngine.approval := Some false |} /\
  PolicyEngine.defaultRequiresApproval two_overrides = true /\
  PolicyEngine.approval
    {| PolicyEngine.allowed := true; PolicyEngine.reason := None;
       PolicyEngine.approval := Some false |}
  = Some (approval_after (matching_rules two_overrides show_message)
                         (PolicyEngine.defaultRequiresApproval two_overrides)).
Proof.
  split; [vm_compute; reflexivity|]. split; [reflexivity|].
  apply (allowed_action_takes_last_override no_regexp two_overrides
           monday_3am show_message); settle.
Defined.

(** X5.  The default effect is never consulted: none of the three
    checks changes its answer when [defaultEffect] is changed, whatever
    the rules and the subject.  In particular an action whose type no
    rule applies to is allowed, with the configured default approval
    requirement, also when [defaultEffect] is [deny]; and rules that
    cannot deny (an [allow] rule without whitelist, a [deny] rule without
    blacklist, neither with a time restriction) never produce a denial,
    whatever their other lists hold. *)
Theorem defaultEffect_is_never_consulted
    (host : string -> string -> option bool)
    (config : PolicyEngine.PolicyConfig) (now : PolicyEngine.Date)
    (act : PolicyEngine.ActionView) :
  (forall e name,
      PolicyEngine.checkAction host (with_defaultEffect config e) now act
      = PolicyEngine.checkAction host config now act /\
      PolicyEngine.checkPipeline (with_defaultEffect config e) name
      = PolicyEngine.checkPipeline config name /\
      PolicyEngine.checkStep (with_defaultEffect config e) name
      = PolicyEngine.checkStep config name) /\
  (Forall (fun r => PolicyEngine.applies PolicyEngine.action
                      (PolicyEngine.type act) r = false)
          (PolicyEngine.rules config) ->
   PolicyEngine.checkAction host config now act
   = Some {| PolicyEngine.allowed := true; PolicyEngine.reason := None;
             PolicyEngine.approval :=
               Some (PolicyEngine.defaultRequiresApproval config) |}) /\
  (forall v,
      Forall permissive (matching_rules config act) ->
      PolicyEngine.checkAction host config now act = Some v ->
      PolicyEngine.allowed v = true).
Proof.
  split; [|split].
  - intros e name. repeat split.
  - intros Hnone. unfold PolicyEngine.checkAction.
    assert (Hf : List.filter (PolicyEngine.applies PolicyEngine.action
                                (PolicyEngine.type act))
                             (PolicyEngine.rules config) = []).
    { induction Hnone as [|r rs Hr _ IH]; [reflexivity|].
      cbn [List.filter]. rewrite Hr. exact IH. }
    rewrite Hf. reflexivity.
  - intros v Hall Hv. apply over_rules_permissive in Hv; [|exact Hall].
    subst v. reflexivity.
Qed.

Lemma defaultEffect_is_never_consulted_witness :
  PolicyEngine.defaultEffect two_overrides = PolicyEngine.deny /\
  PolicyEngine.checkAction no_regexp
    (with_defaultEffect PolicyEngine.getDefaultPolicy PolicyEngine.deny)
    monday_3am (create ["src/main.js"])
  = PolicyEngine.checkAction no_regexp PolicyEngine.getDefaultPolicy
      monday_3am (create ["src/main.js"]) /\
  PolicyEngine.checkAction no_regexp two_overrides monday_3am commit_changes
  = Some {| PolicyEngine.allowed := true; PolicyEngine.reason := None;
            PolicyEngine.approval := Some true |} /\
  PolicyEngine.allowed
    {| PolicyEngine.allowed := true; PolicyEngine.reason := None;
       PolicyEngine.approval := Some false |} = true.
Proof.
  split; [reflexivity|]. split; [|split].
  - apply (proj1 (defaultEffect_is_never_consulted no_regexp
                    PolicyEngine.getDefaultPolicy monday_3am
                    (create ["src/main.js"]))
             PolicyEngine.deny "deploy").
  - apply (proj1 (proj2 (defaultEffect_is_never_consulted no_regexp two_overrides
                           monday_3am commit_changes))).
    repeat constructor.
  - apply (proj2 (proj2 (defaultEffect_is_never_consulted no_regexp two_overrides
                           monday_3am show_message))).
    + repeat constructor.
    + vm_compute. reflexivity.
Defined.

(* ===================================================================== *)
(** * Properties of rule management *)
(* ===================================================================== *)

Section RuleFacts.

Import PolicyEngine RuleManagement.

Variable host : string -> string -> option bool.

Lemma findIndex_none (ruleId : string) (rs : list PolicyRule) :
  findIndex ruleId rs = None <-> Forall (fun r => id r <> ruleId) rs.
Proof.
  induction rs as [|r rs IH]; cbn [findIndex].
  - split; [constructor|reflexivity].
  - destruct (String.eqb (id r) ruleId) eqn:E.
    + apply String.eqb_eq in E. split; [discriminate|].
      intros H. inversion H; subst. contradiction.
    + apply String.eqb_neq in E. destruct (findIndex ruleId rs) eqn:F; cbn.
      * split; [discriminate|]. intros H. inversion H as [|? ? _ Hrs]; subst.
        apply IH in Hrs. discriminate.
      * split; [|reflexivity]. intros _. constructor; [exact E|].
        apply IH. reflexivity.
Qed.

Lemma findIndex_some (ruleId : string) (rs : list PolicyRule) (index : nat) :
  findIndex ruleId rs = Some index ->
  exists before r after,
    rs = before ++ r :: after /\ id r = ruleId /\
    Forall (fun r' => id r' <> ruleId) before /\
    length before = index /\
    splice1 index rs = before ++ after.
Proof.
  revert index. induction rs as [|r rs IH]; intros index; cbn [findIndex];
    [discriminate|].
  destruct (String.eqb (id r) ruleId) eqn:E.
  - intros [= <-]. apply String.eqb_eq in E.
    exists [], r, rs. repeat split; [exact E|constructor].
  - apply String.eqb_neq in E.
    destruct (findIndex ruleId rs) as [k|]; cbn; [|discriminate].
    intros [= <-].
    destruct (IH k eq_refl) as (before & r0 & after & -> & Hid & Hb & Hl & Hs).
    exists (r :: before), r0, after. cbn. rewrite Hs, Hl.
    repeat split; [exact Hid|]. constructor; assumption.
Qed.

Lemma findIndex_app_first (ruleId : string) (rs more : list PolicyRule)
    (index : nat) :
  findIndex ruleId rs = Some index ->
  findIndex ruleId (rs ++ more) = Some index.
Proof.
  revert index. induction rs as [|r rs IH]; intros index; cbn [findIndex app];
    [discriminate|].
  destruct (String.eqb (id r) ruleId); [intros H; exact H|].
  destruct (findIndex ruleId rs) as [k|]; cbn; [|discriminate].
  intros [= <-]. rewrite (IH k eq_refl). reflexivity.
Qed.

Lemma findIndex_app_last (rule : PolicyRule) (rs : list PolicyRule) :
  findIndex (id rule) rs = None ->
  findIndex (id rule) (rs ++ [rule]) = Some (length rs) /\
  splice1 (length rs) (rs ++ [rule]) = rs.
Proof.
  induction rs as [|r rs IH]; cbn [findIndex app length splice1].
  - intros _. rewrite String.eqb_refl. split; reflexivity.
  - destruct (String.eqb (id r) (id rule)); [discriminate|].
    destruct (findIndex (id rule) rs); cbn; [discriminate|].
    intros _. destruct (IH eq_refl) as [-> ->]. split; reflexivity.
Qed.

Lemma splice1_app (index : nat) (rs more : list PolicyRule) :
  (index < length rs)%nat ->
  splice1 index (rs ++ more) = splice1 index rs ++ more.
Proof.
  revert index. induction rs as [|r rs IH]; intros index; cbn [length];
    [lia|].
  destruct index; [reflexivity|]. intros H. cbn [app splice1].
  rewrite IH by lia. reflexivity.
Qed.

(** Whether the body of the loop passes for a rule does not depend on
    the approval requirement it is entered with. *)
Lemma rule_body_passes (now : Date) (act : ActionView) (rule : PolicyRule)
    (requires requires' other : bool) :
  rule_body host now act rule requires = Some (inr requires') ->
  rule_body host now act rule other
  = Some (inr (default other (requiresApproval (conditions_of rule)))).
Proof.
  unfold rule_body. fold (conditions_of rule).
  destruct (match deniedFiles (conditions_of rule), targets act with
            | Some patterns, Some tgts => scan_denied rule patterns tgts
            | _, _ => Some None
            end) as [[v|]|]; cbn [mbind option_bind]; try discriminate.
  destruct (match allowedFiles (conditions_of rule), targets act with
            | Some patterns, Some tgts => scan_allowed rule patterns false tgts
            | _, _ => Some None
            end) as [[v|]|]; cbn [mbind option_bind]; try discriminate.
  destruct (match deniedCommands _, _ with
            | Some patterns, Some s => scan_denied_commands host rule s patterns
            | _, _ => None
            end); [discriminate|].
  destruct (match allowedCommands _, _ with
            | Some patterns, Some s => check_allowed_commands host rule s patterns
            | _, _ => None
            end); [discriminate|].
  destruct (timeRestrictions (conditions_of rule)) as [tr|]; [|reflexivity].
  destruct (check_time now tr); [discriminate|reflexivity].
Qed.

Lemma rule_body_denies (now : Date) (act : ActionView) (rule : PolicyRule)
    (requires other : bool) (v : Verdict) :
  rule_body host now act rule requires = Some (inl v) ->
  rule_body host now act rule other = Some (inl v).
Proof.
  unfold rule_body. fold (conditions_of rule).
  destruct (match deniedFiles (conditions_of rule), targets act with
            | Some patterns, Some tgts => scan_denied rule patterns tgts
            | _, _ => Some None
            end) as [[v0|]|]; cbn [mbind option_bind]; try tauto.
  destruct (match allowedFiles (conditions_of rule), targets act with
            | Some patterns, Some tgts => scan_allowed rule patterns false tgts
            | _, _ => Some None
            end) as [[v0|]|]; cbn [mbind option_bind]; try tauto.
  destruct (match deniedCommands _, _ with
            | Some patterns, Some s => scan_denied_commands host rule s patterns
            | _, _ => None
            end); [tauto|].
  destruct (match allowedCommands _, _ with
            | Some patterns, Some s => check_allowed_commands host rule s patterns
            | _, _ => None
            end); [tauto|].
  destruct (timeRestrictions (conditions_of rule)) as [tr|]; [|discriminate].
  destruct (check_time now tr); [tauto|discriminate].
Qed.

(** A denial found among the first rules stands when rules follow. *)
Lemma over_rules_app_denial (now : Date) (act : ActionView)
    (matching more : list PolicyRule) (requires : bool) (v : Verdict) :
  over_rules host now act matching requires = Some v ->
  allowed v = false ->
  over_rules host now act (matching ++ more) requires = Some v.
Proof.
  revert requires. induction matching as [|r rest IH]; intros requires;
    cbn [over_rules app].
  - intros [= <-]. discriminate.
  - destruct (rule_body host now act r requires) as [[v'|requires']|];
      cbn [mbind option_bind]; [tauto| |discriminate].
    apply IH.
Qed.

(** Every rule of a permitted check passes. *)
Lemma over_rules_allowed_passes (now : Date) (act : ActionView)
    (matching : list PolicyRule) (requires : bool) (v : Verdict) :
  over_rules host now act matching requires = Some v ->
  allowed v = true ->
  Forall (fun r => exists a b, rule_body host now act r a = Some (inr b)) matching.
Proof.
  revert requires. induction matching as [|r rest IH]; intros requires;
    cbn [over_rules]; [constructor|].
  destruct (rule_body host now act r requires) as [[v'|requires']|] eqn:B;
    cbn [mbind option_bind]; [| |discriminate].
  - intros [= <-] Ha. destruct (rule_body_cases host _ _ _ _ _ B) as [why ->].
    discriminate Ha.
  - intros Hv Ha. constructor; [eauto|]. eapply IH; eassumption.
Qed.

Lemma over_rules_of_passes (now : Date) (act : ActionView)
    (matching : list PolicyRule) (requires : bool) :
  Forall (fun r => exists a b, rule_body host now act r a = Some (inr b)) matching ->
  over_rules host now act matching requires
  = Some {| allowed := true; reason := None;
            approval := Some (approval_after matching requires) |}.
Proof.
  intros H. revert requires.
  induction H as [|r rest (a & b & Hr) _ IH]; intros requires; cbn [over_rules];
    [reflexivity|].
  rewrite (rule_body_passes _ _ _ _ _ requires Hr). cbn [mbind option_bind].
  apply IH.
Qed.

Lemma filter_splice1 (f : PolicyRule -> bool) (P : PolicyRule -> Prop)
    (index : nat) (rs : list PolicyRule) :
  Forall P (List.filter f rs) -> Forall P (List.filter f (splice1 index rs)).
Proof.
  revert index. induction rs as [|r rs IH]; intros index;
    [destruct index; intros H; exact H|].
  destruct index; cbn [splice1 List.filter].
  - destruct (f r); [|tauto]. intros H. by inversion H.
  - destruct (f r); [|apply IH].
    intros H. inversion H; subst. constructor; [assumption|]. by apply IH.
Qed.

End RuleFacts.

(** X6. [removeRule] removes the first rule that carries the id and no
    other, and answers [true]; when no rule carries it, the policy is
    left as it is and the answer is [false].  Later rules with the same
    id stay. *)
Theorem removeRule_removes_first_namesake
    (config : PolicyEngine.PolicyConfig) (ruleId : string) :
  (exists before r after,
      PolicyEngine.rules config = before ++ r :: after /\
      PolicyEngine.id r = ruleId /\
      Forall (fun r' => PolicyEngine.id r' <> ruleId) before /\
      RuleManagement.removeRule config ruleId
      = (RuleManagement.with_rules config (before ++ after), true)) \/
  (Forall (fun r => PolicyEngine.id r <> ruleId) (PolicyEngine.rules config) /\
   RuleManagement.removeRule config ruleId = (config, false)).
Proof.
  unfold RuleManagement.removeRule.
  destruct (RuleManagement.findIndex ruleId (PolicyEngine.rules config))
    as [index|] eqn:F.
  - left. destruct (findIndex_some _ _ _ F)
      as (before & r & after & Hr & Hid & Hb & _ & Hs).
    exists before, r, after. rewrite Hs. auto.
  - right. split; [|reflexivity]. by apply findIndex_none.
Qed.

(** X7. Adding a rule and then removing its id gives back the policy
    when no rule had that id; when one had, the older rule is the one
    removed and the new rule stays at the end. *)
Theorem addRule_then_removeRule
    (config : PolicyEngine.PolicyConfig) (rule : PolicyEngine.PolicyRule) :
  PolicyEngine.id rule <> "" ->
  exists added,
    RuleManagement.addRule config rule = Js.Ok added /\
    PolicyEngine.rules added = PolicyEngine.rules config ++ [rule] /\
    (Forall (fun r => PolicyEngine.id r <> PolicyEngine.id rule)
            (PolicyEngine.rules config) ->
     RuleManagement.removeRule added (PolicyEngine.id rule) = (config, true)) /\
    (forall before r after,
        PolicyEngine.rules config = before ++ r :: after ->
        PolicyEngine.id r = PolicyEngine.id rule ->
        Forall (fun r' => PolicyEngine.id r' <> PolicyEngine.id rule) before ->
        RuleManagement.removeRule added (PolicyEngine.id rule)
        = (RuleManagement.with_rules config (before ++ after ++ [rule]), true)).
Proof.
  intros Hid. unfold RuleManagement.addRule.
  destruct (String.eqb (PolicyEngine.id rule) "") eqn:E;
    [apply String.eqb_eq in E; contradiction|].
  eexists. split; [reflexivity|]. split; [reflexivity|]. split.
  - intros Hno. apply findIndex_none in Hno.
    destruct (findIndex_app_last _ _ Hno) as [Hf Hs].
    unfold RuleManagement.removeRule. cbn [PolicyEngine.rules RuleManagement.with_rules].
    rewrite Hf, Hs. by destruct config.
  - intros before r after Hr Hsame Hb.
    assert (F : RuleManagement.findIndex (PolicyEngine.id rule)
                  (PolicyEngine.rules config) = Some (length before)).
    { destruct (RuleManagement.findIndex (PolicyEngine.id rule)
                  (PolicyEngine.rules config)) as [k|] eqn:F.
      - destruct (findIndex_some _ _ _ F)
          as (b' & r' & a' & Hr' & Hid' & Hb' & Hl & _).
        rewrite Hr in Hr'. subst k. f_equal.
        clear - Hr' Hb Hb' Hsame Hid'.
        revert b' Hr' Hb'. induction before as [|x before IH]; intros b' Hr' Hb'.
        + destruct b' as [|y b']; [reflexivity|].
          cbn in Hr'. injection Hr' as -> _.
          inversion Hb'; subst. contradiction.
        + destruct b' as [|y b'].
          * cbn in Hr'. injection Hr' as -> _.
            inversion Hb; subst. contradiction.
          * cbn in Hr'. injection Hr' as -> Hr'. cbn. f_equal.
            inversion Hb; inversion Hb'; subst. by apply IH.
      - apply findIndex_none in F. rewrite Hr in F.
        apply Forall_app in F as [_ F]. inversion F; subst. contradiction. }
    unfold RuleManagement.removeRule. cbn [PolicyEngine.rules RuleManagement.with_rules].
    rewrite (findIndex_app_first _ _ [rule] _ F).
    destruct (findIndex_some _ _ _ F) as (b' & r' & a' & Hr' & _ & _ & Hl & Hs).
    rewrite splice1_app by (rewrite Hr, length_app; cbn; lia).
    f_equal. f_equal. rewrite Hr. clear.
    induction before as [|x before IH]; cbn; [reflexivity|].
    by rewrite IH.
Qed.

Lemma addRule_then_removeRule_witness :
  exists added,
    RuleManagement.addRule PolicyEngine.getDefaultPolicy allow_modify
    = Js.Ok added /\
    RuleManagement.removeRule added "allow-modify"
    = (PolicyEngine.getDefaultPolicy, true).
Proof.
  destruct (addRule_then_removeRule PolicyEngine.getDefaultPolicy allow_modify)
    as (added & Ha & _ & Hfresh & _); [discriminate|].
  exists added. split; [exact Ha|]. apply Hfresh.
  repeat constructor; discriminate.
Defined.

(** X8. Adding a rule never lifts a denial: an action the policy denies
    is denied with the same reason after any rule is added. *)
Theorem addRule_keeps_denials
    (host : string -> string -> option bool)
    (config added : PolicyEngine.PolicyConfig) (rule : PolicyEngine.PolicyRule)
    (now : PolicyEngine.Date) (act : PolicyEngine.ActionView)
    (v : PolicyEngine.Verdict) :
  RuleManagement.addRule config rule = Js.Ok added ->
  PolicyEngine.checkAction host config now act = Some v ->
  PolicyEngine.allowed v = false ->
  PolicyEngine.checkAction host added now act = Some v.
Proof.
  unfold RuleManagement.addRule.
  destruct (String.eqb (PolicyEngine.id rule) ""); [discriminate|].
  intros [= <-] Hv Hd. unfold PolicyEngine.checkAction in *.
  cbn [PolicyEngine.rules PolicyEngine.defaultRequiresApproval
       RuleManagement.with_rules].
  rewrite List.filter_app. by apply over_rules_app_denial.
Qed.

Lemma addRule_keeps_denials_witness :
  PolicyEngine.checkAction no_regexp
    (RuleManagement.with_rules PolicyEngine.getDefaultPolicy
       (PolicyEngine.rules PolicyEngine.getDefaultPolicy ++ [allow_modify]))
    monday_3am (modify "config/server.pem")
  = Some (PolicyEngine.denied
            "File config/server.pem matches denied pattern **/*.pem (rule: deny-secrets)").
Proof.
  apply (addRule_keeps_denials no_regexp PolicyEngine.getDefaultPolicy _
           allow_modify); settle.
Defined.

(** X9. Removing a rule never forbids: an action the policy permits is
    permitted after any rule is removed, with the approval requirement
    the rules that are left give. *)
Theorem removeRule_keeps_permissions
    (host : string -> string -> option bool)
    (config : PolicyEngine.PolicyConfig) (ruleId : string)
    (now : PolicyEngine.Date) (act : PolicyEngine.ActionView)
    (v : PolicyEngine.Verdict) :
  PolicyEngine.checkAction host config now act = Some v ->
  PolicyEngine.allowed v = true ->
  let left := fst (RuleManagement.removeRule config ruleId) in
  PolicyEngine.checkAction host left now act
  = Some {| PolicyEngine.allowed := true; PolicyEngine.reason := None;
            PolicyEngine.approval :=
              Some (approval_after (matching_rules left act)
                      (PolicyEngine.defaultRequiresApproval config)) |}.
Proof.
  intros Hv Ha. cbn zeta. unfold PolicyEngine.checkAction in *.
  pose proof (over_rules_allowed_passes host _ _ _ _ _ Hv Ha) as Hp.
  unfold RuleManagement.removeRule.
  destruct (RuleManagement.findIndex ruleId (PolicyEngine.rules config))
    as [index|]; cbn [fst PolicyEngine.rules PolicyEngine.defaultRequiresApproval
                      RuleManagement.with_rules].
  - apply over_rules_of_passes. by apply filter_splice1.
  - by apply over_rules_of_passes.
Qed.

Lemma removeRule_keeps_permissions_witness :
  PolicyEngine.checkAction no_regexp
    (fst (RuleManagement.removeRule two_overrides "silent"))
    monday_3am show_message
  = Some {| PolicyEngine.allowed := true; PolicyEngine.reason := None;
            PolicyEngine.approval := Some true |}.
Proof.
  apply (removeRule_keeps_permissions no_regexp two_overrides "silent"
           monday_3am show_message
           {| PolicyEngine.allowed := true; PolicyEngine.reason := None;
              PolicyEngine.approval := Some false |}); settle.
Defined.

(** X10. For pipelines and agents the first applicable rule decides, so
    an added rule changes the verdict of a name only when no earlier
    rule applies to it; then the added rule alone decides. *)
Theorem addRule_decides_only_unruled_names
    (config added : PolicyEngine.PolicyConfig) (rule : PolicyEngine.PolicyRule)
    (name : string) :
  RuleManagement.addRule config rule = Js.Ok added ->
  PolicyEngine.checkPipeline added name
  = (if existsb (PolicyEngine.applies PolicyEngine.pipeline name)
                (PolicyEngine.rules config)
     then PolicyEngine.checkPipeline config name
     else PolicyEngine.checkPipeline (RuleManagement.with_rules config [rule]) name)
  /\
  PolicyEngine.checkStep added name
  = (if existsb (PolicyEngine.applies PolicyEngine.agent name)
                (PolicyEngine.rules config)
     then PolicyEngine.checkStep config name
     else PolicyEngine.checkStep (RuleManagement.with_rules config [rule]) name).
Proof.
  unfold RuleManagement.addRule.
  destruct (String.eqb (PolicyEngine.id rule) ""); [discriminate|].
  intros [= <-].
  assert (F : forall f (rs : list PolicyEngine.PolicyRule) more,
             List.find f (rs ++ more)
             = if existsb f rs then List.find f rs else List.find f more).
  { intros f rs more. induction rs as [|r rs IH]; cbn; [reflexivity|].
    destruct (f r); [reflexivity|exact IH]. }
  unfold PolicyEngine.checkPipeline, PolicyEngine.checkStep.
  cbn [PolicyEngine.rules RuleManagement.with_rules]. rewrite !F.
  split.
  - by destruct (existsb _ (PolicyEngine.rules config)).
  - by destruct (existsb _ (PolicyEngine.rules config)).
Qed.

Lemma addRule_decides_only_unruled_names_witness :
  PolicyEngine.allowed
    (PolicyEngine.checkPipeline
       (RuleManagement.with_rules allow_then_deny
          (PolicyEngine.rules allow_then_deny ++ [deny_deploy])) "deploy")
  = true.
Proof.
  rewrite (proj1 (addRule_decides_only_unruled_names allow_then_deny _
                    deny_deploy "deploy" eq_refl)).
  reflexivity.
Defined.

(* ===================================================================== *)
(** * The glob matcher, piece by piece *)
(* ===================================================================== *)

Section GlobReading.

Import PolicyEngine Glob.

(** ** The chain of replacements *)

Lemma regexPattern_doublestar (r : string) :
  regexPattern (String "*" (String "*" r)) = ".*" +:+ regexPattern r.
Proof. reflexivity. Qed.

Lemma regexPattern_last_star :
  regexPattern "*" = "[^/]*".
Proof. reflexivity. Qed.

Lemma regexPattern_question (r : string) :
  regexPattern (String "?" r) = "." +:+ regexPattern r.
Proof. reflexivity. Qed.

Lemma regexPattern_dot (r : string) :
  regexPattern (String "." r) = "\." +:+ regexPattern r.
Proof. reflexivity. Qed.

Lemma startsWith_other (a c : ascii) (p s : string) :
  Ascii.eqb a c = false -> JsString.startsWith (String a p) (String c s) = false.
Proof. intros H. cbn. by rewrite H. Qed.

Lemma replaceAll_other (a c : ascii) (p rep s : string) :
  Ascii.eqb a c = false ->
  JsString.replaceAll (String a p) rep (String c s)
  = String c (JsString.replaceAll (String a p) rep s).
Proof. intros H. by rewrite replaceAll_cons, startsWith_other. Qed.

Lemma regexPattern_char (c : ascii) (r : string) :
  Ascii.eqb c "." = false -> Ascii.eqb c "*" = false ->
  Ascii.eqb c "?" = false -> Ascii.eqb c "167" = false ->
  regexPattern (String c r) = String c (regexPattern r).
Proof.
  intros H1 H2 H3 H4. unfold regexPattern. cbn zeta.
  rewrite Ascii.eqb_sym in H1, H2, H3, H4.
  unfold placeholder.
  by rewrite !replaceAll_other.
Qed.

Lemma regexPattern_star (d : ascii) (r : string) :
  Ascii.eqb d "*" = false ->
  regexPattern (String "*" (String d r))
  = "[^/]*" +:+ regexPattern (String d r).
Proof.
  intros Hd. unfold regexPattern. cbn zeta.
  rewrite (replaceAll_other "." "*") by reflexivity.
  assert (H : exists e rest,
             JsString.replaceAll "." "\." (String d r) = String e rest /\
             Ascii.eqb e "*" = false).
  { rewrite replaceAll_cons. destruct (JsString.startsWith "." (String d r)).
    - by exists "\"%char, (String "." (JsString.replaceAll_from "." "\." 0 r)).
    - by exists d, (JsString.replaceAll "." "\." r). }
  destruct H as (e & rest & -> & He).
  rewrite (replaceAll_cons "**").
  change (JsString.startsWith "**" (String "*" (String e rest)))
    with (Ascii.eqb "*" "*" && (Ascii.eqb "*" e && true)).
  rewrite (Ascii.eqb_sym "*" e), He. reflexivity.
Qed.

Lemma plain_char_cases (c : ascii) :
  plain_char c = true ->
  c = "."%char \/ c = "*"%char \/ c = "?"%char \/
  (Ascii.eqb c "." = false /\ Ascii.eqb c "*" = false /\
   Ascii.eqb c "?" = false /\ Ascii.eqb c "167" = false /\
   RegExp.is_meta c = false).
Proof.
  unfold plain_char. intros H.
  destruct (Ascii.eqb c ".") eqn:E1; [apply Ascii.eqb_eq in E1; auto|].
  destruct (Ascii.eqb c "*") eqn:E2; [apply Ascii.eqb_eq in E2; auto|].
  destruct (Ascii.eqb c "?") eqn:E3; [apply Ascii.eqb_eq in E3; auto|].
  cbn in H. apply andb_true_iff in H as [Hm Hs].
  apply negb_true_iff in Hm, Hs. auto 10.
Qed.

(** The induction that follows [parse]. *)
Lemma parse_ind (P : string -> Prop) :
  P EmptyString ->
  P (String "*" EmptyString) ->
  (forall r, P r -> P (String "*" (String "*" r))) ->
  (forall d r, Ascii.eqb d "*" = false -> P (String d r) ->
               P (String "*" (String d r))) ->
  (forall c r, Ascii.eqb c "*" = false -> P r -> P (String c r)) ->
  forall s, P s.
Proof.
  intros H0 H1 H2 H3 H4.
  assert (H : forall n s, (String.length s <= n)%nat -> P s).
  { induction n as [|n IH]; intros s Hn.
    - destruct s; [exact H0|cbn in Hn; lia].
    - destruct s as [|c r]; [exact H0|]. cbn in Hn.
      destruct (Ascii.eqb c "*") eqn:E.
      + apply Ascii.eqb_eq in E as ->.
        destruct r as [|d r']; [exact H1|]. cbn in Hn.
        destruct (Ascii.eqb d "*") eqn:E'.
        * apply Ascii.eqb_eq in E' as ->. apply H2, IH. lia.
        * apply H3; [exact E'|]. apply IH. cbn. lia.
      + apply H4; [exact E|]. apply IH. lia. }
  intros s. by apply (H (String.length s)).
Qed.

Lemma parse_cons (c : ascii) (r : string) :
  parse (String c r) =
  if Ascii.eqb c "*" then
    match r with
    | String d r' =>
        if Ascii.eqb d "*" then DoubleStar :: parse r' else Star :: parse r
    | EmptyString => [Star]
    end
  else if Ascii.eqb c "?" then Question :: parse r
  else Char c :: parse r.
Proof. reflexivity. Qed.

Lemma parse_star_other (d : ascii) (r : string) :
  Ascii.eqb d "*" = false ->
  parse (String "*" (String d r)) = Star :: parse (String d r).
Proof.
  intros H. rewrite (parse_cons "*" (String d r)).
  change (Ascii.eqb "*" "*") with true. cbn iota. by rewrite H.
Qed.

Lemma parse_char (c : ascii) (r : string) :
  Ascii.eqb c "*" = false -> Ascii.eqb c "?" = false ->
  parse (String c r) = Char c :: parse r.
Proof. intros H1 H2. by rewrite parse_cons, H1, H2. Qed.

(** The expression generated for a pattern is the rendering of its
    pieces, whatever the pattern holds but the section sign. *)
Lemma regexPattern_source (pattern : string) :
  plain pattern = true ->
  regexPattern pattern = source (parse pattern) /\
  forallb plain_piece (parse pattern) = true.
Proof.
  induction pattern as [| |r IH|d r Hd IH|c r Hc IH] using parse_ind.
  - by intros _.
  - by intros _.
  - intros H. cbn in H. destruct (IH H) as [IH1 IH2].
    rewrite regexPattern_doublestar, IH1. by split.
  - intros H. change (plain (String "*" (String d r)))
      with (plain (String d r)) in H.
    destruct (IH H) as [IH1 IH2].
    rewrite (regexPattern_star _ _ Hd), IH1, (parse_star_other _ _ Hd).
    by split.
  - intros H. cbn [plain] in H. apply andb_true_iff in H as [Hp H].
    destruct (IH H) as [IH1 IH2].
    destruct (plain_char_cases _ Hp) as [->| [->| [->| (E1 & E2 & E3 & E4 & E5)]]].
    + rewrite regexPattern_dot, IH1. by split.
    + discriminate Hc.
    + rewrite regexPattern_question, IH1. by split.
    + rewrite (regexPattern_char _ _ E1 E2 E3 E4), IH1, (parse_char _ _ E2 E3).
      cbn [source render forallb plain_piece].
      rewrite E1, E5, E4, IH2. by split.
Qed.

(** ** The expression read back *)

Lemma lex_render (p : piece) (rest : string) :
  plain_piece p = true ->
  RegExp.lex (render p +:+ rest) = (app (tokens_of p)) <$> RegExp.lex rest.
Proof.
  destruct p as [| | |c]; intros Hp.
  - change (render DoubleStar +:+ rest) with (String "." (String "*" rest)).
    cbn [RegExp.lex Ascii.eqb Bool.eqb]. by destruct (RegExp.lex rest).
  - change (render Star +:+ rest)
      with (String "[" (String "^" (String "/" (String "]" (String "*" rest))))).
    cbn [RegExp.lex Ascii.eqb Bool.eqb andb]. by destruct (RegExp.lex rest).
  - change (render Question +:+ rest) with (String "." rest).
    cbn [RegExp.lex Ascii.eqb Bool.eqb]. by destruct (RegExp.lex rest).
  - unfold plain_piece in Hp. unfold render, tokens_of.
    destruct (Ascii.eqb c ".") eqn:E.
    + apply Ascii.eqb_eq in E as ->.
      change ("\." +:+ rest) with (String "\" (String "." rest)).
      cbn [RegExp.lex Ascii.eqb Bool.eqb RegExp.is_syntax JsString.includes orb].
      by destruct (RegExp.lex rest).
    + cbn [orb] in Hp. apply andb_true_iff in Hp as [Hm _].
      apply negb_true_iff in Hm.
      change (String c "" +:+ rest) with (String c rest).
      cbn [RegExp.lex].
      assert (Hs : forall x, JsString.includes x "^$\.*+?()[]{}|" = true ->
                             Ascii.eqb c x = false).
      { intros x Hx. destruct (Ascii.eqb c x) eqn:Ex; [|reflexivity].
        apply Ascii.eqb_eq in Ex as ->. unfold RegExp.is_meta in Hm.
        rewrite Hm in Hx. discriminate. }
      rewrite !Hs by reflexivity. rewrite Hm.
      by destruct (RegExp.lex rest).
Qed.

Lemma append_assoc3 (a b c : string) :
  (a +:+ b) +:+ c = a +:+ (b +:+ c).
Proof.
  induction a as [|x a IH]; [reflexivity|].
  change (String x ((a +:+ b) +:+ c) = String x (a +:+ (b +:+ c))).
  by rewrite IH.
Qed.

Lemma lex_source (ps : list piece) (rest : string) :
  forallb plain_piece ps = true ->
  RegExp.lex (source ps +:+ rest)
  = (app (concat (map tokens_of ps))) <$> RegExp.lex rest.
Proof.
  induction ps as [|p ps IH]; intros H.
  - change (source [] +:+ rest) with rest. by destruct (RegExp.lex rest).
  - cbn [forallb] in H. apply andb_true_iff in H as [Hp H].
    cbn [source map concat].
    rewrite append_assoc3, (lex_render _ _ Hp), (IH H).
    destruct (RegExp.lex rest); cbn; [|reflexivity].
    by rewrite app_assoc.
Qed.

Lemma items_tokens (ps : list piece) :
  RegExp.items (concat (map tokens_of ps)) = Some (map item_of ps).
Proof.
  induction ps as [|p ps IH]; [reflexivity|].
  cbn [map concat].
  destruct p; cbn [tokens_of app RegExp.items].
  - by rewrite IH.
  - by rewrite IH.
  - destruct ps as [|q ps']; [reflexivity|].
    cbn [map concat] in *.
    destruct q; cbn [tokens_of app] in *; by rewrite IH.
  - destruct ps as [|q ps']; [reflexivity|].
    cbn [map concat] in *.
    destruct q; cbn [tokens_of app] in *; by rewrite IH.
Qed.

Lemma compile_source (ps : list piece) :
  forallb plain_piece ps = true ->
  RegExp.compile ("^" +:+ source ps +:+ "$") = Some (map item_of ps).
Proof.
  intros H. unfold RegExp.compile.
  change ("^" +:+ source ps +:+ "$") with (String "^" (source ps +:+ "$")).
  cbn [RegExp.lex]. cbn [Ascii.eqb Bool.eqb RegExp.is_meta JsString.includes orb].
  rewrite (lex_source _ _ H).
  cbn. rewrite rev_app_distr. cbn [rev app].
  rewrite rev_involutive. apply items_tokens.
Qed.

Lemma accepts_matches (ps : list piece) (s : string) :
  accepts ps s = RegExp.matches (map item_of ps) s.
Proof.
  revert s. induction ps as [|p ps IH]; intros s; [reflexivity|].
  destruct p; cbn [map item_of].
  - induction s as [|d s IHs].
    + rewrite matches_star. cbn. by rewrite IH.
    + rewrite matches_star, <- IHs. cbn. by rewrite IH.
  - induction s as [|d s IHs].
    + rewrite matches_star. cbn. by rewrite IH.
    + rewrite matches_star, <- IHs. cbn. by rewrite IH.
  - rewrite matches_once. destruct s; cbn; [reflexivity|]. by rewrite IH.
  - rewrite matches_once. destruct s; cbn; [reflexivity|]. by rewrite IH.
Qed.

End GlobReading.

(* ===================================================================== *)
(** * What a pattern matches *)
(* ===================================================================== *)

Section GlobMeaning.

Import PolicyEngine Glob.

Lemma literal_char_plain (c : ascii) :
  literal_char c = true ->
  plain_char c = true /\ Ascii.eqb c "*" = false /\ Ascii.eqb c "?" = false.
Proof.
  unfold literal_char. intros H.
  apply andb_true_iff in H as [H H3]. apply andb_true_iff in H as [H1 H2].
  apply negb_true_iff in H2, H3. auto.
Qed.

Lemma plain_app (a b : string) :
  plain a = true -> plain b = true -> plain (a +:+ b) = true.
Proof.
  intros Ha Hb. induction a as [|c a IH]; [exact Hb|].
  cbn [plain] in Ha. apply andb_true_iff in Ha as [Hc Ha].
  change (plain (String c (a +:+ b)) = true). cbn [plain].
  by rewrite Hc, IH.
Qed.

Lemma literal_plain (s : string) :
  literal s = true -> plain s = true.
Proof.
  induction s as [|c s IH]; [done|]. cbn [literal plain]. intros H.
  apply andb_true_iff in H as [Hc H].
  destruct (literal_char_plain _ Hc) as [-> _]. by rewrite IH.
Qed.

Lemma parse_literal_app (pre rest : string) :
  literal pre = true -> parse (pre +:+ rest) = letters pre ++ parse rest.
Proof.
  induction pre as [|c pre IH]; [done|]. cbn [literal]. intros H.
  apply andb_true_iff in H as [Hc H].
  destruct (literal_char_plain _ Hc) as (_ & H1 & H2).
  change (String c pre +:+ rest) with (String c (pre +:+ rest)).
  rewrite (parse_char _ _ H1 H2), (IH H). reflexivity.
Qed.

Lemma parse_literal (s : string) :
  literal s = true -> parse s = letters s.
Proof.
  intros H. induction s as [|c s IH]; [done|]. cbn [literal] in H.
  apply andb_true_iff in H as [Hc H].
  destruct (literal_char_plain _ Hc) as (_ & H1 & H2).
  by rewrite (parse_char _ _ H1 H2), (IH H).
Qed.

Lemma parse_star_literal (post : string) :
  literal post = true -> parse (String "*" post) = Star :: letters post.
Proof.
  intros H. destruct post as [|d r]; [reflexivity|].
  pose proof H as H'. cbn [literal] in H'.
  apply andb_true_iff in H' as [Hc _].
  destruct (literal_char_plain _ Hc) as (_ & H1 & _).
  by rewrite (parse_star_other _ _ H1), (parse_literal _ H).
Qed.

(** The equations of [accepts] on the two runs. *)
Lemma accepts_star (r : list piece) (s : string) :
  accepts (Star :: r) s =
  accepts r s ||
  match s with
  | String d s' => negb (Ascii.eqb d "/") && accepts (Star :: r) s'
  | EmptyString => false
  end.
Proof. destruct s; reflexivity. Qed.

Lemma accepts_doublestar (r : list piece) (s : string) :
  accepts (DoubleStar :: r) s =
  accepts r s ||
  match s with
  | String d s' =>
      negb (RegExp.is_line_terminator d) && accepts (DoubleStar :: r) s'
  | EmptyString => false
  end.
Proof. destruct s; reflexivity. Qed.

Lemma accepts_letters_app (pre : string) (ps : list piece) (s : string) :
  accepts (letters pre ++ ps) s = true <->
  exists rest, s = pre +:+ rest /\ accepts ps rest = true.
Proof.
  revert s. induction pre as [|c pre IH]; intros s.
  - cbn [letters app]. split; [eauto|]. by intros (rest & -> & H).
  - cbn [letters app accepts]. destruct s as [|d s'].
    + split; [discriminate|]. by intros (rest & [=] & _).
    + rewrite andb_true_iff, IH. split.
      * intros (E & rest & -> & H). apply Ascii.eqb_eq in E as ->. eauto.
      * intros (rest & E & H).
        change (String c pre +:+ rest) with (String c (pre +:+ rest)) in E.
        injection E as -> ->. rewrite Ascii.eqb_refl. eauto.
Qed.

Lemma accepts_letters (post s : string) :
  accepts (letters post) s = String.eqb post s.
Proof.
  revert s. induction post as [|c post IH]; intros s; destruct s as [|d s'];
    try reflexivity.
  cbn [letters accepts String.eqb]. rewrite IH.
  by destruct (Ascii.eqb c d).
Qed.

Lemma accepts_star_run (ps : list piece) (s : string) :
  accepts (Star :: ps) s = true <->
  exists mid rest, s = mid +:+ rest /\ JsString.includes "/" mid = false /\
                   accepts ps rest = true.
Proof.
  induction s as [|d s' IH]; rewrite accepts_star.
  - rewrite orb_false_r. split.
    + intros H. by exists "", "".
    + intros (mid & rest & E & _ & H).
      destruct mid; [|discriminate E]. by rewrite E.
  - rewrite orb_true_iff, andb_true_iff, IH, negb_true_iff. split.
    + intros [H|(Hd & mid & rest & -> & Hm & H)].
      * by exists "", (String d s').
      * exists (String d mid), rest. repeat split; [|exact H].
        cbn [JsString.includes]. by rewrite Hd, Hm.
    + intros (mid & rest & E & Hm & H). destruct mid as [|e mid].
      * left. by rewrite E.
      * right. change (String e mid +:+ rest) with (String e (mid +:+ rest)) in E.
        injection E as -> ->. cbn [JsString.includes] in Hm.
        apply orb_false_iff in Hm as [Hd Hm]. eauto 10.
Qed.

Lemma accepts_doublestar_run (ps : list piece) (s : string) :
  accepts (DoubleStar :: ps) s = true <->
  exists mid rest, s = mid +:+ rest /\ one_line mid = true /\
                   accepts ps rest = true.
Proof.
  induction s as [|d s' IH]; rewrite accepts_doublestar.
  - rewrite orb_false_r. split.
    + intros H. by exists "", "".
    + intros (mid & rest & E & _ & H).
      destruct mid; [|discriminate E]. by rewrite E.
  - rewrite orb_true_iff, andb_true_iff, IH. split.
    + intros [H|(Hd & mid & rest & -> & Hm & H)].
      * by exists "", (String d s').
      * exists (String d mid), rest. repeat split; [|exact H].
        cbn [one_line]. by rewrite Hd, Hm.
    + intros (mid & rest & E & Hm & H). destruct mid as [|e mid].
      * left. by rewrite E.
      * right. change (String e mid +:+ rest) with (String e (mid +:+ rest)) in E.
        injection E as -> ->. cbn [one_line] in Hm.
        apply andb_true_iff in Hm as [Hd Hm]. eauto 10.
Qed.

Lemma matchGlob_accepts (str pattern : string) :
  plain pattern = true ->
  matchGlob str pattern = Some (accepts (parse pattern) str).
Proof.
  intros H. destruct (regexPattern_source _ H) as [Hs Hp].
  unfold matchGlob, RegExp.test. rewrite Hs, (compile_source _ Hp).
  cbn [mbind option_bind]. by rewrite accepts_matches.
Qed.

End GlobMeaning.

(** X11. For a pattern of plain code units (no regular-expression
    syntax besides [.], [*] and [?], no section sign) [matchGlob] gives
    an answer, and the answer is that of its pieces read left to right:
    [**] a run without line terminator, [*] a run without slash, [?]
    one code unit that is no line terminator, any other code unit
    itself. *)
Theorem matchGlob_reads_pieces (str pattern : string) :
  Glob.plain pattern = true ->
  PolicyEngine.matchGlob str pattern
  = Some (Glob.accepts (Glob.parse pattern) str).
Proof.
  intros Hplain.
  destruct (regexPattern_source pattern Hplain) as [Hsource Hpieces].
  unfold PolicyEngine.matchGlob, RegExp.test.
  rewrite Hsource, (compile_source _ Hpieces).
  cbn [mbind option_bind]. f_equal. symmetry. apply accepts_matches.
Qed.

Lemma matchGlob_reads_pieces_witness :
  PolicyEngine.matchGlob "src/a/b.test.js" "src/**/*.test.?s"
  = Some (Glob.accepts
            [Glob.Char "s"; Glob.Char "r"; Glob.Char "c"; Glob.Char "/";
             Glob.DoubleStar; Glob.Char "/"; Glob.Star; Glob.Char ".";
             Glob.Char "t"; Glob.Char "e"; Glob.Char "s"; Glob.Char "t";
             Glob.Char "."; Glob.Question; Glob.Char "s"]
            "src/a/b.test.js").
Proof.
  apply (matchGlob_reads_pieces "src/a/b.test.js" "src/**/*.test.?s").
  reflexivity.
Defined.

(** X12. A pattern without wildcards matches itself and nothing else:
    its dots are dots, not "any character". *)
Theorem literal_pattern_matches_itself (str pattern : string) :
  Glob.literal pattern = true ->
  PolicyEngine.matchGlob str pattern = Some (String.eqb pattern str).
Proof.
  intros H. rewrite (matchGlob_accepts _ _ (literal_plain _ H)).
  by rewrite (parse_literal _ H), accepts_letters.
Qed.

Lemma literal_pattern_matches_itself_witness :
  PolicyEngine.matchGlob "package-json" "package.json" = Some false /\
  PolicyEngine.matchGlob "package.json" "package.json" = Some true.
Proof.
  split.
  - apply (literal_pattern_matches_itself "package-json" "package.json").
    reflexivity.
  - apply (literal_pattern_matches_itself "package.json" "package.json").
    reflexivity.
Defined.

(** X13. A single star between two literal parts stays inside one path
    segment: [pre*post] matches exactly the candidates [pre mid post]
    whose [mid] holds no slash. *)
Theorem single_star_stays_in_segment (str pre post : string) :
  Glob.literal pre = true -> Glob.literal post = true ->
  exists answer,
    PolicyEngine.matchGlob str (pre +:+ "*" +:+ post) = Some answer /\
    (answer = true <->
     exists mid, str = pre +:+ mid +:+ post /\
                 JsString.includes "/" mid = false).
Proof.
  intros Hpre Hpost. eexists. split.
  - apply matchGlob_accepts. apply plain_app; [by apply literal_plain|].
    change (Glob.plain (String "*" post) = true). cbn [Glob.plain].
    by rewrite (literal_plain _ Hpost).
  - rewrite (parse_literal_app _ _ Hpre).
    change ("*" +:+ post) with (String "*" post).
    rewrite (parse_star_literal _ Hpost), accepts_letters_app. split.
    + intros (rest & -> & H). apply accepts_star_run in H
        as (mid & rest' & -> & Hm & H).
      rewrite accepts_letters in H. apply String.eqb_eq in H as <-. eauto.
    + intros (mid & -> & Hm). eexists. split; [reflexivity|].
      apply accepts_star_run. exists mid, post. repeat split; [exact Hm|].
      rewrite accepts_letters. apply String.eqb_refl.
Qed.

Lemma single_star_stays_in_segment_witness :
  exists answer,
    PolicyEngine.matchGlob "src/lib/a.js" ("src/" +:+ "*" +:+ ".js")
    = Some answer /\
    (answer = true <->
     exists mid, "src/lib/a.js" = "src/" +:+ mid +:+ ".js" /\
                 JsString.includes "/" mid = false).
Proof.
  apply (single_star_stays_in_segment "src/lib/a.js" "src/" ".js");
    reflexivity.
Defined.

(** X14. A double star between two literal parts crosses slashes but no
    line break: [pre**post] matches exactly the candidates
    [pre mid post] whose [mid] holds no line terminator. *)
Theorem double_star_crosses_segments (str pre post : string) :
  Glob.literal pre = true -> Glob.literal post = true ->
  exists answer,
    PolicyEngine.matchGlob str (pre +:+ "**" +:+ post) = Some answer /\
    (answer = true <->
     exists mid, str = pre +:+ mid +:+ post /\ Glob.one_line mid = true).
Proof.
  intros Hpre Hpost. eexists. split.
  - apply matchGlob_accepts. apply plain_app; [by apply literal_plain|].
    change (Glob.plain (String "*" (String "*" post)) = true). cbn [Glob.plain].
    by rewrite (literal_plain _ Hpost).
  - rewrite (parse_literal_app _ _ Hpre).
    change (Glob.parse ("**" +:+ post)) with (Glob.DoubleStar :: Glob.parse post).
    rewrite (parse_literal _ Hpost), accepts_letters_app. split.
    + intros (rest & -> & H). apply accepts_doublestar_run in H
        as (mid & rest' & -> & Hm & H).
      rewrite accepts_letters in H. apply String.eqb_eq in H as <-. eauto.
    + intros (mid & -> & Hm). eexists. split; [reflexivity|].
      apply accepts_doublestar_run. exists mid, post. repeat split; [exact Hm|].
      rewrite accepts_letters. apply String.eqb_refl.
Qed.

Lemma double_star_crosses_segments_witness :
  exists answer,
    PolicyEngine.matchGlob "src/lib/a.js" ("src/" +:+ "**" +:+ ".js")
    = Some answer /\
    (answer = true <->
     exists mid, "src/lib/a.js" = "src/" +:+ mid +:+ ".js" /\
                 Glob.one_line mid = true).
Proof.
  apply (double_star_crosses_segments "src/lib/a.js" "src/" ".js");
    reflexivity.
Defined.

(* ===================================================================== *)
(** * The interactions of a run *)
(* ===================================================================== *)

Section RunFacts.

Import PipelineEngine.

Variable engine : t.
Variable host : Host.

(** What [executeStep] adds to the history. *)
Lemma executeStep_events (step : Step.t) (previousResults : list StepResult.t)
    (context : Context.t) (tr tr1 : Trace) (o : Js.Outcome StepResult.t) :
  executeStep engine host step previousResults context tr = (o, tr1) ->
  exists added,
    tr1 = tr ++ added /\
    step_events engine host step previousResults context tr added.
Proof.
  unfold executeStep.
  destruct (prepare engine host step previousResults context)
    as [[input agentContext]|e] eqn:P.
  2:{ intros [= <- <-]. exists []. rewrite app_nil_r. split; [done|constructor]. }
  fold (step_approval_due engine step). fold (step_request step input).
  fold (call_of step input agentContext
          (default (defaultTimeout (options engine))
                   (truthy_timeout (Step.timeout step)))).
  destruct (step_approval_due engine step) eqn:Due.
  - unfold requestApproval.
    destruct (onApprovalRequired (options engine)) as [callback|] eqn:Cb.
    + destruct (callback tr (step_request step input)) as [[]|e] eqn:Ans.
      * destruct (client engine _) as [ag|].
        2:{ intros [= <- <-]. eexists. split; [reflexivity|].
            eapply asked; eauto. }
        destruct (ag _) as [method|].
        2:{ intros [= <- <-]. eexists. split; [reflexivity|].
            eapply asked; eauto. }
        destruct (executeWithTimeout _ _); intros [= <- <-];
          (eexists; split; [by rewrite <- app_assoc|];
           eapply asked_and_called; eauto).
      * intros [= <- <-]. eexists. split; [reflexivity|]. eapply asked; eauto.
      * intros [= <- <-]. eexists. split; [reflexivity|]. eapply asked; eauto.
    + destruct (client engine _) as [ag|].
      2:{ intros [= <- <-]. exists []. rewrite app_nil_r.
          split; [done|constructor]. }
      destruct (ag _) as [method|].
      2:{ intros [= <- <-]. exists []. rewrite app_nil_r.
          split; [done|constructor]. }
      destruct (executeWithTimeout _ _); intros [= <- <-];
        (eexists; split; [reflexivity|]; eapply called_unasked; eauto).
  - destruct (client engine _) as [ag|].
    2:{ intros [= <- <-]. exists []. rewrite app_nil_r.
        split; [done|constructor]. }
    destruct (ag _) as [method|].
    2:{ intros [= <- <-]. exists []. rewrite app_nil_r.
        split; [done|constructor]. }
    destruct (executeWithTimeout _ _); intros [= <- <-];
      (eexists; split; [reflexivity|]; eapply called_unasked; eauto).
Qed.

Lemma notify_events (r : StepResult.t) (current total : Z) (tr tr1 : Trace)
    (o : Js.Outcome unit) :
  notify engine r current total tr = (o, tr1) ->
  tr1 = tr \/ tr1 = tr ++ [StepCompleted r current total].
Proof.
  unfold notify. destruct (onStepComplete (options engine));
    intros [= <- <-]; auto.
Qed.

(** What [start] adds to the history. *)
Lemma start_events (pipelineId : string) (context : list (string * Js.Value))
    (tr tr1 : Trace) (o : Js.Outcome (Pipeline.t * list Step.t * Loop)) :
  start engine pipelineId context tr = (o, tr1) ->
  tr1 = tr \/
  exists p,
    pipelines engine !! pipelineId = Some p /\
    approval_due engine p = true /\
    tr1 = tr ++ [ApprovalRequested (pipeline_request p)].
Proof.
  unfold start.
  destruct (pipelines engine !! pipelineId) as [p|]; [|intros [= <- <-]; auto].
  destruct (Pipeline.steps p) as [steps|]; [|intros [= <- <-]; auto].
  destruct (pipeline_denied engine p); [intros [= <- <-]; auto|].
  fold (approval_due engine p). fold (pipeline_request p).
  destruct (approval_due engine p) eqn:Due.
  - unfold requestApproval.
    destruct (onApprovalRequired (options engine)) as [callback|].
    + destruct (callback tr (pipeline_request p)) as [[]|e];
        intros [= <- <-]; right; eauto.
    + intros [= <- <-]. auto.
  - intros [= <- <-]. auto.
Qed.

(** ** A property of the added history, carried through the run *)

Section Carried.

Variable R : Trace -> Trace -> Prop.
Variable steps : list Step.t.

Hypothesis R_nil : forall h, R h [].
Hypothesis R_app : forall h a b, R h a -> R (h ++ a) b -> R h (a ++ b).
Hypothesis R_done : forall h r current total, R h [StepCompleted r current total].
Hypothesis R_step :
  forall step previousResults context h added,
    In step steps ->
    step_events engine host step previousResults context h added ->
    R h added.

Lemma iteration_carries (total i : Z) (step : Step.t) (st st' : Loop)
    (tr tr' : Trace) (next : Next) :
  In step steps ->
  iteration engine host total i step st tr = (st', next, tr') ->
  exists added, tr' = tr ++ added /\ R tr added.
Proof.
  intros Hin. unfold iteration.
  destruct (executeStep _ _ _ _ _ _) as [[r|e] tr1] eqn:Ex;
    destruct (executeStep_events _ _ _ _ _ _ Ex) as (a1 & -> & Ha1).
  - destruct (notify _ _ _ _ _) as [o tr2] eqn:N.
    assert (Htr' : tr' = tr2 ->
                   exists added, tr' = tr ++ added /\ R tr added).
    { intros ->. destruct (notify_events _ _ _ _ _ _ N) as [->| ->].
      - exists a1. split; [reflexivity|]. eapply R_step; eauto.
      - eexists. split; [by rewrite <- app_assoc|].
        apply R_app; [eapply R_step; eauto|apply R_done]. }
    destruct o as [u|e].
    + destruct (negb (StepResult.success r) && _); intros [= _ _ <-]; auto.
    + destruct (on_catch _ _ _ _ _). intros [= _ _ <-]. auto.
  - destruct (on_catch _ _ _ _ _). intros [= _ _ <-].
    exists a1. split; [reflexivity|]. eapply R_step; eauto.
Qed.

Lemma run_steps_carries (total : Z) (todo : list Step.t) :
  (forall step, In step todo -> In step steps) ->
  forall (i : Z) (st st' : Loop) (tr tr' : Trace),
    run_steps engine host total i todo st tr = (st', tr') ->
    exists added, tr' = tr ++ added /\ R tr added.
Proof.
  induction todo as [|step rest IH]; intros Hin i st st' tr tr'; cbn [run_steps].
  - intros [= <- <-]. exists []. by rewrite app_nil_r.
  - destruct (iteration engine host total i step st tr) as [[st1 next] tr1] eqn:It.
    destruct (iteration_carries _ _ _ _ _ _ _ _ (Hin step (or_introl eq_refl)) It)
      as (a1 & -> & Ha1).
    destruct next.
    + intros H.
      destruct (IH (fun s Hs => Hin s (or_intror Hs)) _ _ _ _ _ H)
        as (a2 & -> & Ha2).
      exists (a1 ++ a2). split; [by rewrite app_assoc|]. by apply R_app.
    + intros [= <- <-]. eauto.
Qed.

End Carried.

(** The same, for the whole of [runPipeline]: the steps are those of the
    registered definition, and the request for the pipeline comes
    first, if there is one. *)
Lemma runPipeline_carries (R : Trace -> Trace -> Prop) (pipelineId : string)
    (context : list (string * Js.Value)) (tr tr' : Trace)
    (o : Js.Outcome PipelineResult.t) :
  (forall h, R h []) ->
  (forall h a b, R h a -> R (h ++ a) b -> R h (a ++ b)) ->
  (forall h r current total, R h [StepCompleted r current total]) ->
  (forall p, pipelines engine !! pipelineId = Some p ->
             approval_due engine p = true ->
             R tr [ApprovalRequested (pipeline_request p)]) ->
  (forall p steps step previousResults context h added,
      pipelines engine !! pipelineId = Some p ->
      Pipeline.steps p = Some steps ->
      In step steps ->
      step_events engine host step previousResults context h added ->
      R h added) ->
  runPipeline engine host pipelineId context tr = (o, tr') ->
  exists added, tr' = tr ++ added /\ R tr added.
Proof.
  intros R_nil R_app R_done R_ask R_step. unfold runPipeline.
  destruct (start engine pipelineId context tr) as [[[[p steps] st0]|e] tr0] eqn:S.
  - destruct (start_state _ _ _ _ _ _ _ _ S) as (Hp & Hs & _).
    destruct (run_steps _ _ _ _ _ _ _) as [st' tr2] eqn:Run.
    intros [= _ <-].
    destruct (run_steps_carries R steps R_nil R_app R_done
                (fun step prev ctx h added Hin He =>
                   R_step p steps step prev ctx h added Hp Hs Hin He)
                _ steps (fun _ H => H) _ _ _ _ _ Run) as (a2 & -> & Ha2).
    destruct (start_events _ _ _ _ _ S) as [->|(q & Hq & Hdue & ->)].
    + eauto.
    + exists ([ApprovalRequested (pipeline_request q)] ++ a2).
      split; [by rewrite app_assoc|]. apply R_app; [|exact Ha2].
      by apply R_ask.
  - intros [= _ <-].
    destruct (start_events _ _ _ _ _ S) as [->|(q & Hq & Hdue & ->)].
    + exists []. by rewrite app_nil_r.
    + eexists. split; [reflexivity|]. by apply R_ask.
Qed.

End RunFacts.

Section ApprovalFacts.

Import PipelineEngine.

Lemma one_event (x e : Event) (before after : Trace) :
  [x] = before ++ e :: after -> before = [] /\ e = x.
Proof.
  destruct before as [|b before]; cbn.
  - by intros [= -> _].
  - intros [= _ H]. by destruct before.
Qed.

Lemma two_events (x y e : Event) (before after : Trace) :
  [x; y] = before ++ e :: after ->
  (before = [] /\ e = x) \/ (before = [x] /\ e = y).
Proof.
  destruct before as [|b before]; cbn.
  - intros [= -> _]. by left.
  - intros [= <- H]. apply one_event in H as [-> ->]. by right.
Qed.

Lemma guarded_nil (callback : Trace -> ApprovalRequest -> Js.Outcome bool)
    (h : Trace) :
  guarded callback h [].
Proof. intros before e after H. by destruct before. Qed.

Lemma guarded_app (callback : Trace -> ApprovalRequest -> Js.Outcome bool)
    (h a b : Trace) :
  guarded callback h a -> guarded callback (h ++ a) b ->
  guarded callback h (a ++ b).
Proof.
  intros Ha Hb before e after H Hcall.
  apply List.app_eq_app in H as [l [[Ha' Hl]|[Hb' Hl]]].
  - destruct l as [|x l].
    + cbn in Hl. symmetry in Hl.
      destruct (Hb [] e after Hl Hcall) as (earlier & request & He & _).
      by destruct earlier.
    + cbn in Hl. injection Hl as -> ->.
      by apply (Ha before x l).
  - destruct (Hb l e after Hl Hcall) as (earlier & request & -> & Hg).
    exists (a ++ earlier), request. split; [by rewrite Hb', app_assoc|].
    by rewrite app_assoc.
Qed.

Lemma guarded_other (callback : Trace -> ApprovalRequest -> Js.Outcome bool)
    (h : Trace) (x : Event) :
  is_call x = false -> guarded callback h [x].
Proof.
  intros Hx before e after H Hcall. apply one_event in H as [_ ->]. congruence.
Qed.

Lemma prepare_permitted (engine : t) (host : Host) (step : Step.t)
    (previousResults : list StepResult.t) (context : Context.t)
    (ready : Js.Value * Js.Value) :
  prepare engine host step previousResults context = Js.Ok ready ->
  step_denied engine step = None.
Proof.
  unfold prepare.
  destruct (buildStepInput _ _ _ _); [|discriminate].
  cbn [mbind Outcome_bind Js.bind].
  destruct (match Step.contextBuilder step with
            | Some build => build previousResults context
            | None => Js.Ok (buildDefaultContext step context)
            end); [|discriminate].
  cbn [mbind Outcome_bind Js.bind].
  by destruct (step_denied engine step).
Qed.

(** ** Without a callback, approval is automatic *)

Lemma executeStep_auto (engine : t) (host : Host) (step : Step.t)
    (previousResults : list StepResult.t) (context : Context.t) (tr : Trace) :
  onApprovalRequired (options engine) = None ->
  executeStep (auto_approving engine) host step previousResults context tr
  = executeStep engine host step previousResults context tr.
Proof.
  intros H. unfold executeStep, requestApproval.
  change (prepare (auto_approving engine)) with (prepare engine).
  cbn [auto_approving options autoApprove client defaultTimeout].
  rewrite H.
  destruct (prepare engine host step previousResults context) as [[i c]|e];
    [|reflexivity].
  by destruct (flag (Step.requiresApproval step)),
              (autoApprove (options engine)).
Qed.

Lemma run_steps_auto (engine : t) (host : Host) (total : Z)
    (steps : list Step.t) :
  onApprovalRequired (options engine) = None ->
  forall (i : Z) (st : Loop) (tr : Trace),
    run_steps (auto_approving engine) host total i steps st tr
    = run_steps engine host total i steps st tr.
Proof.
  intros H. induction steps as [|step rest IH]; intros i st tr; [reflexivity|].
  cbn [run_steps].
  assert (It : iteration (auto_approving engine) host total i step st tr
               = iteration engine host total i step st tr).
  { unfold iteration. rewrite (executeStep_auto _ _ _ _ _ _ H). reflexivity. }
  rewrite It. destruct (iteration engine host total i step st tr) as [[st1 []] tr1];
    [apply IH|reflexivity].
Qed.

Lemma start_auto (engine : t) (pipelineId : string)
    (context : list (string * Js.Value)) (tr : Trace) :
  onApprovalRequired (options engine) = None ->
  start (auto_approving engine) pipelineId context tr
  = start engine pipelineId context tr.
Proof.
  intros H. unfold start, requestApproval.
  change (pipeline_denied (auto_approving engine))
    with (pipeline_denied engine).
  cbn [auto_approving options autoApprove pipelines].
  rewrite H.
  destruct (pipelines engine !! pipelineId) as [p|]; [|reflexivity].
  destruct (Pipeline.steps p); [|reflexivity].
  destruct (pipeline_denied engine p); [reflexivity|].
  by destruct (flag (Pipeline.requiresApproval p)),
              (autoApprove (options engine)).
Qed.

End ApprovalFacts.

(** X15. Without an approval callback every request is granted, so
    the [requiresApproval] flags of pipelines and steps have no effect:
    a run is what it would be with [autoApprove] set. *)
Theorem no_callback_is_automatic_approval
    (engine : PipelineEngine.t) (host : PipelineEngine.Host)
    (pipelineId : string) (context : list (string * Js.Value))
    (tr : PipelineEngine.Trace) :
  PipelineEngine.onApprovalRequired (PipelineEngine.options engine) = None ->
  PipelineEngine.runPipeline engine host pipelineId context tr
  = PipelineEngine.runPipeline (auto_approving engine) host pipelineId context tr.
Proof.
  intros H. unfold PipelineEngine.runPipeline.
  rewrite (start_auto _ _ _ _ H).
  destruct (PipelineEngine.start engine pipelineId context tr)
    as [[[[p steps] st0]|e] tr0]; [|reflexivity].
  by rewrite (run_steps_auto _ _ _ _ H).
Qed.

Lemma no_callback_is_automatic_approval_witness :
  coding_run None default_options
  = PipelineEngine.runPipeline
      (auto_approving (coder_engine None default_options)) counting_host
      "coding" [("userPrompt", Js.str "print one")] [].
Proof.
  apply (no_callback_is_automatic_approval (coder_engine None default_options)).
  reflexivity.
Defined.

(** X16. With [autoApprove] a run asks nobody: it adds no request for
    approval to the history, whatever the flags of the pipeline and of
    its steps. *)
Theorem autoApprove_asks_nobody
    (engine : PipelineEngine.t) (host : PipelineEngine.Host)
    (pipelineId : string) (context : list (string * Js.Value))
    (tr tr' : PipelineEngine.Trace) (o : Js.Outcome PipelineResult.t) :
  PipelineEngine.autoApprove (PipelineEngine.options engine) = true ->
  PipelineEngine.runPipeline engine host pipelineId context tr = (o, tr') ->
  exists added,
    tr' = tr ++ added /\ Forall (fun e => is_request e = false) added.
Proof.
  intros Hauto.
  apply (runPipeline_carries engine host
           (fun _ added => Forall (fun e => is_request e = false) added)).
  - constructor.
  - intros _ a b Ha Hb. apply Forall_app. by split.
  - by repeat constructor.
  - intros p _ Hdue. unfold approval_due in Hdue. rewrite Hauto in Hdue.
    by rewrite andb_false_r in Hdue.
  - intros p steps step prev ctx h added _ _ _ He.
    destruct He as [|? ? ? _ Hdue|? ? ? ? _ Hdue|? ? ? _ _];
      try (unfold step_approval_due in Hdue; rewrite Hauto in Hdue;
           by rewrite andb_false_r in Hdue);
      by repeat constructor.
Qed.

Lemma autoApprove_asks_nobody_witness :
  exists added,
    snd (PipelineEngine.runPipeline
           (auto_approving (coder_engine None granting_options)) counting_host
           "coding" [] [])
    = [] ++ added /\
    Forall (fun e => is_request e = false) added.
Proof.
  apply (autoApprove_asks_nobody
           (auto_approving (coder_engine None granting_options)) counting_host
           "coding" [] []
           _ (fst (PipelineEngine.runPipeline
                (auto_approving (coder_engine None granting_options))
                counting_host "coding" [] []))).
  - reflexivity.
  - by destruct (PipelineEngine.runPipeline _ _ _ _ _).
Defined.

(** X17. When the registry holds validated definitions, every call of
    a provider that a run makes goes to an agent the policy permits. *)
Theorem calls_go_to_permitted_agents
    (engine : PipelineEngine.t) (host : PipelineEngine.Host)
    (config : PolicyEngine.PolicyConfig)
    (pipelineId : string) (context : list (string * Js.Value))
    (tr tr' : PipelineEngine.Trace) (o : Js.Outcome PipelineResult.t) :
  registry_ok engine ->
  PipelineEngine.policyEngine engine = Some config ->
  PipelineEngine.runPipeline engine host pipelineId context tr = (o, tr') ->
  exists added,
    tr' = tr ++ added /\ Forall (permitted_call config) added.
Proof.
  intros Hok Hconfig.
  apply (runPipeline_carries engine host
           (fun _ added => Forall (permitted_call config) added)).
  - constructor.
  - intros _ a b Ha Hb. apply Forall_app. by split.
  - by repeat constructor.
  - by repeat constructor.
  - intros p steps step prev ctx h added Hp Hs Hin He.
    destruct (Hok _ _ Hp) as [[_ (steps' & Hs' & Hall)] _].
    rewrite Hs in Hs'. injection Hs' as <-.
    rewrite List.Forall_forall in Hall.
    destruct (Hall _ Hin) as (_ & Hagent & _).
    assert (Hcall : forall input agentContext timeoutMs ready,
               PipelineEngine.prepare engine host step prev ctx = Js.Ok ready ->
               permitted_call config
                 (call_of step input agentContext timeoutMs)).
    { intros input agentContext timeoutMs ready Hprep.
      apply prepare_permitted in Hprep.
      unfold PipelineEngine.step_denied in Hprep. rewrite Hconfig in Hprep.
      unfold call_of, permitted_call.
      destruct (Step.agent step) as [a|]; [|discriminate Hagent].
      change (shown (Some a)) with a.
      by destruct (PolicyEngine.allowed (PolicyEngine.checkStep config a)). }
    destruct He; repeat constructor; eauto.
Qed.

Lemma calls_go_to_permitted_agents_witness :
  exists added,
    snd (PipelineEngine.runPipeline
           (engine_with [abc] (Some deny_base) watching_options)
           counting_host "abc" [] [])
    = [] ++ added /\
    Forall (permitted_call deny_base) added.
Proof.
  apply (calls_go_to_permitted_agents
           (engine_with [abc] (Some deny_base) watching_options) counting_host
           deny_base "abc" [] []
           _ (fst (PipelineEngine.runPipeline
                (engine_with [abc] (Some deny_base) watching_options)
                counting_host "abc" [] []))).
  - intros k p Hk.
    destruct (decide (k = "abc")) as [->|Hne].
    + vm_compute in Hk. injection Hk as <-.
      split; [|reflexivity]. split; [reflexivity|].
      eexists. split; [reflexivity|].
      repeat constructor.
    + unfold engine_with in Hk. cbn in Hk.
      rewrite lookup_insert_ne in Hk by done. by rewrite lookup_empty in Hk.
  - reflexivity.
  - by destruct (PipelineEngine.runPipeline _ _ _ _ _).
Defined.

(** X18. When every step of a pipeline requires approval and the engine
    has an approval callback and no [autoApprove], each call of a
    provider in a run comes right after a request for approval that the
    callback has granted. *)
Theorem calls_follow_granted_requests
    (engine : PipelineEngine.t) (host : PipelineEngine.Host)
    (callback : PipelineEngine.Trace -> PipelineEngine.ApprovalRequest ->
                Js.Outcome bool)
    (p : Pipeline.t) (steps : list Step.t)
    (pipelineId : string) (context : list (string * Js.Value))
    (tr tr' : PipelineEngine.Trace) (o : Js.Outcome PipelineResult.t) :
  PipelineEngine.onApprovalRequired (PipelineEngine.options engine)
  = Some callback ->
  PipelineEngine.autoApprove (PipelineEngine.options engine) = false ->
  PipelineEngine.pipelines engine !! pipelineId = Some p ->
  Pipeline.steps p = Some steps ->
  Forall (fun step => flag (Step.requiresApproval step) = true) steps ->
  PipelineEngine.runPipeline engine host pipelineId context tr = (o, tr') ->
  exists added, tr' = tr ++ added /\ guarded callback tr added.
Proof.
  intros Hcb Hauto Hp Hs Hall.
  apply (runPipeline_carries engine host (guarded callback)).
  - apply guarded_nil.
  - apply guarded_app.
  - intros. by apply guarded_other.
  - intros. by apply guarded_other.
  - intros p' steps' step prev ctx h added Hp' Hs' Hin He.
    rewrite Hp in Hp'. injection Hp' as <-.
    rewrite Hs in Hs'. injection Hs' as <-.
    rewrite List.Forall_forall in Hall. pose proof (Hall _ Hin) as Hflag.
    destruct He as [|input actx cb _ _ _|input actx cb t _ _ Hcb' Hgrant
                   |input actx t _ [Hdue|Hnone]].
    + apply guarded_nil.
    + by apply guarded_other.
    + intros before e after H Hcall.
      apply two_events in H as [[-> ->]|[-> ->]]; [discriminate Hcall|].
      exists [], (step_request step input). split; [reflexivity|].
      rewrite app_nil_r. congruence.
    + unfold step_approval_due in Hdue. by rewrite Hflag, Hauto in Hdue.
    + congruence.
Qed.

Lemma calls_follow_granted_requests_witness :
  exists added,
    snd (coding_run None granting_options) = [] ++ added /\
    guarded (fun _ _ => Js.Ok true) [] added.
Proof.
  apply (calls_follow_granted_requests
           (coder_engine None granting_options) counting_host
           (fun _ _ => Js.Ok true) coding [write_step]
           "coding" [("userPrompt", Js.str "print one")] []
           _ (fst (coding_run None granting_options))).
  - reflexivity.
  - reflexivity.
  - reflexivity.
  - reflexivity.
  - by repeat constructor.
  - unfold coding_run. by destruct (PipelineEngine.runPipeline _ _ _ _ _).
Defined.

(* ===================================================================== *)
(** * What a run collects *)
(* ===================================================================== *)

Section Collected.

Import PipelineEngine.

Variable engine : t.
Variable host : Host.

(** A property of the loop variables that every way through a turn
    keeps is kept by the run. *)
Section Kept.

Variable I : Loop -> Prop.
Variable steps : list Step.t.

Hypothesis I_stopped : forall st err, I st -> I (stopped st err).
Hypothesis I_caught :
  forall st step e tr,
    In step steps -> I st -> I (appended st (caught host step e tr)).
Hypothesis I_recorded :
  forall st step r tr tr1,
    In step steps -> I st ->
    executeStep engine host step (stepResults st) (executionContext st) tr
    = (Js.Ok r, tr1) ->
    I (recorded step r st).

Lemma on_catch_keeps (step : Step.t) (e : string) (st : Loop) (tr : Trace) :
  In step steps -> I st -> I (fst (on_catch host step e st tr)).
Proof.
  intros Hin H. rewrite on_catch_eq. cbn [fst].
  destruct (flag (Step.continueOnError step)); auto.
Qed.

Lemma iteration_keeps (total i : Z) (step : Step.t) (st st' : Loop)
    (tr tr' : Trace) (next : Next) :
  In step steps -> I st ->
  iteration engine host total i step st tr = (st', next, tr') ->
  I st'.
Proof.
  intros Hin H. unfold iteration.
  destruct (executeStep _ _ _ _ _ _) as [[r|e] tr1] eqn:Ex.
  - pose proof (I_recorded _ _ _ _ _ Hin H Ex) as H1.
    destruct (notify _ _ _ _ _) as [[u|e] tr2].
    + destruct (negb (StepResult.success r) && _); intros [= <- _ _];
        [apply (I_stopped _ _ H1)|exact H1].
    + pose proof (on_catch_keeps step e _ tr2 Hin H1) as H2.
      destruct (on_catch _ _ _ _ _). by intros [= <- _ _].
  - pose proof (on_catch_keeps step e _ tr1 Hin H) as H2.
    destruct (on_catch _ _ _ _ _). by intros [= <- _ _].
Qed.

Lemma run_steps_keeps (total : Z) (todo : list Step.t) :
  (forall step, In step todo -> In step steps) ->
  forall (i : Z) (st st' : Loop) (tr tr' : Trace),
    I st ->
    run_steps engine host total i todo st tr = (st', tr') ->
    I st'.
Proof.
  induction todo as [|step rest IH]; intros Hin i st st' tr tr' H;
    cbn [run_steps].
  - by intros [= <- _].
  - destruct (iteration engine host total i step st tr) as [[st1 next] tr1] eqn:It.
    pose proof (iteration_keeps _ _ _ _ _ _ _ _
                  (Hin step (or_introl eq_refl)) H It) as H1.
    destruct next; [|by intros [= <- _]].
    apply (IH (fun s Hs => Hin s (or_intror Hs))). exact H1.
Qed.

End Kept.

(** What a run reports is what the loop leaves. *)
Lemma runPipeline_returns (pipelineId : string)
    (context : list (string * Js.Value)) (tr tr' : Trace)
    (result : PipelineResult.t) :
  runPipeline engine host pipelineId context tr = (Js.Ok result, tr') ->
  exists p steps st0 tr0 st',
    start engine pipelineId context tr = (Js.Ok (p, steps, st0), tr0) /\
    run_steps engine host (Z.of_nat (length steps)) 0 steps st0 tr0 = (st', tr') /\
    result = report host p tr st' tr'.
Proof.
  unfold runPipeline.
  destruct (start engine pipelineId context tr) as [[[[p steps] st0]|e] tr0];
    [|discriminate].
  destruct (run_steps _ _ _ _ _ _ _) as [st' tr2] eqn:Run.
  intros [= <- <-]. by exists p, steps, st0, tr0, st'.
Qed.

(** ** Actions *)

Lemma github_actions_sound (step : Step.t) (commands : list Js.Value)
    (acts : list Action.t) :
  In (shown (Step.agent step)) acting_agents ->
  github_actions commands = Js.Ok acts ->
  Forall (sound_action step) acts.
Proof.
  intros Hagent. revert acts.
  induction commands as [|cmd rest IH]; intros acts; cbn [github_actions].
  - intros [= <-]. constructor.
  - destruct (Js.get cmd "command"); [|discriminate].
    cbn [mbind Outcome_bind Js.bind].
    destruct (Js.get cmd "description"); [|discriminate].
    cbn [mbind Outcome_bind Js.bind].
    destruct (github_actions rest) as [more|]; [|discriminate].
    cbn [mbind Outcome_bind Js.bind]. intros [= <-].
    constructor; [|by apply IH].
    repeat split; [|exact Hagent]. cbn. auto.
Qed.

Lemma extractActions_sound (step : Step.t) (data : Js.Value)
    (acts : list Action.t) :
  extractActions step data = Js.Ok acts ->
  Forall (sound_action step) acts.
Proof.
  unfold extractActions. intros H.
  assert (Hagent : forall a, In a acting_agents ->
                     bool_decide (Step.agent step = Some a) = true ->
                     In (shown (Step.agent step)) acting_agents).
  { intros a Ha Hb. apply bool_decide_eq_true in Hb. by rewrite Hb. }
  destruct (bool_decide (Step.agent step = Some "codeGenerator")) eqn:A1;
  destruct (bool_decide (Step.agent step = Some "diffImprover")) eqn:A2;
  destruct (bool_decide (Step.agent step = Some "terminalAgent")) eqn:A3;
  destruct (bool_decide (Step.agent step = Some "githubAgent")) eqn:A4;
  repeat match type of H with
  | context [Js.get ?d ?k] =>
      destruct (Js.get d k); cbn [mbind Outcome_bind Js.bind] in H;
      [|discriminate H]
  | context [Js.truthy ?v] =>
      destruct (Js.truthy v); cbn [mbind Outcome_bind Js.bind] in H
  | context [getFileExtension ?l] =>
      destruct (getFileExtension l); cbn [mbind Outcome_bind Js.bind] in H;
      [|discriminate H]
  | context [github_actions ?c] =>
      let G := fresh "G" in
      destruct (github_actions c) eqn:G; cbn [mbind Outcome_bind Js.bind] in H;
      [apply (github_actions_sound step) in G;
       [|apply (Hagent "githubAgent"); [cbn; auto|assumption]]
      |discriminate H]
  | context [match ?v with Js.array _ => _ | _ => _ end] =>
      destruct v; try discriminate H
  end;
  cbn [mbind Outcome_bind Js.bind] in H; injection H as <-;
  cbn [app];
  repeat first
    [ assumption
    | apply List.Forall_nil
    | apply List.Forall_cons;
      [ split; [reflexivity|]; split; [cbn; auto|];
        first [ apply (Hagent "codeGenerator"); [cbn; auto|assumption]
              | apply (Hagent "diffImprover"); [cbn; auto|assumption]
              | apply (Hagent "terminalAgent"); [cbn; auto 10|assumption] ]
      | ] ].
Qed.

Lemma conclude_actions (step : Step.t) (context : Context.t)
    (agentResult : AgentResult) (duration finished : Z) (r : StepResult.t) :
  conclude host step context agentResult duration finished = Js.Ok r ->
  Forall (sound_action step) (actions_of r).
Proof.
  unfold conclude.
  destruct (match Step.resultTransform step with
            | Some transform => transform (data agentResult) context
            | None => Js.Ok (data agentResult)
            end) as [d|e]; [|discriminate].
  cbn [mbind Outcome_bind Js.bind].
  destruct (extractActions step d) as [acts|e] eqn:E; [|discriminate].
  cbn [mbind Outcome_bind Js.bind]. intros [= <-].
  by apply extractActions_sound in E.
Qed.

Lemma executeStep_actions (step : Step.t) (previousResults : list StepResult.t)
    (context : Context.t) (tr tr1 : Trace) (r : StepResult.t) :
  executeStep engine host step previousResults context tr = (Js.Ok r, tr1) ->
  Forall (sound_action step) (actions_of r).
Proof.
  unfold executeStep.
  destruct (prepare _ _ _ _ _) as [[input agentContext]|e]; [|discriminate].
  destruct (if flag (Step.requiresApproval step) && negb (autoApprove (options engine))
            then _ else _) as [[[]|e] tr0]; try discriminate.
  destruct (client engine _) as [ag|]; [|discriminate].
  destruct (ag _) as [method|]; [|discriminate].
  destruct (executeWithTimeout _ _) as [agentResult|e]; [|discriminate].
  intros [= H _]. by apply conclude_actions in H.
Qed.

(** ** The invariants of the loop *)

Lemma actions_inv_kept (steps todo : list Step.t) (total i : Z)
    (st st' : Loop) (tr tr' : Trace) :
  (forall step, In step todo -> In step steps) ->
  actions_inv steps st ->
  run_steps engine host total i todo st tr = (st', tr') ->
  actions_inv steps st'.
Proof.
  intros Hin. apply (run_steps_keeps (actions_inv steps) steps); [| | |exact Hin].
  - intros st1 err H. exact H.
  - intros st1 step e tr1 Hs [H1 H2]. split; cbn.
    + rewrite flat_map_app. cbn. by rewrite !app_nil_r.
    + apply Forall_app. split; [exact H2|]. repeat constructor.
      exists step. repeat split; [exact Hs|]. constructor.
  - intros st1 step r tr1 tr2 Hs [H1 H2] Ex. split; cbn.
    + rewrite flat_map_app, H1. cbn. by rewrite app_nil_r.
    + apply Forall_app. split; [exact H2|]. repeat constructor.
      exists step. split; [exact Hs|]. split.
      * eapply executeStep_returns, Ex.
      * eapply executeStep_actions, Ex.
Qed.

Lemma context_inv_kept (fields : list (string * Js.Value))
    (todo : list Step.t) (total i : Z) (st st' : Loop) (tr tr' : Trace) :
  context_inv fields st ->
  run_steps engine host total i todo st tr = (st', tr') ->
  context_inv fields st'.
Proof.
  apply (run_steps_keeps (context_inv fields) todo); [| | |auto].
  - intros st1 err H. exact H.
  - intros st1 step e tr1 _ [H1 H2]. split; [exact H1|]. cbn.
    intros k v Hk. destruct (H2 k v Hk) as (r & Hr & Hrest).
    exists r. split; [|exact Hrest]. apply in_or_app. by left.
  - intros st1 step r tr1 tr2 _ [H1 H2] Ex. split; [exact H1|]. cbn.
    destruct (executeStep_returns _ _ _ _ _ _ _ _ Ex) as (Hid & _ & Herr & _).
    intros k v Hk.
    destruct (decide (shown (Step.id step) = k)) as [<-|Hne].
    + rewrite lookup_insert_eq in Hk. injection Hk as <-.
      exists r. rewrite Hid. repeat split; [|exact Herr].
      apply in_or_app. right. by left.
    + rewrite lookup_insert_ne in Hk by exact Hne.
      destruct (H2 k v Hk) as (r' & Hr & Hrest).
      exists r'. split; [|exact Hrest]. apply in_or_app. by left.
Qed.

End Collected.

Section ContextFacts.

Lemma field_filter (k : string) (fields : list (string * Js.Value)) :
  k <> "stepResults" ->
  Js.field k (List.filter (fun kv => negb (String.eqb (fst kv) "stepResults"))
                          fields)
  = Js.field k fields.
Proof.
  intros Hk. induction fields as [|[k' v] rest IH]; [reflexivity|].
  cbn [List.filter fst Js.field].
  destruct (String.eqb k' "stepResults") eqn:E; cbn [negb Js.field].
  - apply String.eqb_eq in E as ->.
    destruct (String.eqb "stepResults" k) eqn:E'; [|exact IH].
    apply String.eqb_eq in E'. congruence.
  - by rewrite IH.
Qed.

Lemma field_app (k : string) (a b : list (string * Js.Value)) :
  Js.field k (a ++ b) = if has_field k a then Js.field k a else Js.field k b.
Proof.
  induction a as [|[k' v] rest IH]; [reflexivity|].
  cbn [app Js.field has_field existsb fst].
  destruct (String.eqb k' k); [reflexivity|exact IH].
Qed.

Lemma forall_flat_map {A B : Type} (P : B -> Prop) (f : A -> list B)
    (l : list A) :
  Forall (fun x => Forall P (f x)) l -> Forall P (flat_map f l).
Proof.
  induction 1 as [|x l Hx _ IH]; cbn; [constructor|].
  apply Forall_app. by split.
Qed.

End ContextFacts.

(** X19. The actions a run reports are exactly those of its step
    results, in order; every result belongs to a step of the pipeline;
    and every action requires approval, is a [CREATE_FILE], an
    [APPLY_DIFF] or a [RUN_COMMAND], and comes from a step of one of the
    four agents whose answers are searched for actions. *)
Theorem collected_actions_require_approval
    (engine : PipelineEngine.t) (host : PipelineEngine.Host)
    (p : Pipeline.t) (steps : list Step.t)
    (pipelineId : string) (context : list (string * Js.Value))
    (tr tr' : PipelineEngine.Trace) (result : PipelineResult.t) :
  PipelineEngine.pipelines engine !! pipelineId = Some p ->
  Pipeline.steps p = Some steps ->
  PipelineEngine.runPipeline engine host pipelineId context tr
  = (Js.Ok result, tr') ->
  PipelineResult.actions result
  = flat_map actions_of (PipelineResult.steps result) /\
  Forall (result_of steps) (PipelineResult.steps result) /\
  Forall approved_type (PipelineResult.actions result).
Proof.
  intros Hp Hs Hrun.
  destruct (runPipeline_returns _ _ _ _ _ _ _ Hrun)
    as (p' & steps' & st0 & tr0 & st' & Hstart & Hloop & ->).
  destruct (start_state _ _ _ _ _ _ _ _ Hstart) as (Hp' & Hs' & Hr0 & Ha0 & _).
  rewrite Hp in Hp'. injection Hp' as <-.
  rewrite Hs in Hs'. injection Hs' as <-.
  assert (H0 : actions_inv steps st0).
  { unfold actions_inv. rewrite Hr0, Ha0. split; [reflexivity|constructor]. }
  destruct (actions_inv_kept engine host steps steps _ _ _ _ _ _
              (fun _ H => H) H0 Hloop) as [H1 H2].
  cbn [PipelineEngine.report PipelineResult.actions PipelineResult.steps].
  split; [exact H1|]. split; [exact H2|].
  rewrite H1. apply forall_flat_map.
  eapply Forall_impl; [exact H2|].
  intros r (step & _ & _ & Hsound).
  eapply Forall_impl; [exact Hsound|].
  intros a (Ha & Ht & _). by split.
Qed.

Lemma collected_actions_require_approval_witness :
  PipelineResult.actions coding_report
  = flat_map actions_of (PipelineResult.steps coding_report) /\
  Forall (result_of [write_step]) (PipelineResult.steps coding_report) /\
  Forall approved_type (PipelineResult.actions coding_report).
Proof.
  apply (collected_actions_require_approval
           (coder_engine None granting_options) counting_host coding
           [write_step] "coding" [("userPrompt", Js.str "print one")] []
           (snd (coding_run None granting_options))).
  - reflexivity.
  - reflexivity.
  - vm_compute. reflexivity.
Defined.

(** X20. The engine itself never changes the fields of the execution
    context: at the end of a run they are the caller's, then those of
    the pipeline's [defaultContext] for the keys the caller left out.
    Every output stored under [stepResults] is the data of a reported
    result that was returned (not caught), under the id of its step. *)
Theorem context_keeps_fields_and_outputs
    (engine : PipelineEngine.t) (host : PipelineEngine.Host)
    (p : Pipeline.t)
    (pipelineId : string) (context : list (string * Js.Value))
    (tr tr' : PipelineEngine.Trace) (result : PipelineResult.t) :
  PipelineEngine.pipelines engine !! pipelineId = Some p ->
  PipelineEngine.runPipeline engine host pipelineId context tr
  = (Js.Ok result, tr') ->
  (forall k, k <> "stepResults" ->
     Context.get (PipelineResult.context result) k
     = if has_field k context then Js.field k context
       else Js.field k (default [] (Pipeline.defaultContext p))) /\
  (forall k v,
     Context.stepResults (PipelineResult.context result) !! k = Some v ->
     exists r, In r (PipelineResult.steps result) /\
               shown (StepResult.stepId r) = k /\
               StepResult.data r = v /\ StepResult.error r = None).
Proof.
  intros Hp Hrun.
  destruct (runPipeline_returns _ _ _ _ _ _ _ Hrun)
    as (p' & steps' & st0 & tr0 & st' & Hstart & Hloop & ->).
  destruct (start_state _ _ _ _ _ _ _ _ Hstart)
    as (Hp' & _ & Hr0 & _ & Hc0 & _).
  rewrite Hp in Hp'. injection Hp' as <-.
  assert (H0 : context_inv
                 (Context.fields (Context.merge (Pipeline.defaultContext p)
                                                context)) st0).
  { unfold context_inv. rewrite Hc0. split; [reflexivity|].
    intros k v Hk. cbn in Hk. by rewrite lookup_empty in Hk. }
  destruct (context_inv_kept engine host _ _ _ _ _ _ _ _ H0 Hloop) as [H1 H2].
  cbn [PipelineEngine.report PipelineResult.context PipelineResult.steps].
  split; [|exact H2].
  intros k Hk. unfold Context.get. rewrite H1. cbn [Context.merge Context.fields].
  by rewrite (field_filter _ _ Hk), field_app.
Qed.

Lemma context_keeps_fields_and_outputs_witness :
  (forall k, k <> "stepResults" ->
     Context.get (PipelineResult.context coding_report) k
     = if has_field k [("userPrompt", Js.str "print one")]
       then Js.field k [("userPrompt", Js.str "print one")]
       else Js.field k (default [] (Pipeline.defaultContext coding))) /\
  (forall k v,
     Context.stepResults (PipelineResult.context coding_report) !! k = Some v ->
     exists r, In r (PipelineResult.steps coding_report) /\
               shown (StepResult.stepId r) = k /\
               StepResult.data r = v /\ StepResult.error r = None).
Proof.
  apply (context_keeps_fields_and_outputs
           (coder_engine None granting_options) counting_host coding
           "coding" [("userPrompt", Js.str "print one")] []
           (snd (coding_run None granting_options))).
  - reflexivity.
  - vm_compute. reflexivity.
Defined.

(* ===================================================================== *)
(** * The registry and the first turn after a failure *)
(* ===================================================================== *)

Section RegistryFacts.

Import PipelineEngine.

Lemma iteration_same (e1 e2 : t) (host : Host) (total i : Z) (step : Step.t)
    (st : Loop) (tr : Trace) :
  same_setup e1 e2 ->
  iteration e1 host total i step st tr = iteration e2 host total i step st tr.
Proof.
  destruct e1, e2. unfold same_setup. cbn [client policyEngine options].
  intros (-> & -> & ->). reflexivity.
Qed.

Lemma run_steps_same (e1 e2 : t) (host : Host) (total : Z)
    (steps : list Step.t) :
  same_setup e1 e2 ->
  forall (i : Z) (st : Loop) (tr : Trace),
    run_steps e1 host total i steps st tr = run_steps e2 host total i steps st tr.
Proof.
  intros H. induction steps as [|step rest IH]; intros i st tr; [reflexivity|].
  cbn [run_steps]. rewrite (iteration_same e1 e2 _ _ _ _ _ _ H).
  destruct (iteration e2 host total i step st tr) as [[st1 []] tr1];
    [apply IH|reflexivity].
Qed.

Lemma start_same (e1 e2 : t) (pipelineId : string)
    (context : list (string * Js.Value)) (tr : Trace) :
  same_setup e1 e2 ->
  pipelines e1 !! pipelineId = pipelines e2 !! pipelineId ->
  start e1 pipelineId context tr = start e2 pipelineId context tr.
Proof.
  destruct e1, e2. unfold same_setup. cbn [client policyEngine options pipelines].
  intros (-> & -> & ->) Hp. unfold start. cbn [pipelines]. rewrite Hp.
  reflexivity.
Qed.

Lemma runPipeline_same (e1 e2 : t) (host : Host) (pipelineId : string)
    (context : list (string * Js.Value)) (tr : Trace) :
  same_setup e1 e2 ->
  pipelines e1 !! pipelineId = pipelines e2 !! pipelineId ->
  runPipeline e1 host pipelineId context tr
  = runPipeline e2 host pipelineId context tr.
Proof.
  intros H Hp. unfold runPipeline. rewrite (start_same e1 e2 _ _ _ H Hp).
  destruct (start e2 pipelineId context tr) as [[[[p steps] st0]|e] tr0];
    [|reflexivity].
  by rewrite (run_steps_same e1 e2 _ _ _ H).
Qed.

Lemma registerPipeline_registered (engine e' : t) (p : Pipeline.t) :
  registerPipeline engine p = Js.Ok e' -> e' = registered engine p.
Proof.
  unfold registerPipeline.
  destruct (negb (some_string (Pipeline.id p))); [discriminate|].
  destruct (negb (bool_decide (is_Some (Pipeline.steps p)))); [discriminate|].
  destruct (validatePipelineDefinition p); [|discriminate].
  cbn [mbind Outcome_bind Js.bind]. by intros [= <-].
Qed.

Lemma validateSteps_first_defect (good : list Step.t) (bad : Step.t)
    (rest : list Step.t) (index : nat) :
  Forall step_complete good ->
  validateSteps index (good ++ bad :: rest)
  = (_ ← validateStep (index + length good) bad;
     validateSteps (S (index + length good)) rest).
Proof.
  intros H. revert index. induction H as [|s good Hs _ IH]; intros index.
  - cbn [app length validateSteps]. by rewrite Nat.add_0_r.
  - cbn [app length validateSteps].
    destruct Hs as (H1 & H2 & H3 & H4). unfold validateStep at 1.
    rewrite H1, H2, H3, H4. cbn [negb mbind Outcome_bind Js.bind].
    rewrite IH. by rewrite Nat.add_succ_r.
Qed.

End RegistryFacts.

(** X21. Registering or unregistering a pipeline leaves the runs of
    every other id as they were, and a run of an unregistered id raises
    "Pipeline not found" without any interaction. *)
Theorem registry_changes_are_local
    (engine : PipelineEngine.t) (host : PipelineEngine.Host)
    (pipelineId other : string) (context : list (string * Js.Value))
    (tr : PipelineEngine.Trace) :
  other <> pipelineId ->
  (forall p engine',
      Pipeline.id p = Some pipelineId ->
      PipelineEngine.registerPipeline engine p = Js.Ok engine' ->
      PipelineEngine.runPipeline engine' host other context tr
      = PipelineEngine.runPipeline engine host other context tr) /\
  PipelineEngine.runPipeline
    (PipelineEngine.unregisterPipeline engine pipelineId) host other context tr
  = PipelineEngine.runPipeline engine host other context tr /\
  PipelineEngine.runPipeline
    (PipelineEngine.unregisterPipeline engine pipelineId) host pipelineId
    context tr
  = (Js.Throw ("Pipeline not found: " +:+ pipelineId), tr).
Proof.
  intros Hne. split; [|split].
  - intros p engine' Hid Hreg.
    apply registerPipeline_registered in Hreg as ->.
    apply runPipeline_same; [by repeat split|].
    unfold registered. cbn [PipelineEngine.pipelines]. rewrite Hid.
    change (shown (Some pipelineId)) with pipelineId.
    by rewrite lookup_insert_ne.
  - apply runPipeline_same; [by repeat split|].
    unfold PipelineEngine.unregisterPipeline. cbn [PipelineEngine.pipelines].
    by rewrite lookup_delete_ne.
  - unfold PipelineEngine.runPipeline, PipelineEngine.start,
      PipelineEngine.unregisterPipeline.
    cbn [PipelineEngine.pipelines]. by rewrite lookup_delete_eq.
Qed.

Lemma registry_changes_are_local_witness :
  PipelineEngine.runPipeline
    (PipelineEngine.unregisterPipeline guarded_engine "release")
    counting_host "deploy" [] []
  = PipelineEngine.runPipeline guarded_engine counting_host "deploy" [] [] /\
  PipelineEngine.runPipeline
    (PipelineEngine.unregisterPipeline guarded_engine "release")
    counting_host "release" [] []
  = (Js.Throw "Pipeline not found: release", []).
Proof.
  apply (registry_changes_are_local guarded_engine counting_host
           "release" "deploy" [] []).
  discriminate.
Defined.

(** X22. Registration reports the first incomplete step of a
    definition and nothing after it: the message is the one validation
    gives for that step at its position, which for a step without an id
    is "Step <position> missing id", counted from 0. *)
Theorem registration_reports_first_incomplete_step
    (engine : PipelineEngine.t) (p : Pipeline.t)
    (good : list Step.t) (bad : Step.t) (rest : list Step.t) :
  some_string (Pipeline.id p) = true ->
  Pipeline.steps p = Some (good ++ bad :: rest) ->
  Forall step_complete good ->
  ~ step_complete bad ->
  exists message,
    PipelineEngine.validateStep (length good) bad = Js.Throw message /\
    PipelineEngine.registerPipeline engine p = Js.Throw message /\
    (some_string (Step.id bad) = false ->
     message = "Step " +:+ pretty (length good) +:+ " missing id").
Proof.
  intros Hid Hs Hgood Hbad.
  assert (Hthrow : exists message,
             PipelineEngine.validateStep (length good) bad = Js.Throw message /\
             (some_string (Step.id bad) = false ->
              message = "Step " +:+ pretty (length good) +:+ " missing id")).
  { unfold PipelineEngine.validateStep, step_complete in *.
    destruct (some_string (Step.id bad)); cbn [negb];
      [|eexists; split; [reflexivity|done]].
    destruct (some_string (Step.agent bad)); cbn [negb];
      [|eexists; split; [reflexivity|done]].
    destruct (some_string (Step.method bad)); cbn [negb];
      [|eexists; split; [reflexivity|done]].
    destruct (some_string (Step.inputFrom bad)); cbn [negb];
      [|eexists; split; [reflexivity|done]].
    exfalso. apply Hbad. done. }
  destruct Hthrow as (message & Hv & Hm).
  exists message. split; [exact Hv|]. split; [|exact Hm].
  unfold PipelineEngine.registerPipeline,
    PipelineEngine.validatePipelineDefinition.
  rewrite Hid, Hs. cbn [negb].
  rewrite bool_decide_eq_true_2 by eauto. cbn [negb].
  rewrite (validateSteps_first_defect _ _ _ 0 Hgood). cbn [Nat.add].
  rewrite Hv. reflexivity.
Qed.

Lemma registration_reports_first_incomplete_step_witness :
  exists message,
    PipelineEngine.validateStep 1 (nth 1 (default [] (Pipeline.steps half_done))
                                         stepA)
    = Js.Throw message /\
    PipelineEngine.registerPipeline bare_engine half_done = Js.Throw message /\
    (some_string (Step.id (nth 1 (default [] (Pipeline.steps half_done)) stepA))
     = false ->
     message = "Step " +:+ pretty 1%nat +:+ " missing id").
Proof.
  apply (registration_reports_first_incomplete_step bare_engine half_done
           [plain_step "one" "base" None]
           (nth 1 (default [] (Pipeline.steps half_done)) stepA)
           [plain_step "three" "base" None]).
  - reflexivity.
  - reflexivity.
  - repeat constructor.
  - intros (_ & H & _). discriminate H.
Defined.

(** X23. A step that takes its input from the previous step and has no
    query of its own cannot read a result whose data is [null], which is
    what the catch block records for a step that raised: the turn ends
    in the catch block with a TypeError, and no provider is called. *)
Theorem previousStep_cannot_read_caught_result
    (engine : PipelineEngine.t) (host : PipelineEngine.Host)
    (total i : Z) (step : Step.t) (st : PipelineEngine.Loop)
    (tr : PipelineEngine.Trace) (previous : StepResult.t) :
  PipelineEngine.last_result (PipelineEngine.stepResults st) = Some previous ->
  StepResult.data previous = Js.null ->
  Step.inputFrom step = Some "previousStep" ->
  some_string (Step.query step) = false ->
  PipelineEngine.iteration engine host total i step st tr
  = (PipelineEngine.on_catch host step
       "Cannot read properties of null (reading 'code')" st tr, tr).
Proof.
  intros Hlast Hdata Hfrom Hquery.
  apply iteration_thrown.
  unfold PipelineEngine.executeStep, PipelineEngine.prepare,
    PipelineEngine.buildStepInput.
  rewrite Hfrom, Hlast, Hdata.
  assert (Hq : Js.truthy (Js.of_option (Step.query step)) = false).
  { destruct (Step.query step) as [q|]; [|reflexivity].
    cbn in Hquery |- *. exact Hquery. }
  rewrite Hq. reflexivity.
Qed.

Lemma previousStep_cannot_read_caught_result_witness :
  PipelineEngine.iteration relay_engine counting_host 2 1 relay_step
    after_fault []
  = (PipelineEngine.on_catch counting_host relay_step
       "Cannot read properties of null (reading 'code')" after_fault [], []).
Proof.
  apply (previousStep_cannot_read_caught_result relay_engine counting_host
           2 1 relay_step after_fault []
           (PipelineEngine.caught counting_host
              (plain_step "first" "faulty" (Some true)) "provider down"
              [PipelineEngine.Called "faulty" "query" (Js.str "")
                 (Js.object []) 60000])).
  - vm_compute. reflexivity.
  - reflexivity.
  - reflexivity.
  - reflexivity.
Defined.

(** The run of [relay], as reported. *)
Example relay_reports_both_failures :
  errors_of (fst (PipelineEngine.runPipeline relay_engine counting_host
                    "relay" [] []))
  = [Some "provider down";
     Some "Cannot read properties of null (reading 'code')"].
Proof. vm_compute. reflexivity. Qed.

(* ===================================================================== *)
(** * The default policy *)
(* ===================================================================== *)

Section DefaultPolicy.

Import PolicyEngine Glob.

Lemma accepts_after_doublestar (ps : list piece) (dir rest : string) :
  one_line dir = true -> accepts ps rest = true ->
  accepts (DoubleStar :: ps) (dir +:+ rest) = true.
Proof. intros Hd Hr. apply accepts_doublestar_run. eauto. Qed.

Lemma accepts_after_star (ps : list piece) (name rest : string) :
  JsString.includes "/" name = false -> accepts ps rest = true ->
  accepts (Star :: ps) (name +:+ rest) = true.
Proof. intros Hn Hr. apply accepts_star_run. eauto. Qed.

Lemma accepts_after_letters (a : string) (ps : list piece) (rest : string) :
  accepts ps rest = true -> accepts (letters a ++ ps) (a +:+ rest) = true.
Proof. intros Hr. apply accepts_letters_app. eauto. Qed.

Lemma append_empty (s : string) : s +:+ "" = s.
Proof.
  induction s as [|c s IH]; [reflexivity|].
  change (String c (s +:+ "") = String c s). by rewrite IH.
Qed.

(** Each shape of secret path is accepted by its pattern. *)
Lemma secret_path_matches (file : string) :
  secret_path file ->
  exists p, In p default_denied_files /\ matchGlob file p = Some true.
Proof.
  intros H. destruct H as [dir Hd|dir name Hd Hn|dir rest Hd Hr|dir rest Hd Hr
                          |dir name Hd Hn|dir name Hd Hn|dir name Hd Hn].
  - exists "**/.env". split; [cbn; auto|].
    rewrite matchGlob_accepts by reflexivity. f_equal.
    change (parse "**/.env") with (DoubleStar :: letters "/.env" ++ []).
    apply accepts_after_doublestar; [exact Hd|].
    change "/.env" with ("/.env" +:+ "") at 2.
    by apply accepts_after_letters.
  - exists "**/.env.*". split; [cbn; auto|].
    rewrite matchGlob_accepts by reflexivity. f_equal.
    change (parse "**/.env.*") with (DoubleStar :: letters "/.env." ++ [Star]).
    apply accepts_after_doublestar; [exact Hd|].
    apply accepts_after_letters.
    rewrite <- (append_empty name). by apply accepts_after_star.
  - exists "**/secrets/**". split; [cbn; auto|].
    rewrite matchGlob_accepts by reflexivity. f_equal.
    change (parse "**/secrets/**")
      with (DoubleStar :: letters "/secrets/" ++ [DoubleStar]).
    apply accepts_after_doublestar; [exact Hd|].
    apply accepts_after_letters.
    rewrite <- (append_empty rest). by apply accepts_after_doublestar.
  - exists "**/credentials/**". split; [cbn; auto 10|].
    rewrite matchGlob_accepts by reflexivity. f_equal.
    change (parse "**/credentials/**")
      with (DoubleStar :: letters "/credentials/" ++ [DoubleStar]).
    apply accepts_after_doublestar; [exact Hd|].
    apply accepts_after_letters.
    rewrite <- (append_empty rest). by apply accepts_after_doublestar.
  - exists "**/*.key". split; [cbn; auto 10|].
    rewrite matchGlob_accepts by reflexivity. f_equal.
    change (parse "**/*.key")
      with (DoubleStar :: letters "/" ++ (Star :: letters ".key" ++ [])).
    apply accepts_after_doublestar; [exact Hd|].
    apply accepts_after_letters. apply accepts_after_star; [exact Hn|].
    change ".key" with (".key" +:+ "") at 2.
    by apply accepts_after_letters.
  - exists "**/*.pem". split; [cbn; auto 10|].
    rewrite matchGlob_accepts by reflexivity. f_equal.
    change (parse "**/*.pem")
      with (DoubleStar :: letters "/" ++ (Star :: letters ".pem" ++ [])).
    apply accepts_after_doublestar; [exact Hd|].
    apply accepts_after_letters. apply accepts_after_star; [exact Hn|].
    change ".pem" with (".pem" +:+ "") at 2.
    by apply accepts_after_letters.
  - exists "**/id_rsa*". split; [cbn; auto 10|].
    rewrite matchGlob_accepts by reflexivity. f_equal.
    change (parse "**/id_rsa*")
      with (DoubleStar :: letters "/id_rsa" ++ [Star]).
    apply accepts_after_doublestar; [exact Hd|].
    apply accepts_after_letters.
    rewrite <- (append_empty name). by apply accepts_after_star.
Qed.

(** Plain patterns always give an answer, so the scan of a [deny] rule
    finds a hit wherever there is one. *)
Lemma first_glob_plain (t : string) (patterns : list string) :
  Forall (fun p => plain p = true) patterns ->
  exists hit, first_glob t patterns = Some hit /\
              (hit = None -> forall p, In p patterns -> matchGlob t p = Some false).
Proof.
  induction 1 as [|p ps Hp _ (hit & IH1 & IH2)]; cbn [first_glob].
  - exists None. split; [reflexivity|]. intros _ p [].
  - rewrite (matchGlob_accepts t p Hp). cbn [mbind option_bind].
    destruct (accepts (parse p) t) eqn:A.
    + exists (Some p). split; [reflexivity|discriminate].
    + exists hit. split; [exact IH1|]. intros Hn q [<-|Hq].
      * by rewrite (matchGlob_accepts t p Hp), A.
      * by apply IH2.
Qed.

Lemma scan_denied_plain (rule : PolicyRule) (patterns tgts : list string)
    (t p : string) :
  is_deny (effect rule) = true ->
  Forall (fun q => plain q = true) patterns ->
  In t tgts -> In p patterns -> matchGlob t p = Some true ->
  exists why, scan_denied rule patterns tgts = Some (Some (denied why)).
Proof.
  intros Hd Hplain Ht Hp Hm.
  induction tgts as [|t' ts IH]; [destruct Ht|].
  cbn [scan_denied]. rewrite Hd.
  destruct (first_glob_plain t' patterns Hplain) as (hit & -> & Hnone).
  cbn [mbind option_bind]. destruct hit as [q|]; [eauto|].
  destruct Ht as [->|Ht]; [|by apply IH].
  rewrite (Hnone eq_refl p Hp) in Hm. discriminate.
Qed.

End DefaultPolicy.

(** X24. The default policy denies every file action (create, modify,
    delete) that has a secret path among its targets: an [.env] file or
    variant, anything under a [secrets] or [credentials] directory, a
    [.key] or [.pem] file, an [id_rsa] key, each below some directory
    whose path holds no line break.
    The check answers, whatever the clock, the command and the other
    targets. *)
Theorem default_policy_denies_secret_paths
    (host : string -> string -> option bool) (now : PolicyEngine.Date)
    (type file : string) (tgts : list string) (command : option string) :
  In type file_action_types ->
  In file tgts ->
  secret_path file ->
  exists why,
    PolicyEngine.checkAction host PolicyEngine.getDefaultPolicy now
      {| PolicyEngine.type := type; PolicyEngine.targets := Some tgts;
         PolicyEngine.command := command |}
    = Some (PolicyEngine.denied why).
Proof.
  intros Hty Hin Hsecret.
  destruct (secret_path_matches _ Hsecret) as (p & Hp & Hm).
  destruct (scan_denied_plain
              (nth 0 (PolicyEngine.rules PolicyEngine.getDefaultPolicy)
                   allow_deploy)
              default_denied_files tgts file p eq_refl
              ltac:(repeat constructor) Hin Hp Hm) as (why & Hscan).
  exists why.
  destruct Hty as [<-|[<-|[<-|[]]]];
    unfold PolicyEngine.checkAction;
    cbn [PolicyEngine.getDefaultPolicy PolicyEngine.rules List.filter
         PolicyEngine.applies PolicyEngine.appliesTo PolicyEngine.target
         PolicyEngine.Scope_eqb PolicyEngine.target_matches
         PolicyEngine.includes existsb String.eqb Ascii.eqb Bool.eqb
         andb orb PolicyEngine.type PolicyEngine.defaultRequiresApproval
         PolicyEngine.over_rules];
    unfold PolicyEngine.rule_body;
    cbn [PolicyEngine.conditions default PolicyEngine.deniedFiles
         PolicyEngine.targets from_option id];
    change (PolicyEngine.scan_denied _ _ tgts)
      with (PolicyEngine.scan_denied
              (nth 0 (PolicyEngine.rules PolicyEngine.getDefaultPolicy)
                   allow_deploy) default_denied_files tgts);
    rewrite Hscan; reflexivity.
Qed.

Lemma default_policy_denies_secret_paths_witness :
  exists why,
    PolicyEngine.checkAction no_regexp PolicyEngine.getDefaultPolicy monday_3am
      {| PolicyEngine.type := "DELETE_FILE";
         PolicyEngine.targets :=
           Some ["README.md"; "deploy/prod" +:+ "/" +:+ "server" +:+ ".pem"];
         PolicyEngine.command := None |}
    = Some (PolicyEngine.denied why).
Proof.
  apply (default_policy_denies_secret_paths no_regexp monday_3am
           "DELETE_FILE" ("deploy/prod" +:+ "/" +:+ "server" +:+ ".pem")).
  - cbn. auto.
  - cbn. auto.
  - by apply pem_file.
Defined.

(* ===================================================================== *)
(** * Deadlines, calls and the order of the results *)
(* ===================================================================== *)

Section CallFacts.

Import PipelineEngine.

Variable engine : t.
Variable host : Host.





End CallFacts.





(** The three calls of that run: every step of [tolerant] is asked
    once. *)
Example tolerant_calls :
  calls_of (snd tolerant_run)
  = [call_of (plain_step "A" "base" None) (Js.str "") (Js.object []) 60000;
     call_of (plain_step "B" "weak" (Some true)) (Js.str "") (Js.object []) 60000;
     call_of (plain_step "C" "faulty" (Some true)) (Js.str "") (Js.object [])
       60000].
Proof. vm_compute. reflexivity. Qed.



(* ===================================================================== *)
(** * Whitelists *)
(* ===================================================================== *)

Section Whitelists.

Import PolicyEngine.

Variable host : string -> string -> option bool.

Lemma first_glob_unlisted (t : string) (patterns : list string) :
  Forall (fun p => matchGlob t p = Some false) patterns ->
  first_glob t patterns = Some None.
Proof.
  induction 1 as [|p ps Hp _ IH]; [reflexivity|].
  cbn [first_glob]. rewrite Hp. exact IH.
Qed.

Lemma blocks_unlisted_file (now : Date) (act : ActionView) (rule : PolicyRule)
    (patterns : list string) (t : string) (rest : list string) :
  effect rule = allow ->
  allowedFiles (conditions_of rule) = Some patterns ->
  targets act = Some (t :: rest) ->
  Forall (fun p => matchGlob t p = Some false) patterns ->
  blocks host now act rule.
Proof.
  intros He Hc Ht Hno requires requires'.
  unfold rule_body. fold (conditions_of rule). rewrite Hc, Ht.
  destruct (match deniedFiles (conditions_of rule) with
            | Some patterns0 => scan_denied rule patterns0 (t :: rest)
            | None => Some None
            end) as [[v|]|]; cbn [mbind option_bind]; try discriminate.
  cbn [scan_allowed]. rewrite (first_glob_unlisted _ _ Hno), He.
  cbn [mbind option_bind negb andb is_allow]. discriminate.
Qed.

Lemma existsb_unlisted (cmd : string) (patterns : list string) :
  Forall (fun p => host p cmd <> Some true) patterns ->
  existsb (matchRegex host cmd) patterns = false.
Proof.
  induction 1 as [|p ps Hp _ IH]; [reflexivity|].
  cbn [existsb]. rewrite IH, orb_false_r. unfold matchRegex.
  destruct (host p cmd) as [[]|]; [contradiction|reflexivity|reflexivity].
Qed.

Lemma scan_denied_commands_allow (rule : PolicyRule) (cmd : string)
    (patterns : list string) :
  effect rule = allow -> scan_denied_commands host rule cmd patterns = None.
Proof.
  intros He. induction patterns as [|p ps IH]; [reflexivity|].
  cbn [scan_denied_commands]. rewrite He. cbn [is_deny].
  by rewrite andb_false_r.
Qed.

Lemma blocks_unlisted_command (now : Date) (act : ActionView) (rule : PolicyRule)
    (patterns : list string) (cmd : string) :
  effect rule = allow ->
  allowedCommands (conditions_of rule) = Some patterns ->
  command act = Some cmd -> cmd <> "" ->
  Forall (fun p => host p cmd <> Some true) patterns ->
  blocks host now act rule.
Proof.
  intros He Hc Hcmd Hne Hno requires requires'.
  unfold rule_body. fold (conditions_of rule).
  destruct (match deniedFiles (conditions_of rule), targets act with
            | Some patterns, Some tgts => scan_denied rule patterns tgts
            | _, _ => Some None
            end) as [[v|]|]; cbn [mbind option_bind]; try discriminate.
  destruct (match allowedFiles (conditions_of rule), targets act with
            | Some patterns, Some tgts => scan_allowed rule patterns false tgts
            | _, _ => Some None
            end) as [[v|]|]; cbn [mbind option_bind]; try discriminate.
  rewrite Hc, Hcmd.
  assert (Ht : truthy_string (Some cmd) = Some cmd).
  { destruct cmd; [contradiction|reflexivity]. }
  rewrite Ht.
  assert (Hd : match deniedCommands (conditions_of rule) with
               | Some patterns0 => scan_denied_commands host rule cmd patterns0
               | None => None
               end = None).
  { destruct (deniedCommands (conditions_of rule)); [|reflexivity].
    by apply scan_denied_commands_allow. }
  rewrite Hd. unfold check_allowed_commands.
  rewrite (existsb_unlisted _ _ Hno), He. cbn [negb andb is_allow].
  discriminate.
Qed.

End Whitelists.

(** X28. The file whitelist of an [allow] rule is checked on the first
    target: when a rule that applies to the action's type has effect
    [allow] and a list of allowed files, and the first target of the
    action matches none of them, every verdict the check returns is a
    denial. *)
Theorem unlisted_first_target_is_denied
    (host : string -> string -> option bool)
    (config : PolicyEngine.PolicyConfig) (now : PolicyEngine.Date)
    (act : PolicyEngine.ActionView) (rule : PolicyEngine.PolicyRule)
    (patterns : list string) (t : string) (rest : list string)
    (v : PolicyEngine.Verdict) :
  In rule (PolicyEngine.rules config) ->
  PolicyEngine.applies PolicyEngine.action (PolicyEngine.type act) rule = true ->
  PolicyEngine.effect rule = PolicyEngine.allow ->
  PolicyEngine.allowedFiles (conditions_of rule) = Some patterns ->
  PolicyEngine.targets act = Some (t :: rest) ->
  Forall (fun p => PolicyEngine.matchGlob t p = Some false) patterns ->
  PolicyEngine.checkAction host config now act = Some v ->
  PolicyEngine.allowed v = false /\ is_Some (PolicyEngine.reason v).
Proof.
  intros Hin Ha He Hc Ht Hno Hv.
  assert (Hd : is_denial v).
  { eapply over_rules_blocked; [apply in_matching_rules; eassumption| |exact Hv].
    eapply blocks_unlisted_file; eassumption. }
  destruct Hd as [why ->]. split; [reflexivity|]. cbn. eauto.
Qed.

Lemma unlisted_first_target_is_denied_witness :
  PolicyEngine.allowed
    (PolicyEngine.denied
       "File etc/passwd not in allowed patterns (rule: allow-only-src)") = false /\
  is_Some (PolicyEngine.reason
    (PolicyEngine.denied
       "File etc/passwd not in allowed patterns (rule: allow-only-src)")).
Proof.
  apply (unlisted_first_target_is_denied no_regexp only_src monday_3am
           (create ["etc/passwd"; "src/a.js"])
           (nth 0 (PolicyEngine.rules only_src) allow_deploy)
           ["src/**"] "etc/passwd" ["src/a.js"]).
  - left. reflexivity.
  - reflexivity.
  - reflexivity.
  - reflexivity.
  - reflexivity.
  - repeat constructor.
  - vm_compute. reflexivity.
Defined.

(** X29. The command whitelist of an [allow] rule fails closed: when a
    rule that applies to the action's type has effect [allow] and a list
    of allowed commands, and the host's [RegExp] finds none of them in
    the (non-empty) command of the action, an expression that does not
    compile counting as no match, every verdict the check returns is a
    denial. *)
Theorem unlisted_command_is_denied
    (host : string -> string -> option bool)
    (config : PolicyEngine.PolicyConfig) (now : PolicyEngine.Date)
    (act : PolicyEngine.ActionView) (rule : PolicyEngine.PolicyRule)
    (patterns : list string) (cmd : string) (v : PolicyEngine.Verdict) :
  In rule (PolicyEngine.rules config) ->
  PolicyEngine.applies PolicyEngine.action (PolicyEngine.type act) rule = true ->
  PolicyEngine.effect rule = PolicyEngine.allow ->
  PolicyEngine.allowedCommands (conditions_of rule) = Some patterns ->
  PolicyEngine.command act = Some cmd -> cmd <> "" ->
  Forall (fun p => host p cmd <> Some true) patterns ->
  PolicyEngine.checkAction host config now act = Some v ->
  PolicyEngine.allowed v = false /\ is_Some (PolicyEngine.reason v).
Proof.
  intros Hin Ha He Hc Hcmd Hne Hno Hv.
  assert (Hd : is_denial v).
  { eapply over_rules_blocked; [apply in_matching_rules; eassumption| |exact Hv].
    eapply blocks_unlisted_command; eassumption. }
  destruct Hd as [why ->]. split; [reflexivity|]. cbn. eauto.
Qed.

Lemma unlisted_command_is_denied_witness :
  PolicyEngine.allowed
    (PolicyEngine.denied
       "Command not in allowed patterns (rule: only-git)") = false /\
  is_Some (PolicyEngine.reason
    (PolicyEngine.denied "Command not in allowed patterns (rule: only-git)")).
Proof.
  apply (unlisted_command_is_denied literal_host only_git monday_3am
           (run_command "git push --force")
           (nth 0 (PolicyEngine.rules only_git) allow_deploy)
           ["git status"; "git diff"] "git push --force").
  - left. reflexivity.
  - reflexivity.
  - reflexivity.
  - reflexivity.
  - reflexivity.
  - discriminate.
  - repeat constructor; vm_compute; discriminate.
  - vm_compute. reflexivity.
Defined.

(* ===================================================================== *)
(** * A step the policy denies *)
(* ===================================================================== *)

(** X30. A step whose agent the policy denies is reported, not thrown:
    when the input of the step can be built, its turn ends in the catch
    block with "Step blocked by policy: Agent <agent> is denied by
    policy rule: <id>", where the rule is the first one that applies to
    the agent, and nothing is asked of anybody. *)
Theorem denied_step_is_reported_with_its_rule
    (engine : PipelineEngine.t) (host : PipelineEngine.Host)
    (config : PolicyEngine.PolicyConfig) (total i : Z) (step : Step.t)
    (st : PipelineEngine.Loop) (tr : PipelineEngine.Trace)
    (a : string) (rule : PolicyEngine.PolicyRule) (input : Js.Value) :
  PipelineEngine.policyEngine engine = Some config ->
  Step.agent step = Some a ->
  first_applicable PolicyEngine.agent a (PolicyEngine.rules config) rule ->
  PolicyEngine.effect rule = PolicyEngine.deny ->
  PipelineEngine.buildStepInput host step (PipelineEngine.stepResults st)
    (PipelineEngine.executionContext st) = Js.Ok input ->
  (forall build,
      Step.contextBuilder step = Some build ->
      exists agentContext,
        build (PipelineEngine.stepResults st) (PipelineEngine.executionContext st)
        = Js.Ok agentContext) ->
  PipelineEngine.iteration engine host total i step st tr
  = (PipelineEngine.on_catch host step
       ("Step blocked by policy: Agent " +:+ a +:+
        " is denied by policy rule: " +:+ PolicyEngine.id rule) st tr, tr).
Proof.
  intros Hconfig Hagent Hfirst Hdeny Hinput Hbuild.
  apply iteration_thrown.
  unfold PipelineEngine.executeStep, PipelineEngine.prepare.
  rewrite Hinput. cbn [mbind Outcome_bind Js.bind].
  assert (Hctx : exists agentContext,
             match Step.contextBuilder step with
             | Some build =>
                 build (PipelineEngine.stepResults st)
                       (PipelineEngine.executionContext st)
             | None =>
                 Js.Ok (PipelineEngine.buildDefaultContext step
                          (PipelineEngine.executionContext st))
             end = Js.Ok agentContext).
  { destruct (Step.contextBuilder step) as [build|]; [by apply Hbuild|eauto]. }
  destruct Hctx as [agentContext ->]. cbn [mbind Outcome_bind Js.bind].
  unfold PipelineEngine.step_denied. rewrite Hconfig, Hagent.
  unfold PolicyEngine.checkStep.
  apply find_first_applicable in Hfirst. rewrite Hfirst, Hdeny.
  reflexivity.
Qed.

Lemma denied_step_is_reported_with_its_rule_witness :
  PipelineEngine.iteration
    (engine_with [abc] (Some deny_base) watching_options) counting_host
    3 0 stepA fresh []
  = (PipelineEngine.on_catch counting_host stepA
       ("Step blocked by policy: Agent " +:+ "base" +:+
        " is denied by policy rule: " +:+
        PolicyEngine.id (nth 0 (PolicyEngine.rules deny_base) allow_deploy))
       fresh [], []).
Proof.
  apply (denied_step_is_reported_with_its_rule
           (engine_with [abc] (Some deny_base) watching_options) counting_host
           deny_base 3 0 stepA fresh [] "base"
           (nth 0 (PolicyEngine.rules deny_base) allow_deploy) (Js.str "")).
  - reflexivity.
  - reflexivity.
  - exists [], []. repeat split. constructor.
  - reflexivity.
  - reflexivity.
  - intros build H. discriminate H.
Defined.
